(** * Export-compliance knowledge base: a shallow embedding of the retrieval core

    The development follows the JavaScript sources of the service:
    - the router (document ingestion, code extraction, chunking, similarity
      ranking, code resolution, compliance decision, query routes);
    - the shipment orchestrator ([check-shipment-compliance], step 1).

    Strings are sequences of code units below 256 (Rocq's [string]); numbers
    that are floats in the source are IEEE binary64 values ([spec_float] at
    precision 53); objects used as maps are the key-ordered lists of their
    own properties, read with what they inherit from [Object.prototype];
    an exception is an explicit [Thrown] result. *)

From Stdlib Require Import String Ascii List Bool Arith Lia NArith ZArith.
From Stdlib Require Import Permutation Sorted.
From Stdlib Require Import SpecFloat.
Import ListNotations.
Open Scope string_scope.
Open Scope nat_scope.

(** ** The parts of the JavaScript string library the sources use *)

Module Js.

Definition LF : ascii := "010"%char.
Definition SP : ascii := " "%char.

(** The double quote, as a string. *)
Definition quote : string := String (ascii_of_nat 34) "".

(** The separator of [split('\n\n')] and of [join('\n\n')]. *)
Definition blankLine : string := String LF (String LF "").

Definition code (c : ascii) : nat := nat_of_ascii c.

(** WhiteSpace and LineTerminator code units below 256: TAB, LF, VT, FF,
    CR, SP and NBSP.  This is the set [trim] strips and [\s] matches. *)
Definition isWhiteSpace (c : ascii) : bool :=
  let n := code c in
  (n =? 9) || (n =? 10) || (n =? 11) || (n =? 12) || (n =? 13)
  || (n =? 32) || (n =? 160).

(** [.] of a regular expression without the [s] flag matches anything but
    a line terminator. *)
Definition isLineTerminator (c : ascii) : bool :=
  let n := code c in (n =? 10) || (n =? 13).

(** [\d] *)
Definition isDigit (c : ascii) : bool :=
  let n := code c in (48 <=? n) && (n <=? 57).

(** [toLowerCase] on one code unit: A-Z and the capital letters of the
    Latin-1 block (all of 192..222 but the multiplication sign). *)
Definition lowerChar (c : ascii) : ascii :=
  let n := code c in
  if ((65 <=? n) && (n <=? 90))
     || ((192 <=? n) && (n <=? 222) && negb (n =? 215))
  then ascii_of_nat (n + 32) else c.

Fixpoint toLowerCase (s : string) : string :=
  match s with
  | "" => ""
  | String c s' => String (lowerChar c) (toLowerCase s')
  end.

Fixpoint trimStart (s : string) : string :=
  match s with
  | "" => ""
  | String c s' => if isWhiteSpace c then trimStart s' else s
  end.

Fixpoint trimEnd (s : string) : string :=
  match s with
  | "" => ""
  | String c s' =>
      match trimEnd s' with
      | "" => if isWhiteSpace c then "" else String c ""
      | r => String c r
      end
  end.

Definition trim (s : string) : string := trimEnd (trimStart s).

Fixpoint startsWith (s p : string) : bool :=
  match p with
  | "" => true
  | String b p' =>
      match s with
      | "" => false
      | String a s' => Ascii.eqb a b && startsWith s' p'
      end
  end.

Fixpoint includes (s p : string) : bool :=
  startsWith s p
  || match s with
     | "" => false
     | String _ s' => includes s' p
     end.

(** [s.substring(0, n)] *)
Fixpoint substring0 (n : nat) (s : string) : string :=
  match n, s with
  | S n', String c s' => String c (substring0 n' s')
  | _, _ => ""
  end.

(** Pieces of a split are built front to back: [consHead c l] puts [c] in
    front of the piece being read. *)
Definition consHead (c : ascii) (l : list string) : list string :=
  match l with
  | [] => [String c ""]
  | h :: t => String c h :: t
  end.

(** [s.split('\n\n')] *)
Fixpoint splitBlankLine (s : string) : list string :=
  match s with
  | "" => [""]
  | String c s' =>
      match s' with
      | String c' rest =>
          if Ascii.eqb c LF && Ascii.eqb c' LF
          then "" :: splitBlankLine rest
          else consHead c (splitBlankLine s')
      | "" => consHead c (splitBlankLine s')
      end
  end.

(** [s.split(sep)] for a separator that is one code unit of the class
    [isSep]: [split(' ')] and [split(/[,;\/]/)]. *)
Fixpoint splitOn (isSep : ascii -> bool) (s : string) : list string :=
  match s with
  | "" => [""]
  | String c s' =>
      if isSep c then "" :: splitOn isSep s'
      else consHead c (splitOn isSep s')
  end.

Definition isSpace (c : ascii) : bool := Ascii.eqb c SP.

(** [l.join(sep)] *)
Fixpoint join (sep : string) (l : list string) : string :=
  match l with
  | [] => ""
  | [x] => x
  | x :: t => x ++ sep ++ join sep t
  end.

(** A string is truthy when it is not empty. *)
Definition truthy (s : string) : bool := negb (String.eqb s "").

(** [a.push(x)] *)
Definition push {A : Type} (a : list A) (x : A) : list A :=
  (a ++ [x])%list.

(** [s.repeat(n)] (used to write long inputs down). *)
Fixpoint repeat (s : string) (n : nat) : string :=
  match n with
  | 0 => ""
  | S n' => s ++ repeat s n'
  end.

End Js.

(** ** Document chunker (the chunking loop of the upload route) *)

(** Body of [for (const word of words)]: the state is [textChunks] and
    [subChunk]. *)
Definition wordStep (chunkSize : nat) (st : list string * string)
    (word : string) : list string * string :=
  let '(textChunks, subChunk) := st in
  if chunkSize <? String.length (subChunk ++ " " ++ word)
  then (Js.push textChunks (Js.trim subChunk), word)
  else (textChunks, subChunk ++ " " ++ word).

(** Body of [for (const paragraph of paragraphs)]: the state is
    [textChunks] and [currentChunk]. *)
Definition paragraphStep (chunkSize : nat) (st : list string * string)
    (paragraph : string) : list string * string :=
  let '(textChunks, currentChunk) := st in
  if chunkSize <? String.length (currentChunk ++ paragraph) then
    let '(textChunks1, currentChunk1) :=
      if 0 <? String.length currentChunk
      then (Js.push textChunks (Js.trim currentChunk), "")
      else (textChunks, currentChunk) in
    if chunkSize <? String.length paragraph then
      let words := Js.splitOn Js.isSpace paragraph in
      let '(textChunks2, subChunk) :=
        fold_left (wordStep chunkSize) words (textChunks1, "") in
      if 0 <? String.length subChunk
      then (textChunks2, Js.trim subChunk)
      else (textChunks2, currentChunk1)
    else (textChunks1, paragraph)
  else (textChunks, currentChunk ++ Js.blankLine ++ paragraph).

(** The chunker with its size as a parameter. *)
Definition chunkText (pdfText : string) (chunkSize : nat) : list string :=
  let paragraphs := Js.splitBlankLine pdfText in
  let '(textChunks, currentChunk) :=
    fold_left (paragraphStep chunkSize) paragraphs ([], "") in
  if 0 <? String.length currentChunk
  then Js.push textChunks (Js.trim currentChunk)
  else textChunks.

(** [const chunkSize = 1000] *)
Definition chunkSize : nat := 1000.

Definition textChunksOf (pdfText : string) : list string :=
  chunkText pdfText chunkSize.

(** ** Objects used as maps

    An object is the list of its own properties in the order [Object.keys]
    enumerates them: the keys that are array indices (canonical decimal
    numerals below 2^32 - 1) in ascending numeric order, then the other keys
    in insertion order.  An eight-digit code without a leading zero is such
    an index.  The tables are plain objects, so that a property read with a
    computed key also finds what [Object.prototype] holds under that key
    ([constructor], [toString], ...) when the object has no property of
    its own there ([read]); an assignment to the name [__proto__] reaches
    the setter of [Object.prototype] and makes no property ([put]). *)

Module Obj.

Definition t (V : Type) : Type := list (string * V).

Definition empty {V : Type} : t V := [].

(** [Object.keys(o)] *)
Definition keys {V : Type} (o : t V) : list string := map fst o.

(** [o[k]] for the own properties; [None]: [o] has no own property [k]. *)
Fixpoint get {V : Type} (o : t V) (k : string) : option V :=
  match o with
  | [] => None
  | (k', v) :: o' => if String.eqb k' k then Some v else get o' k
  end.

Definition digitValue (c : ascii) : N := N.of_nat (Js.code c - 48).

Fixpoint allDigits (s : string) : bool :=
  match s with
  | "" => true
  | String c s' => Js.isDigit c && allDigits s'
  end.

Fixpoint decimalValue (acc : N) (s : string) : N :=
  match s with
  | "" => acc
  | String c s' => decimalValue (acc * 10 + digitValue c)%N s'
  end.

(** The numeric value of a key that is an array index. *)
Definition arrayIndex (k : string) : option N :=
  match k with
  | "" => None
  | String c rest =>
      if allDigits k
         && (negb (Ascii.eqb c "0"%char) || String.eqb rest "")
      then
        let n := decimalValue 0%N k in
        if (n <=? 4294967294)%N then Some n else None
      else None
  end.

Fixpoint update {V : Type} (k : string) (v : V) (o : t V) : t V :=
  match o with
  | [] => []
  | (k', v') :: o' =>
      if String.eqb k' k then (k, v) :: o' else (k', v') :: update k v o'
  end.

(** A new index key goes before the first key that is a larger index or
    no index at all. *)
Fixpoint insertIndex {V : Type} (n : N) (k : string) (v : V) (o : t V)
    : t V :=
  match o with
  | [] => [(k, v)]
  | (k', v') :: o' =>
      match arrayIndex k' with
      | Some n' =>
          if (n <? n')%N then (k, v) :: o
          else (k', v') :: insertIndex n k v o'
      | None => (k, v) :: o
      end
  end.

(** The own property [k] of [o] is made, or given the value, [v]: what
    [o[k] = v] does for every name but [__proto__], and what an object
    spread and [JSON.parse] do for every name. *)
Definition set {V : Type} (k : string) (v : V) (o : t V) : t V :=
  match get o k with
  | Some _ => update k v o
  | None =>
      match arrayIndex k with
      | Some n => insertIndex n k v o
      | None => (o ++ [(k, v)])%list
      end
  end.

(** [{...a, ...b}] *)
Definition spread {V : Type} (a b : t V) : t V :=
  fold_left (fun o kv => set (fst kv) (snd kv) o) b
    (fold_left (fun o kv => set (fst kv) (snd kv) o) a empty).

(** The property names of [Object.prototype]. *)
Definition inheritedNames : list string :=
  ["constructor"; "__proto__"; "toString"; "toLocaleString"; "valueOf";
   "hasOwnProperty"; "isPrototypeOf"; "propertyIsEnumerable";
   "__defineGetter__"; "__defineSetter__"; "__lookupGetter__";
   "__lookupSetter__"].

Definition inherited (k : string) : bool :=
  existsb (String.eqb k) inheritedNames.

(** What [o[k]] finds: an own property, else a property of
    [Object.prototype], else nothing ([undefined]). *)
Inductive slot (V : Type) : Type :=
| Own (v : V)
| Inherited (name : string)
| Undefined.

Arguments Own {V} v.
Arguments Inherited {V} name.
Arguments Undefined {V}.

(** [o[k]] *)
Definition read {V : Type} (o : t V) (k : string) : slot V :=
  match get o k with
  | Some v => Own v
  | None => if inherited k then Inherited k else Undefined
  end.

(** [o[k] = v] for a value [v] that is no object: under the name
    [__proto__], unless [o] has such a property of its own, the setter
    of [Object.prototype] takes the value and ignores it. *)
Definition put {V : Type} (k : string) (v : V) (o : t V) : t V :=
  match get o k with
  | Some _ => set k v o
  | None => if String.eqb k "__proto__" then o else set k v o
  end.

End Obj.

(** ** HS code extractor *)

Record HsEntry : Type := mkHsEntry {
  description : string;
  policy : string
}.

(** One match of [hsCodeRegex]: the three groups and the length of the
    whole match. *)
Record RegMatch : Type := mkRegMatch {
  group1 : string;
  group2 : string;
  group3 : string;
  matchLength : nat
}.

(** The regular expression
    [/(\d{8})\s+(.*?)(?:\s+)(Free|Restricted|Prohibited|Not Permitted)/gi]
    as a backtracking matcher: each quantifier takes the rest of the pattern
    as a continuation and tries its alternatives in the order of the
    language (greedy: longest first; lazy: shortest first). *)
Module HsCodeRegex.

(** [\d{n}] *)
Fixpoint digits (n : nat) (s : string) : option (string * string) :=
  match n with
  | 0 => Some ("", s)
  | S n' =>
      match s with
      | "" => None
      | String c s' =>
          if Js.isDigit c then
            match digits n' s' with
            | Some (d, r) => Some (String c d, r)
            | None => None
            end
          else None
      end
  end.

(** [\s+], greedy; [n] counts the code units taken so far. *)
Fixpoint spaces {A : Type} (k : nat -> string -> option A) (n : nat)
    (s : string) : option A :=
  match s with
  | "" => None
  | String c s' =>
      if Js.isWhiteSpace c then
        match spaces k (S n) s' with
        | Some r => Some r
        | None => k (S n) s'
        end
      else None
  end.

(** [.*?], lazy; [acc] is the text taken so far. *)
Fixpoint lazyAny {A : Type} (k : string -> string -> option A)
    (acc : string) (s : string) : option A :=
  match k acc s with
  | Some r => Some r
  | None =>
      match s with
      | "" => None
      | String c s' =>
          if Js.isLineTerminator c then None
          else lazyAny k (acc ++ String c "") s'
      end
  end.

(** Under the [i] flag a letter of the pattern matches both of its cases;
    the pattern has ASCII letters and a space only. *)
Definition sameLetter (p a : ascii) : bool :=
  Ascii.eqb (Js.lowerChar p) (if Js.code a <? 128 then Js.lowerChar a else a).

(** A literal of the alternation at the head of [s]: the text matched. *)
Fixpoint literal (lit s : string) : option string :=
  match lit with
  | "" => Some ""
  | String p lit' =>
      match s with
      | "" => None
      | String a s' =>
          if sameLetter p a then
            match literal lit' s' with
            | Some m => Some (String a m)
            | None => None
            end
          else None
      end
  end.

Definition policies : list string :=
  ["Free"; "Restricted"; "Prohibited"; "Not Permitted"].

Fixpoint alternation (lits : list string) (s : string) : option string :=
  match lits with
  | [] => None
  | lit :: lits' =>
      match literal lit s with
      | Some m => Some m
      | None => alternation lits' s
      end
  end.

(** A match that starts at the head of [s]. *)
Definition matchHere (s : string) : option RegMatch :=
  match digits 8 s with
  | None => None
  | Some (g1, r0) =>
      spaces (fun n1 r1 =>
        lazyAny (fun g2 r2 =>
          spaces (fun n2 r3 =>
            match alternation policies r3 with
            | Some g3 =>
                Some (mkRegMatch g1 g2 g3
                        (8 + n1 + String.length g2 + n2 + String.length g3))
            | None => None
            end) 0 r2) "" r1) 0 r0
  end.

(** The successive results of [hsCodeRegex.exec(pdfText)] until [null]:
    [skip] code units of [s] still belong to the previous match (the
    global flag resumes at [lastIndex], the end of that match). *)
Fixpoint execAll (skip : nat) (s : string) : list RegMatch :=
  match s with
  | "" => []
  | String _ s' =>
      match skip with
      | S skip' => execAll skip' s'
      | 0 =>
          match matchHere s with
          | Some m => m :: execAll (matchLength m - 1) s'
          | None => execAll 0 s'
          end
      end
  end.

End HsCodeRegex.

Definition isItemSeparator (c : ascii) : bool :=
  Ascii.eqb c ","%char || Ascii.eqb c ";"%char || Ascii.eqb c "/"%char.

Record Extracted : Type := mkExtracted {
  hsCodesData : Obj.t HsEntry;
  itemToHsMap : Obj.t string
}.

(** Body of the [while] loop of [extractHSCodes] for one match.  The key
    of the code table is the eight digits of the first group; the keys of
    the phrase index are any text. *)
Definition extractStep (acc : Extracted) (m : RegMatch) : Extracted :=
  let hsCode := group1 m in
  let description := Js.trim (group2 m) in
  let exportPolicy := group3 m in
  let hsCodesData1 :=
    Obj.set hsCode (mkHsEntry description exportPolicy) (hsCodesData acc) in
  let items :=
    map (fun item => Js.toLowerCase (Js.trim item))
        (Js.splitOn isItemSeparator description) in
  let itemToHsMap1 :=
    fold_left
      (fun o item =>
         if 3 <? String.length item then Obj.put item hsCode o else o)
      items (itemToHsMap acc) in
  mkExtracted hsCodesData1
    (Obj.put (Js.toLowerCase description) hsCode itemToHsMap1).

Definition extractHSCodes (pdfText : string) : Extracted :=
  fold_left extractStep (HsCodeRegex.execAll 0 pdfText)
    (mkExtracted Obj.empty Obj.empty).

(** ** Numbers, exceptions and the in-memory database *)

(** A JavaScript number: an IEEE binary64 value. *)
Module Num.

Definition t : Type := spec_float.

Definition prec : Z := 53%Z.
Definition emax : Z := 1024%Z.

Definition zero : t := S754_zero false.
Definition NaN : t := S754_nan.

Definition add : t -> t -> t := SFadd prec emax.
Definition sub : t -> t -> t := SFsub prec emax.
Definition mul : t -> t -> t := SFmul prec emax.
Definition div : t -> t -> t := SFdiv prec emax.
Definition sqrt : t -> t := SFsqrt prec emax.

Definition isNaN (x : t) : bool :=
  match x with
  | S754_nan => true
  | _ => false
  end.

(** [x < 0] and [x > 0] *)
Definition negative (x : t) : bool := SFltb x zero.
Definition positive (x : t) : bool := SFltb zero x.

(** The number an integer literal denotes. *)
Definition ofZ (z : Z) : t := binary_normalize prec emax z 0%Z false.

End Num.

(** The result of running a piece of code that may throw. *)
Inductive completion (A : Type) : Type :=
| Normal (a : A)
| Thrown (e : string).

Arguments Normal {A} a.
Arguments Thrown {A} e.

Definition typeError : string := "TypeError".

Record Chunk : Type := mkChunk {
  id : nat;
  content : string;
  embedding : list Num.t
}.

(** The process-wide [embeddingsDatabase]; a field that was never assigned
    is [undefined]. *)
Record Database : Type := mkDatabase {
  chunks : option (list Chunk);
  db_hsCodesData : option (Obj.t HsEntry);
  db_itemToHsMap : option (Obj.t string)
}.

(** ** Similarity ranker *)

(** [vecB[i]] past the end of [vecB] is [undefined], which multiplies to
    NaN. *)
Fixpoint cosineLoop (vecA vecB : list Num.t) (acc : Num.t * Num.t * Num.t)
    : Num.t * Num.t * Num.t :=
  match vecA with
  | [] => acc
  | a :: vecA' =>
      let '(dotProduct, normA, normB) := acc in
      let b := hd Num.NaN vecB in
      cosineLoop vecA' (tl vecB)
        (Num.add dotProduct (Num.mul a b),
         Num.add normA (Num.mul a a),
         Num.add normB (Num.mul b b))
  end.

Definition cosineSimilarity (vecA vecB : list Num.t) : Num.t :=
  let '(dotProduct, normA, normB) :=
    cosineLoop vecA vecB (Num.zero, Num.zero, Num.zero) in
  Num.div dotProduct (Num.mul (Num.sqrt normA) (Num.sqrt normB)).

(** [Array.prototype.sort] reads a comparator result that is NaN as [+0]. *)
Definition SortCompare {A : Type} (comparefn : A -> A -> Num.t) (x y : A)
    : Num.t :=
  let v := comparefn x y in
  if Num.isNaN v then Num.zero else v.

(** An implementation of [Array.prototype.sort]. *)
Definition Sorter : Type :=
  forall A : Type, (A -> A -> Num.t) -> list A -> list A.

(** Every pair of elements of [l] compares as equal. *)
Definition allEquivalent {A : Type} (comparefn : A -> A -> Num.t)
    (l : list A) : Prop :=
  forall x y, In x l -> In y l ->
    Num.negative (SortCompare comparefn x y) = false
    /\ Num.positive (SortCompare comparefn x y) = false.

(** What the language promises of every implementation and the ranking
    theorems rely on: the result holds the same elements, and the sort is
    stable, so that elements which all compare as equal keep their order.
    Where the comparator is not a consistent ordering of the elements the
    language leaves the order to the implementation. *)
Record Conforming (sort : Sorter) : Prop := mkConforming {
  sort_permutation :
    forall (A : Type) (comparefn : A -> A -> Num.t) (l : list A),
      Permutation l (sort A comparefn l);
  sort_stable :
    forall (A : Type) (comparefn : A -> A -> Num.t) (l : list A),
      allEquivalent comparefn l -> sort A comparefn l = l
}.

(** A stable insertion sort, as one implementation. *)
Fixpoint insertSorted {A : Type} (comparefn : A -> A -> Num.t) (x : A)
    (l : list A) : list A :=
  match l with
  | [] => [x]
  | y :: l' =>
      if Num.negative (SortCompare comparefn x y) then x :: l
      else y :: insertSorted comparefn x l'
  end.

Definition insertionSort : Sorter :=
  fun A comparefn l =>
    fold_left (fun sorted x => insertSorted comparefn x sorted) l [].

(** [{ ...item, similarity }] *)
Definition Scored : Type := Chunk * Num.t.

Definition similarity (s : Scored) : Num.t := snd s.

(** [(a, b) => b.similarity - a.similarity] *)
Definition bySimilarityDesc (a b : Scored) : Num.t :=
  Num.sub (similarity b) (similarity a).

Definition similarityScores (queryEmbedding : list Num.t)
    (items : list Chunk) : list Scored :=
  map (fun item => (item, cosineSimilarity queryEmbedding (embedding item)))
      items.

(** [similarityScores.sort(...).slice(0, 5)] *)
Definition topResults (sort : Sorter) (queryEmbedding : list Num.t)
    (items : list Chunk) : list Scored :=
  firstn 5 (sort Scored bySimilarityDesc
              (similarityScores queryEmbedding items)).

(** [embedContent] is the embedding oracle for the query ([None]: the call
    fails, and the error is thrown again). *)
Definition findRelevantContent (sort : Sorter)
    (embedContent : string -> option (list Num.t))
    (query : string) (embeddingsDatabase : Database) : completion string :=
  match embedContent query with
  | None => Thrown "embedContent"
  | Some queryEmbedding =>
      match chunks embeddingsDatabase with
      | None => Thrown typeError
      | Some items =>
          Normal (Js.join Js.blankLine
                    (map (fun item => content (fst item))
                         (topResults sort queryEmbedding items)))
      end
  end.

(** ** Code resolver *)

(** A string or [undefined] used as a condition: the string when it is
    truthy. *)
Definition whenTruthy (k : option string) : option string :=
  match k with
  | Some s => if Js.truthy s then Some s else None
  | None => None
  end.

(** What a read of the phrase index can give: a stored code, or the value
    that [Object.prototype] holds under the name that was read (a function;
    under [__proto__], [Object.prototype] itself). *)
Inductive CodeValue : Type :=
| Code (s : string)
| Builtin (name : string).

(** [String(v)]; it is also the property key that [v] stands for. *)
Definition codeText (v : CodeValue) : string :=
  match v with
  | Code s => s
  | Builtin name =>
      if String.eqb name "__proto__" then "[object Object]"
      else
        "function "
        ++ (if String.eqb name "constructor" then "Object" else name)
        ++ "() { [native code] }"
  end.

(** The value of a read used as a condition: the value when it is
    truthy.  Functions and objects are truthy. *)
Definition truthyRead (r : Obj.slot string) : option CodeValue :=
  match r with
  | Obj.Own s => if Js.truthy s then Some (Code s) else None
  | Obj.Inherited name => Some (Builtin name)
  | Obj.Undefined => None
  end.

(** The result is the value found, or [None] for [null] and [undefined].
    The keys that [find] returns are own properties of the index. *)
Definition findHSCodeByItemName (itemName : string)
    (itemToHsMap : option (Obj.t string)) : completion (option CodeValue) :=
  let normalizedItemName := Js.trim (Js.toLowerCase itemName) in
  match itemToHsMap with
  | None => Thrown typeError
  | Some itemToHsMap =>
      match truthyRead (Obj.read itemToHsMap normalizedItemName) with
      | Some hs => Normal (Some hs)
      | None =>
          let itemKeys := Obj.keys itemToHsMap in
          let containsMatch :=
            find (fun key => Js.includes key normalizedItemName) itemKeys in
          match whenTruthy containsMatch with
          | Some key => Normal (option_map Code (Obj.get itemToHsMap key))
          | None =>
              let isContainedMatch :=
                find (fun key => Js.includes normalizedItemName key
                                 && (5 <? String.length key)) itemKeys in
              match whenTruthy isContainedMatch with
              | Some key =>
                  Normal (option_map Code (Obj.get itemToHsMap key))
              | None => Normal None
              end
          end
      end
  end.

(** [hsCodesData[hsCode].description] for a key of the table. *)
Definition descriptionOf (hsCodesData : Obj.t HsEntry) (hsCode : string)
    : string :=
  match Obj.get hsCodesData hsCode with
  | Some e => description e
  | None => ""
  end.

Definition exactDescriptionMatch (hsCodesData : Obj.t HsEntry)
    (normalizedDescription : string) : option string :=
  find (fun hsCode =>
          String.eqb (Js.toLowerCase (descriptionOf hsCodesData hsCode))
                     normalizedDescription)
       (Obj.keys hsCodesData).

Definition partialDescriptionMatch (hsCodesData : Obj.t HsEntry)
    (normalizedDescription : string) : option string :=
  find (fun hsCode =>
          Js.includes (Js.toLowerCase (descriptionOf hsCodesData hsCode))
                      normalizedDescription
          || Js.includes normalizedDescription
                         (Js.toLowerCase (descriptionOf hsCodesData hsCode)))
       (Obj.keys hsCodesData).

Definition findHSCodeByDescription (description : string)
    (hsCodesData : option (Obj.t HsEntry)) : completion (option string) :=
  let normalizedDescription := Js.trim (Js.toLowerCase description) in
  match hsCodesData with
  | None => Thrown typeError
  | Some hsCodesData =>
      match whenTruthy (exactDescriptionMatch hsCodesData
                         normalizedDescription) with
      | Some matchingHsCode => Normal (Some matchingHsCode)
      | None =>
          Normal (whenTruthy (partialDescriptionMatch hsCodesData
                               normalizedDescription))
      end
  end.

(** ** Compliance decision engine *)

Record ComplianceResult : Type := mkComplianceResult {
  cr_exists : bool;
  cr_allowed : bool;
  cr_policy : option string;
  cr_description : option string;
  cr_reason : option string
}.

Definition isFree (policy : string) : bool :=
  String.eqb (Js.toLowerCase policy) "free".

(** [hsCodesData[code].policy] for a key of the table. *)
Definition policyOf (hsCodesData : Obj.t HsEntry) (code : string) : string :=
  match Obj.get hsCodesData code with
  | Some e => policy e
  | None => ""
  end.

(** The codes the chapter step gathers. *)
Definition matchingCodes (hsCode : string) (hsCodesData : Obj.t HsEntry)
    : list string :=
  let chapter := Js.substring0 4 hsCode in
  let twoDigitChapter := Js.substring0 2 hsCode in
  filter (fun code => Js.startsWith code chapter
                      || Js.startsWith code twoDigitChapter)
         (Obj.keys hsCodesData).

(** The result built from gathered codes, [None] when there is none. *)
Definition chapterDecision (chapter : string) (hsCodesData : Obj.t HsEntry)
    (codes : list string) : option ComplianceResult :=
  match codes with
  | [] => None
  | first :: _ =>
      let policies := map (policyOf hsCodesData) codes in
      if existsb isFree policies then
        Some (mkComplianceResult true true (Some "Free")
                (Some ("Falls under chapter " ++ chapter
                       ++ " which has some free categories")) None)
      else
        Some (mkComplianceResult true false (Some (hd "" policies))
                (Some ("Falls under chapter " ++ chapter
                       ++ " which has no free categories")) None)
  end.

(** [hsCode.length >= 4]: a function of [Object.prototype] has at most
    two parameters, and [Object.prototype] has no [length]. *)
Definition atLeastFourLong (hsCode : CodeValue) : bool :=
  match hsCode with
  | Code s => 4 <=? String.length s
  | Builtin _ => false
  end.

(** The two steps of [checkHSCodeCompliance] that read the table only:
    the exact key, then the chapter; [None] when neither returns.  What
    the table inherits under the key is truthy and has no [policy], so
    that [hsData.policy.toLowerCase()] throws. *)
Definition tableDecision (hsCode : CodeValue) (embeddingsDatabase : Database)
    : completion (option ComplianceResult) :=
  match
    match db_hsCodesData embeddingsDatabase with
    | Some hsCodesData => Obj.read hsCodesData (codeText hsCode)
    | None => Obj.Undefined
    end
  with
  | Obj.Own hsData =>
      Normal
        (Some (mkComplianceResult true (isFree (policy hsData))
                 (Some (policy hsData)) (Some (description hsData)) None))
  | Obj.Inherited _ => Thrown typeError
  | Obj.Undefined =>
      if atLeastFourLong hsCode then
        let hsCodesData :=
          match db_hsCodesData embeddingsDatabase with
          | Some o => o
          | None => Obj.empty
          end in
        Normal
          (chapterDecision (Js.substring0 4 (codeText hsCode)) hsCodesData
             (matchingCodes (codeText hsCode) hsCodesData))
      else Normal None
  end.

(** [generateContent] is the explanation oracle ([None]: the call fails). *)
Definition checkHSCodeCompliance (generateContent : string -> option string)
    (hsCode : CodeValue) (embeddingsDatabase : Database)
    : completion ComplianceResult :=
  match tableDecision hsCode embeddingsDatabase with
  | Thrown e => Thrown e
  | Normal (Some r) => Normal r
  | Normal None =>
      let prompt :=
        "Given HS code " ++ codeText hsCode
        ++ " that wasn't found in our database, provide a reason why this code might not be recognized. Limit your response to one short paragraph." in
      match generateContent prompt with
      | Some dynamicReason =>
          Normal (mkComplianceResult false false None None
                    (Some dynamicReason))
      | None =>
          Normal (mkComplianceResult false false None None
                    (Some ("The HS Code " ++ codeText hsCode
                           ++ " was not found in the export compliance regulations. Please verify the code and try again.")))
      end
  end.

(** ** Responses and the query routes *)

(** The values that occur in the request and response bodies. *)
Inductive json : Type :=
| JNull
| JBool (b : bool)
| JStr (s : string)
| JNum (n : nat)
| JEmptyObject.

(** A body is the list of its fields; a field whose value is [undefined] is
    not serialised. *)
Definition Body : Type := Obj.t json.

Definition field (name : string) (v : option string) : Body :=
  match v with
  | Some s => [(name, JStr s)]
  | None => []
  end.

(** [res.status(code).json(body)]; [res.json(body)] answers 200. *)
Definition Response : Type := (nat * Body)%type.

Definition truthyJson (v : option json) : bool :=
  match v with
  | Some (JBool b) => b
  | Some (JStr s) => Js.truthy s
  | Some (JNum n) => negb (n =? 0)
  | Some JNull => false
  | Some JEmptyObject => true
  | None => false
  end.

Definition truthyOpt (v : option string) : bool :=
  match v with
  | Some s => Js.truthy s
  | None => false
  end.

(** [v || null] *)
Definition orNull (v : option string) : json :=
  match v with
  | Some s => if Js.truthy s then JStr s else JNull
  | None => JNull
  end.

(** The fields of the body of [check-export-compliance] that the route
    reads; each is a string when present. *)
Record ExportRequest : Type := mkExportRequest {
  req_hsCode : option string;
  req_itemName : option string;
  req_itemDescription : option string
}.

Definition valueOr (v : option string) : string :=
  match v with
  | Some s => s
  | None => "undefined"
  end.

(** [!!v] *)
Definition truthyCode (v : option CodeValue) : bool :=
  match v with
  | Some (Code s) => Js.truthy s
  | Some (Builtin _) => true
  | None => false
  end.

(** A field that holds [v] as [res.json] sends it: a string as it is,
    [Object.prototype] as the object without fields, a function not at
    all. *)
Definition codeField (name : string) (v : CodeValue) : Body :=
  match v with
  | Code s => [(name, JStr s)]
  | Builtin b =>
      if String.eqb b "__proto__" then [(name, JEmptyObject)] else []
  end.

(** [codeToCheck] once the lookups are done: past the test for the
    required fields it is never [undefined]. *)
Definition settled (v : option CodeValue) : CodeValue :=
  match v with
  | Some v => v
  | None => Code "undefined"
  end.

(** The part of the route after [codeToCheck] is settled. *)
Definition answerForCode (generateContent : string -> option string)
    (embeddingsDatabase : Database) (itemName : option string)
    (codeToCheck : CodeValue) : completion Response :=
  match
    checkHSCodeCompliance generateContent codeToCheck embeddingsDatabase
  with
  | Thrown e => Thrown e
  | Normal hsCodeCompliance =>
      if negb (cr_exists hsCodeCompliance) then
        Normal
          (200, [("status", JBool false); ("allowed", JBool false)]
                ++ field "reason" (cr_reason hsCodeCompliance)
                ++ codeField "queriedHsCode" codeToCheck
                ++ [("queriedItemName", orNull itemName)])%list
      else if cr_allowed hsCodeCompliance then
        Normal
          (200, [("status", JBool true); ("allowed", JBool true)]
                ++ codeField "hsCode" codeToCheck
                ++ field "policy" (cr_policy hsCodeCompliance)
                ++ field "description" (cr_description hsCodeCompliance)
                ++ [("conditions", JStr "Standard export conditions apply");
                    ("queriedItemName", orNull itemName)])%list
      else
        let prompt :=
          "Given the HS code " ++ codeText codeToCheck
          ++ " is not allowed for export, provide a short reason why this item is restricted." in
        let reason :=
          match generateContent prompt with
          | Some text => text
          | None =>
              "Export not allowed for HS Code " ++ codeText codeToCheck
              ++ " with policy "
              ++ valueOr (cr_policy hsCodeCompliance)
              ++ ". Unable to determine a reason due to an AI processing error."
          end in
        Normal
          (200, [("status", JBool false); ("allowed", JBool false)]
                ++ codeField "hsCode" codeToCheck
                ++ field "policy" (cr_policy hsCodeCompliance)
                ++ field "description" (cr_description hsCodeCompliance)
                ++ [("reason", JStr reason);
                    ("queriedItemName", orNull itemName)])%list
  end.

(** The [try] block of [POST /api/check-export-compliance]. *)
Definition checkExportComplianceTry
    (generateContent : string -> option string)
    (embeddingsDatabase : Database) (req : ExportRequest)
    : completion Response :=
  let hsCode := req_hsCode req in
  let itemName := req_itemName req in
  let itemDescription := req_itemDescription req in
  if negb (truthyOpt hsCode) && negb (truthyOpt itemName)
     && negb (truthyOpt itemDescription)
  then
    Normal (400, [("status", JBool false);
                  ("error", JStr "Missing required fields. Please provide either hsCode, itemName, or itemDescription")])
  else
    (* if (!hsCode && itemName) *)
    let afterName : completion (option CodeValue + Response) :=
      if negb (truthyOpt hsCode) && truthyOpt itemName then
        match findHSCodeByItemName (valueOr itemName)
                (db_itemToHsMap embeddingsDatabase) with
        | Thrown e => Thrown e
        | Normal codeToCheck =>
            if truthyCode codeToCheck then Normal (inl codeToCheck)
            else
              Normal (inr (200,
                [("status", JBool false); ("allowed", JBool false);
                 ("reason", JStr ("Could not find an HS code matching item name: "
                                  ++ valueOr itemName
                                  ++ ". Please provide a valid HS code."))]))
        end
      else Normal (inl (option_map Code hsCode)) in
    match afterName with
    | Thrown e => Thrown e
    | Normal (inr response) => Normal response
    | Normal (inl codeToCheck) =>
        (* if (!hsCode && itemDescription) *)
        let afterDescription : completion (option CodeValue + Response) :=
          if negb (truthyOpt hsCode) && truthyOpt itemDescription then
            let normalizedDescription :=
              Js.trim (Js.toLowerCase (valueOr itemDescription)) in
            match findHSCodeByDescription normalizedDescription
                    (db_hsCodesData embeddingsDatabase) with
            | Thrown e => Thrown e
            | Normal codeToCheck' =>
                if truthyOpt codeToCheck'
                then Normal (inl (option_map Code codeToCheck'))
                else
                  let prompt :=
                    "Given the description " ++ Js.quote ++ normalizedDescription
                    ++ Js.quote ++ " not found in USA import regulations, provide a short reason why this item is restricted for export." in
                  let reason :=
                    match generateContent prompt with
                    | Some text => text
                    | None =>
                        "No matching HS code found for description " ++ Js.quote
                        ++ normalizedDescription ++ Js.quote
                        ++ ". Unable to determine a specific reason due to an AI processing error."
                    end in
                  Normal (inr (200,
                    [("status", JBool false); ("allowed", JBool false);
                     ("reason", JStr reason);
                     ("queriedDescription", JStr normalizedDescription)]))
            end
          else Normal (inl codeToCheck) in
        match afterDescription with
        | Thrown e => Thrown e
        | Normal (inr response) => Normal response
        | Normal (inl codeToCheck') =>
            answerForCode generateContent embeddingsDatabase itemName
              (settled codeToCheck')
        end
    end.

(** [POST /api/check-export-compliance]: whatever the [try] block throws is
    answered with status 500. *)
Definition checkExportCompliance (generateContent : string -> option string)
    (embeddingsDatabase : Database) (req : ExportRequest) : Response :=
  match checkExportComplianceTry generateContent embeddingsDatabase req with
  | Normal response => response
  | Thrown _ =>
      (500, [("status", JBool false);
             ("error", JStr "An error occurred while checking export compliance")])
  end.

(** [POST /api/find-by-description]; the argument is [req.body.description]. *)
Definition findByDescription (embeddingsDatabase : Database)
    (description : option string) : Response :=
  if negb (truthyOpt description) then
    (400, [("status", JBool false);
           ("error", JStr "Missing required field: description")])
  else
    let normalizedDescription :=
      Js.trim (Js.toLowerCase (valueOr description)) in
    let hsCodesData :=
      match db_hsCodesData embeddingsDatabase with
      | Some o => o
      | None => Obj.empty
      end in
    match whenTruthy (exactDescriptionMatch hsCodesData
                        normalizedDescription) with
    | Some matchingHsCode => (200, [("hsCode", JStr matchingHsCode)])
    | None =>
        match whenTruthy (partialDescriptionMatch hsCodesData
                            normalizedDescription) with
        | Some partialMatchHsCode =>
            (200, [("status", JBool true);
                   ("hsCode", JStr partialMatchHsCode);
                   ("note", JStr "Found via partial match")])
        | None =>
            (200, [("status", JBool false);
                   ("error", JStr "No matching HS code found for this description")])
        end
    end.

(** ** Shipment orchestrator, step 1 *)

(** The fields of a shipment item. *)
Record Item : Type := mkItem {
  itemName : option string;
  itemManufacturer : option string;
  material : option string;
  itemWeight : option string;
  hsCode : option string
}.

(** [v || "Not specified"] *)
Definition orNotSpecified (v : option string) : json :=
  match v with
  | Some s => if Js.truthy s then JStr s else JStr "Not specified"
  | None => JStr "Not specified"
  end.

Definition newItemReport (item : Item) : Body :=
  (field "itemName" (itemName item)
   ++ [("itemManufacturer", orNotSpecified (itemManufacturer item));
       ("material", orNotSpecified (material item));
       ("itemWeight", orNotSpecified (itemWeight item))])%list.

(** [axios.post] resolves with the body of an answer whose status is 2xx
    and rejects otherwise. *)
Definition axiosPost (answer : Response) : completion Body :=
  let '(status, data) := answer in
  if (200 <=? status) && (status <? 300) then Normal data
  else Thrown "AxiosError".

(** [v || fallback] for a field that holds a string. *)
Definition jsonOr (v : option json) (fallback : string) : json :=
  match v with
  | Some j => if truthyJson v then j else JStr fallback
  | None => JStr fallback
  end.

(** How step 1 ends for one item: with a code and the report so far, or
    with the report pushed as rejected ([overallStatus = false; continue]). *)
Inductive Step1 : Type :=
| Resolved (hsCode : json) (itemReport : Body)
| Rejected (itemReport : Body).

(** Step 1 of [check-shipment-compliance]; [post] is the call to
    [find-by-description] with the given [description]. *)
Definition resolveItemCode (post : option string -> completion Body)
    (item : Item) : Step1 :=
  let itemReport := newItemReport item in
  if negb (truthyOpt (hsCode item)) then
    match post (itemName item) with
    | Normal data =>
        if truthyJson (Obj.get data "status")
           && truthyJson (Obj.get data "hsCode")
        then
          match Obj.get data "hsCode" with
          | Some code =>
              Resolved code
                (Obj.set "hsCodeNote"
                   (jsonOr (Obj.get data "note") "Generated from item name")
                   (Obj.set "hsCode" code itemReport))
          | None => Rejected itemReport
          end
        else
          Rejected
            (Obj.set "reason"
               (jsonOr (Obj.get data "reason")
                       "HS Code could not be determined")
               (Obj.set "exportStatus" (JBool false)
                  (Obj.set "status" (JBool false) itemReport)))
    | Thrown _ =>
        Rejected
          (Obj.set "reason" (JStr "Error determining HS code")
             (Obj.set "exportStatus" (JBool false)
                (Obj.set "status" (JBool false) itemReport)))
    end
  else
    Resolved (JStr (valueOr (hsCode item)))
      (Obj.set "hsCode" (JStr (valueOr (hsCode item))) itemReport).

(** Step 1 against the route served from [embeddingsDatabase]. *)
Definition resolveItemCodeWith (embeddingsDatabase : Database) (item : Item)
    : Step1 :=
  resolveItemCode
    (fun description =>
       axiosPost (findByDescription embeddingsDatabase description))
    item.

(** ** Ingestion: embedding, merge and the two snapshot files *)

(** The combined snapshot file, as parsed. *)
Record EmbeddingsFile : Type := mkEmbeddingsFile {
  file_chunks : option (list Chunk);
  file_hsCodesData : option (Obj.t HsEntry)
}.

Record FileSystem : Type := mkFileSystem {
  embeddingsPath : option EmbeddingsFile;
  itemToHsPath : option (Obj.t string)
}.

(** The state of the server process. *)
Record Process : Type := mkProcess {
  disk : FileSystem;
  embeddingsDatabase : Database
}.

(** Start of the process: [embeddingsDatabase] is [{}], or the combined
    snapshot when [require] finds it. *)
Definition startup (fs : FileSystem) : Process :=
  mkProcess fs
    match embeddingsPath fs with
    | Some f => mkDatabase (file_chunks f) (file_hsCodesData f) None
    | None => mkDatabase None None None
    end.

(** [existingEmbeddingsData.chunks?.length || 0] *)
Definition existingCount (existing : option (list Chunk)) : nat :=
  match existing with
  | Some l => List.length l
  | None => 0
  end.

(** [existingEmbeddingsData.chunks || []] *)
Definition existingChunks (existing : option (list Chunk)) : list Chunk :=
  match existing with
  | Some l => l
  | None => []
  end.

(** [textChunks.map(async (chunk, index) => ...)], joined:
    [generateEmbedding index chunk] is the worker's answer for the chunk at
    [index] ([None]: it failed, and the result is [null]). *)
Fixpoint embedFrom (generateEmbedding : nat -> string -> option (list Num.t))
    (offset : nat) (index : nat) (textChunks : list string)
    : list (option Chunk) :=
  match textChunks with
  | [] => []
  | chunk :: rest =>
      match generateEmbedding index chunk with
      | Some e => Some (mkChunk (index + offset) chunk e)
      | None => None
      end :: embedFrom generateEmbedding offset (S index) rest
  end.

(** [results.filter(result => result !== null)] *)
Fixpoint successful (results : list (option Chunk)) : list Chunk :=
  match results with
  | [] => []
  | Some c :: rest => c :: successful rest
  | None :: rest => successful rest
  end.

Definition successfulChunks
    (generateEmbedding : nat -> string -> option (list Num.t))
    (existing : option (list Chunk)) (textChunks : list string)
    : list Chunk :=
  successful (embedFrom generateEmbedding (existingCount existing) 0
                textChunks).

Definition mergedChunks
    (generateEmbedding : nat -> string -> option (list Num.t))
    (existing : option (list Chunk)) (textChunks : list string)
    : list Chunk :=
  (existingChunks existing
   ++ successfulChunks generateEmbedding existing textChunks)%list.

(** An uploaded file: its content type and what reading and parsing it
    gives, the text or the error thrown. *)
Record Upload : Type := mkUpload {
  mimetype : string;
  pdfText : completion string
}.

(** [POST /api/upload-rules-pdf] *)
Definition uploadRulesPdf
    (generateEmbedding : nat -> string -> option (list Num.t))
    (p : Process) (files : list Upload) : Process * Response :=
  match files with
  | [] => (p, (400, [("status", JBool false);
                     ("error", JStr "No file uploaded")]))
  | file :: _ =>
      if negb (String.eqb (mimetype file) "application/pdf") then
        (p, (200, [("status", JBool true);
                   ("message", JStr "File uploaded successfully. Note: Processing is only applied to PDF files.")]))
      else
        match pdfText file with
        | Thrown message =>
            (p, (500, [("status", JBool false);
                       ("error", JStr "An error occurred while processing the uploaded PDF");
                       ("message", JStr message)]))
        | Normal pdfText =>
            let new := extractHSCodes pdfText in
            let existingEmbeddingsData :=
              match embeddingsPath (disk p) with
              | Some f => f
              | None => mkEmbeddingsFile None None
              end in
            let existingItemToHsMap :=
              match itemToHsPath (disk p) with
              | Some m => m
              | None => Obj.empty
              end in
            let mergedHsCodesData :=
              Obj.spread
                match file_hsCodesData existingEmbeddingsData with
                | Some o => o
                | None => Obj.empty
                end
                (hsCodesData new) in
            let mergedItemToHsMap :=
              Obj.spread existingItemToHsMap (itemToHsMap new) in
            let textChunks := textChunksOf pdfText in
            let existing := file_chunks existingEmbeddingsData in
            let successfulChunks :=
              successfulChunks generateEmbedding existing textChunks in
            let mergedChunks :=
              mergedChunks generateEmbedding existing textChunks in
            (mkProcess
               (mkFileSystem
                  (Some (mkEmbeddingsFile (Some mergedChunks)
                           (Some mergedHsCodesData)))
                  (Some mergedItemToHsMap))
               (mkDatabase (Some mergedChunks) (Some mergedHsCodesData)
                  (Some mergedItemToHsMap)),
             (200, [("status", JBool true);
                    ("message", JStr "PDF processed and merged successfully");
                    ("newHSCodesAdded",
                     JNum (List.length (Obj.keys (hsCodesData new))));
                    ("newItemMappingsAdded",
                     JNum (List.length (Obj.keys (itemToHsMap new))));
                    ("newTextChunksProcessed",
                     JNum (List.length successfulChunks));
                    ("totalHSCodes",
                     JNum (List.length (Obj.keys mergedHsCodesData)));
                    ("totalChunks", JNum (List.length mergedChunks))]))
        end
  end.

(** A request to the router, with the answers the oracles give while it is
    served. *)
Inductive Request : Type :=
| UploadRulesPdf (generateEmbedding : nat -> string -> option (list Num.t))
    (files : list Upload)
| CheckExportCompliance (generateContent : string -> option string)
    (req : ExportRequest)
| FindByDescription (description : option string).

Definition serve (p : Process) (r : Request) : Process * Response :=
  match r with
  | UploadRulesPdf generateEmbedding files =>
      uploadRulesPdf generateEmbedding p files
  | CheckExportCompliance generateContent req =>
      (p, checkExportCompliance generateContent (embeddingsDatabase p) req)
  | FindByDescription description =>
      (p, findByDescription (embeddingsDatabase p) description)
  end.

(** The process after a sequence of requests. *)
Definition serveAll (p : Process) (rs : list Request) : Process :=
  fold_left (fun q r => fst (serve q r)) rs p.

(** An upload that reaches the merge: a first file that is a PDF and can be
    read and parsed. *)
Definition ingests (r : Request) : bool :=
  match r with
  | UploadRulesPdf _ (file :: _) =>
      String.eqb (mimetype file) "application/pdf"
      && match pdfText file with Normal _ => true | Thrown _ => false end
  | _ => false
  end.

(** ** Sequences of ingestions *)

(** One ingestion as far as the chunk list goes: the text chunks of the
    document and the answers of the embedding worker. *)
Record Ingestion : Type := mkIngestion {
  workerAnswers : nat -> string -> option (list Num.t);
  documentChunks : list string
}.

Definition mergeIngestion (stored : option (list Chunk)) (g : Ingestion)
    : option (list Chunk) :=
  Some (mergedChunks (workerAnswers g) stored (documentChunks g)).

(** The stored chunk list after the ingestions [gs], from a store without a
    snapshot file. *)
Definition ingestAll (gs : list Ingestion) : option (list Chunk) :=
  fold_left mergeIngestion gs None.

(** No embedding of the ingestion fails. *)
Fixpoint answersFrom (answers : nat -> string -> option (list Num.t))
    (index : nat) (textChunks : list string) : bool :=
  match textChunks with
  | [] => true
  | chunk :: rest =>
      match answers index chunk with
      | Some _ => answersFrom answers (S index) rest
      | None => false
      end
  end.

Definition allEmbedded (g : Ingestion) : bool :=
  answersFrom (workerAnswers g) 0 (documentChunks g).

(** ** The chapter step read as two tiers

    The overview's reading of the chapter step: the codes under the
    four-digit chapter, and those under the two-digit chapter only when
    there is none.  It is compared with [matchingCodes] below. *)
Definition tieredMatchingCodes (hsCode : string)
    (hsCodesData : Obj.t HsEntry) : list string :=
  match filter (fun code => Js.startsWith code (Js.substring0 4 hsCode))
               (Obj.keys hsCodesData) with
  | [] =>
      filter (fun code => Js.startsWith code (Js.substring0 2 hsCode))
             (Obj.keys hsCodesData)
  | codes => codes
  end.

(** ** Properties of ranked lists and of texts used in the statements *)

(** Every element with a NaN similarity comes after every element with a
    defined one. *)
Definition undefinedLast (ranked : list Scored) : Prop :=
  forall i j x y,
    nth_error ranked i = Some x -> nth_error ranked j = Some y ->
    Num.isNaN (similarity x) = true -> Num.isNaN (similarity y) = false ->
    j < i.

Definition isZero (x : Num.t) : Prop :=
  match x with
  | S754_zero _ => True
  | _ => False
  end.

(** [s] is one word: it has no space in it. *)
Fixpoint oneWord (s : string) : bool :=
  match s with
  | "" => true
  | String c s' => negb (Js.isSpace c) && oneWord s'
  end.

(** What every chunk meets: [chunkSize] and the two code units of one
    separator bound it, unless it is one word. *)
Definition withinReach (chunkSize : nat) (chunk : string) : Prop :=
  String.length chunk <= chunkSize + 2 \/ oneWord chunk = true.

(** The values that the products and sums over a zero vector take. *)
Definition zeroOrNaN (x : Num.t) : Prop :=
  match x with
  | S754_zero _ | S754_nan => True
  | _ => False
  end.

(** A run of eight digits starts somewhere in [s]. *)
Fixpoint hasCodeToken (s : string) : bool :=
  match HsCodeRegex.digits 8 s with
  | Some _ => true
  | None =>
      match s with
      | "" => false
      | String _ s' => hasCodeToken s'
      end
  end.

Fixpoint endsWithDigit (s : string) : bool :=
  match s with
  | "" => false
  | String c "" => Js.isDigit c
  | String _ s' => endsWithDigit s'
  end.

(** The scan of [hsCodeRegex] over [s] comes to search at the offset [n]:
    no match found before that offset reaches over it.  [skip] is as in
    [execAll]. *)
Fixpoint searchesAt (skip n : nat) (s : string) : bool :=
  match n with
  | 0 => skip =? 0
  | S n' =>
      match s with
      | "" => false
      | String _ s' =>
          match skip with
          | S skip' => searchesAt skip' n' s'
          | 0 =>
              match HsCodeRegex.matchHere s with
              | Some m => searchesAt (matchLength m - 1) n' s'
              | None => searchesAt 0 n' s'
              end
          end
      end
  end.

(** ** Sample inputs *)

(** A paragraph of [k + 1] two-letter words: [3 * k + 2] code units. *)
Definition wordsParagraph (k : nat) : string := "ab" ++ Js.repeat " ab" k.

(** Three paragraphs of 599, 599 and 401 code units. *)
Definition threeParagraphs : string :=
  wordsParagraph 199 ++ Js.blankLine ++ wordsParagraph 199 ++ Js.blankLine
  ++ wordsParagraph 133.

(** A paragraph longer than [chunkSize] whose first word has [chunkSize]
    letters. *)
Definition longFirstWord : string := Js.repeat "x" 1000 ++ " tail".

Definition telephoneFragment : string := "85171200  Telephone sets  Free".

Definition shadowedPrefix : string := "11111111 note ".

Definition shadowedFragment : string :=
  "11111111 note 85171200  Telephone sets  Free".

(** The fragment, and then another row for its code. *)
Definition overwrittenFragment : string :=
  "85171200  Telephone sets  Free 85171200 Handsets Restricted".

(** The fragment after a complete row, an eight-digit date and a run of
    seven digits, and before another row. *)
Definition textBeforeFragment : string :=
  "Serial 1234567: 84713010 Laptops Free; Notification 20240131: ".

Definition textAfterFragment : string := " 85171300 Smartphones Restricted".

Definition restrictedAndFree : Obj.t HsEntry :=
  Obj.set "12340000" (mkHsEntry "Seeds" "Free")
    (Obj.set "12345678" (mkHsEntry "Oil seeds" "Restricted") Obj.empty).

Definition otherChapterFree : Obj.t HsEntry :=
  Obj.set "12990000" (mkHsEntry "Straw" "Free")
    (Obj.set "12340000" (mkHsEntry "Seeds" "Restricted") Obj.empty).

Definition cottonAndShirts : Obj.t string :=
  Obj.set "shirts" "62050000" (Obj.set "cotton" "52010000" Obj.empty).

Definition telephoneTable : Obj.t HsEntry :=
  Obj.set "62050000" (mkHsEntry "Mens cotton shirts" "Free")
    (Obj.set "85171200" (mkHsEntry "Telephone sets" "Free") Obj.empty).

Definition one : Num.t := Num.ofZ 1.

Definition zeroChunk : Chunk := mkChunk 0 "zero" [Num.zero; Num.zero].
Definition unitChunk : Chunk := mkChunk 1 "unit" [one; Num.zero].

(** The worker fails on the chunks at the indices below [n]. *)
Definition failsBelow (n : nat) : nat -> string -> option (list Num.t) :=
  fun index _ => if index <? n then None else Some [one].

Definition lossyThenClean : list Ingestion :=
  [mkIngestion (failsBelow 2) ["a"; "b"; "c"];
   mkIngestion (failsBelow 0) ["d"]].

(** ** Predicates on extracted tables *)

(** The tables before the first match. *)
Definition noTables : Extracted := mkExtracted Obj.empty Obj.empty.

(** An HS code as the pattern captures it: eight digits. *)
Definition isCode (s : string) : Prop :=
  String.length s = 8 /\ Obj.allDigits s = true.

(** One of the four policy literals, in any case of its letters. *)
Definition validPolicy (p : string) : Prop :=
  In (Js.toLowerCase p) ["free"; "restricted"; "prohibited"; "not permitted"].

(** [s] is its own normal form under [toLowerCase().trim()]. *)
Definition normalized (s : string) : Prop :=
  Js.trim (Js.toLowerCase s) = s.

(** The letters of a pattern literal stay below 128 when lower-cased. *)
Fixpoint asciiPattern (lit : string) : bool :=
  match lit with
  | "" => true
  | String p lit' => (Js.code (Js.lowerChar p) <? 128) && asciiPattern lit'
  end.

(** The first code unit of [s], if any, is no white space. *)
Definition startsTight (s : string) : bool :=
  match s with
  | "" => true
  | String c _ => negb (Js.isWhiteSpace c)
  end.

(** What holds of every table pair the extractor builds. *)
Definition wellFormedTables (ex : Extracted) : Prop :=
  NoDup (Obj.keys (hsCodesData ex))
  /\ NoDup (Obj.keys (itemToHsMap ex))
  /\ (forall code e,
        Obj.get (hsCodesData ex) code = Some e ->
        isCode code /\ validPolicy (policy e)
        /\ Js.trim (description e) = description e)
  /\ (forall phrase code,
        Obj.get (itemToHsMap ex) phrase = Some code ->
        normalized phrase /\ isCode code
        /\ exists e, Obj.get (hsCodesData ex) code = Some e).

(** What holds of every match of the pattern. *)
Definition validMatch (m : RegMatch) : Prop :=
  isCode (group1 m) /\ validPolicy (group3 m) /\ 0 < matchLength m.

(** ** Reading answers *)

(** A body without its [reason] field. *)
Definition withoutReason (body : Body) : Body :=
  filter (fun kv => negb (String.eqb (fst kv) "reason")) body.

(** ** Reading the process state *)

(** [existingEmbeddingsData.hsCodesData || {}] as the upload route reads it
    from the disk. *)
Definition existingTable (fs : FileSystem) : Obj.t HsEntry :=
  match embeddingsPath fs with
  | Some f => match file_hsCodesData f with Some o => o | None => Obj.empty end
  | None => Obj.empty
  end.

(** [existingItemToHsMap] as the upload route reads it from the disk. *)
Definition existingIndex (fs : FileSystem) : Obj.t string :=
  match itemToHsPath fs with
  | Some m => m
  | None => Obj.empty
  end.

(** [existingEmbeddingsData.chunks] *)
Definition storedChunks (fs : FileSystem) : option (list Chunk) :=
  match embeddingsPath fs with
  | Some f => file_chunks f
  | None => None
  end.

(** Memory and disk hold the same chunks and code table, and the phrase
    index in memory is the one on disk once it is defined. *)
Definition inStep (p : Process) : Prop :=
  chunks (embeddingsDatabase p) = storedChunks (disk p)
  /\ db_hsCodesData (embeddingsDatabase p)
     = match embeddingsPath (disk p) with
       | Some f => file_hsCodesData f
       | None => None
       end
  /\ (db_itemToHsMap (embeddingsDatabase p) = None
      \/ db_itemToHsMap (embeddingsDatabase p) = itemToHsPath (disk p)).

(** A PDF upload that can be read. *)
Definition readablePdf (file : Upload) (text : string) : Prop :=
  mimetype file = "application/pdf" /\ pdfText file = Normal text.

(** ** Shipment orchestrator: steps 2 and 3, and the summary *)

(** [o[k] = v] where [v] may be [undefined]; a field that holds
    [undefined] reads as [undefined] and is not serialised. *)
Definition assign (k : string) (v : option json) (o : Body) : Body :=
  match v with
  | Some j => Obj.set k j o
  | None => filter (fun kv => negb (String.eqb (fst kv) k)) o
  end.

(** The three calls the orchestrator makes, as functions of what it sends:
    [find-by-description] with [description]; [check-export-compliance]
    with the code and the fields of the item; the import-side
    [find-by-description] with [description] and [hsCode]. *)
Record Endpoints : Type := mkEndpoints {
  postFindByDescription : option string -> completion Body;
  postCheckExport : json -> Item -> completion Body;
  postImportLookup : option string -> json -> completion Body
}.

(** The body of the loop for one item: the report that is pushed, and
    whether the item passed (a rejection sets [overallStatus = false]). *)
Definition checkItem (E : Endpoints) (item : Item) : Body * bool :=
  match resolveItemCode (postFindByDescription E) item with
  | Rejected itemReport => (itemReport, false)
  | Resolved hsCode itemReport =>
      (* Step 2 *)
      match postCheckExport E hsCode item with
      | Thrown _ =>
          (Obj.set "exportReason" (JStr "Error checking export compliance")
             (Obj.set "exportStatus" (JBool false)
                (Obj.set "status" (JBool false) itemReport)), false)
      | Normal exportData =>
          let itemReport2 :=
            assign "exportStatus" (Obj.get exportData "allowed") itemReport in
          if negb (truthyJson (Obj.get exportData "allowed")) then
            (Obj.set "exportReason"
               (jsonOr (Obj.get exportData "reason")
                       "Not eligible for export from India")
               (Obj.set "status" (JBool false) itemReport2), false)
          else
            let itemReport3 :=
              assign "exportConditions" (Obj.get exportData "conditions")
                (assign "exportDescription"
                   (Obj.get exportData "description")
                   (assign "exportPolicy" (Obj.get exportData "policy")
                      itemReport2)) in
            (* Step 3 *)
            match postImportLookup E (itemName item) hsCode with
            | Thrown _ =>
                (Obj.set "importReason"
                   (JStr "Error checking import compliance")
                   (Obj.set "importStatus" (JBool false)
                      (Obj.set "status" (JBool false) itemReport3)), false)
            | Normal importData =>
                let itemReport4 :=
                  assign "importStatus" (Obj.get importData "status")
                    itemReport3 in
                if negb (truthyJson (Obj.get importData "status")) then
                  (Obj.set "importReason"
                     (jsonOr (Obj.get importData "reason")
                             "Not allowed for import in USA")
                     (Obj.set "status" (JBool false) itemReport4), false)
                else
                  (Obj.set "message"
                     (JStr "Eligible for export from India and import into USA")
                     (Obj.set "status" (JBool true) itemReport4), true)
            end
      end
  end.








(** The endpoints when the import-side lookup is served by the description
    route over [usa]. *)
Definition withImportRoute (usa : Database) (E : Endpoints) : Endpoints :=
  mkEndpoints (postFindByDescription E) (postCheckExport E)
    (fun description _ => axiosPost (findByDescription usa description)).



(** * Theorems *)

(** ** Strings *)

Section StringFacts.

Lemma startsWith_shorter_prefix (n m : nat) :
  n <= m ->
  forall hsCode code,
    Js.startsWith code (Js.substring0 m hsCode) = true ->
    Js.startsWith code (Js.substring0 n hsCode) = true.
Proof.
  intros Hle. revert m Hle.
  induction n as [|n IH]; intros m Hle hsCode code H.
  - destruct hsCode, code; reflexivity.
  - destruct m as [|m]; [lia|].
    destruct hsCode as [|c hsCode]; [destruct code; reflexivity|].
    destruct code as [|a code]; simpl in *; [discriminate|].
    apply andb_true_iff in H as [Ha Hrest].
    rewrite Ha. simpl. apply (IH m); [lia | exact Hrest].
Qed.

Lemma length_append (s t : string) :
  String.length (s ++ t) = String.length s + String.length t.
Proof.
  induction s as [|c s IH]; simpl; [reflexivity | now rewrite IH].
Qed.

End StringFacts.

(** ** Document chunker *)

Section Trim.

Lemma trimStart_length (s : string) :
  String.length (Js.trimStart s) <= String.length s.
Proof.
  induction s as [|c s IH]; simpl; [lia|].
  destruct (Js.isWhiteSpace c); simpl; lia.
Qed.

Lemma trimEnd_length (s : string) :
  String.length (Js.trimEnd s) <= String.length s.
Proof.
  induction s as [|c s IH]; [simpl; lia|].
  cbn [Js.trimEnd]. destruct (Js.trimEnd s) as [|c' r].
  - destruct (Js.isWhiteSpace c); simpl; lia.
  - simpl in *. lia.
Qed.

Lemma trim_length (s : string) :
  String.length (Js.trim s) <= String.length s.
Proof.
  unfold Js.trim.
  pose proof (trimEnd_length (Js.trimStart s)).
  pose proof (trimStart_length s). lia.
Qed.

Lemma trimStart_oneWord (s : string) :
  oneWord s = true -> oneWord (Js.trimStart s) = true.
Proof.
  induction s as [|c s IH]; intros H; [reflexivity|].
  cbn [Js.trimStart]. destruct (Js.isWhiteSpace c); [|exact H].
  apply IH. cbn [oneWord] in H. now apply andb_true_iff in H as [_ H].
Qed.

Lemma trimEnd_oneWord (s : string) :
  oneWord s = true -> oneWord (Js.trimEnd s) = true.
Proof.
  induction s as [|c s IH]; intros H; [reflexivity|].
  cbn [oneWord] in H. apply andb_true_iff in H as [Hc Hs].
  cbn [Js.trimEnd]. specialize (IH Hs).
  destruct (Js.trimEnd s) as [|c' r].
  - destruct (Js.isWhiteSpace c); [reflexivity|].
    cbn [oneWord]. now rewrite Hc.
  - cbn [oneWord] in *. now rewrite Hc, IH.
Qed.

Lemma trim_withinReach (size : nat) (s : string) :
  withinReach size s -> withinReach size (Js.trim s).
Proof.
  intros [Hlen | Hword].
  - left. pose proof (trim_length s). lia.
  - right. unfold Js.trim. now apply trimEnd_oneWord, trimStart_oneWord.
Qed.

Lemma consHead_oneWord (c : ascii) (l : list string) :
  Js.isSpace c = false ->
  Forall (fun w => oneWord w = true) l ->
  Forall (fun w => oneWord w = true) (Js.consHead c l).
Proof.
  intros Hc Hl. destruct Hl as [|w l Hw Hl]; simpl.
  - constructor; [|constructor]. simpl. now rewrite Hc.
  - constructor; [|exact Hl]. simpl. now rewrite Hc, Hw.
Qed.

(** The pieces of [split(' ')] have no space. *)
Lemma splitOn_oneWord (s : string) :
  Forall (fun w => oneWord w = true) (Js.splitOn Js.isSpace s).
Proof.
  induction s as [|c s IH]; simpl.
  - repeat constructor.
  - destruct (Js.isSpace c) eqn:Hc.
    + constructor; [reflexivity | exact IH].
    + now apply consHead_oneWord.
Qed.

End Trim.

Section ChunkBound.

Variable size : nat.

Lemma push_within (textChunks : list string) (chunk : string) :
  Forall (withinReach size) textChunks -> withinReach size chunk ->
  Forall (withinReach size) (Js.push textChunks chunk).
Proof.
  intros Hl Hc. apply Forall_app. split; [exact Hl|].
  constructor; [exact Hc | constructor].
Qed.

(** The word loop keeps [subChunk] within [size], or equal to one word. *)
Lemma wordStep_within (st : list string * string) (word : string) :
  Forall (withinReach size) (fst st) ->
  (String.length (snd st) <= size \/ oneWord (snd st) = true) ->
  oneWord word = true ->
  Forall (withinReach size) (fst (wordStep size st word))
  /\ (String.length (snd (wordStep size st word)) <= size
      \/ oneWord (snd (wordStep size st word)) = true).
Proof.
  destruct st as [textChunks subChunk]. unfold wordStep. cbn [fst snd].
  intros Hl Hsub Hword.
  destruct (size <? String.length (subChunk ++ " " ++ word)) eqn:Hlong;
    cbn [fst snd].
  - split; [|now right].
    apply push_within; [exact Hl|]. apply trim_withinReach.
    destruct Hsub as [Hlen | Hone]; [left; lia | now right].
  - split; [exact Hl|]. left. apply Nat.ltb_ge in Hlong. exact Hlong.
Qed.

Lemma wordLoop_within (words : list string) :
  forall st,
    Forall (fun w => oneWord w = true) words ->
    Forall (withinReach size) (fst st) ->
    (String.length (snd st) <= size \/ oneWord (snd st) = true) ->
    Forall (withinReach size) (fst (fold_left (wordStep size) words st))
    /\ (String.length (snd (fold_left (wordStep size) words st)) <= size
        \/ oneWord (snd (fold_left (wordStep size) words st)) = true).
Proof.
  induction words as [|word words IH]; intros st Hwords Hl Hsub;
    cbn [fold_left]; [now split|].
  inversion Hwords as [|? ? Hword Hrest]; subst.
  destruct (wordStep_within st word Hl Hsub Hword) as [Hl' Hsub'].
  now apply IH.
Qed.

Lemma paragraphStep_within (st : list string * string)
    (paragraph : string) :
  Forall (withinReach size) (fst st) -> withinReach size (snd st) ->
  Forall (withinReach size) (fst (paragraphStep size st paragraph))
  /\ withinReach size (snd (paragraphStep size st paragraph)).
Proof.
  destruct st as [textChunks currentChunk]. unfold paragraphStep.
  cbn [fst snd]. intros Hl Hcur.
  destruct (size <? String.length (currentChunk ++ paragraph)) eqn:Hlong.
  - assert (Hflush :
      Forall (withinReach size)
        (fst (if 0 <? String.length currentChunk
              then (Js.push textChunks (Js.trim currentChunk), "")
              else (textChunks, currentChunk)))
      /\ withinReach size
           (snd (if 0 <? String.length currentChunk
                 then (Js.push textChunks (Js.trim currentChunk), "")
                 else (textChunks, currentChunk)))).
    { destruct (0 <? String.length currentChunk); cbn [fst snd].
      - split; [|left; simpl; lia].
        apply push_within; [exact Hl | now apply trim_withinReach].
      - now split. }
    destruct (if 0 <? String.length currentChunk
              then (Js.push textChunks (Js.trim currentChunk), "")
              else (textChunks, currentChunk))
      as [textChunks1 currentChunk1].
    cbn [fst snd] in Hflush. destruct Hflush as [Hl1 Hcur1].
    destruct (size <? String.length paragraph) eqn:Hpar.
    + pose proof (wordLoop_within (Js.splitOn Js.isSpace paragraph)
                    (textChunks1, "") (splitOn_oneWord paragraph) Hl1
                    (or_intror eq_refl)) as [Hl2 Hsub].
      destruct (fold_left (wordStep size) (Js.splitOn Js.isSpace paragraph)
                  (textChunks1, "")) as [textChunks2 subChunk].
      cbn [fst snd] in Hl2, Hsub.
      destruct (0 <? String.length subChunk); cbn [fst snd].
      * split; [exact Hl2|]. apply trim_withinReach.
        destruct Hsub as [Hlen | Hone]; [left; lia | now right].
      * now split.
    + cbn [fst snd]. split; [exact Hl1|]. left.
      apply Nat.ltb_ge in Hpar. lia.
  - cbn [fst snd]. split; [exact Hl|]. left.
    apply Nat.ltb_ge in Hlong.
    rewrite !length_append in *. simpl. lia.
Qed.

Lemma paragraphLoop_within (paragraphs : list string) :
  forall st,
    Forall (withinReach size) (fst st) -> withinReach size (snd st) ->
    Forall (withinReach size) (fst (fold_left (paragraphStep size) paragraphs st))
    /\ withinReach size
         (snd (fold_left (paragraphStep size) paragraphs st)).
Proof.
  induction paragraphs as [|paragraph paragraphs IH]; intros st Hl Hcur;
    cbn [fold_left]; [now split|].
  destruct (paragraphStep_within st paragraph Hl Hcur) as [Hl' Hcur'].
  now apply IH.
Qed.

(** How far the chunker goes beyond its size: a chunk that is no single
    word has at most [size + 2] code units. *)
Lemma chunkText_within (text : string) :
  Forall (withinReach size) (chunkText text size).
Proof.
  unfold chunkText.
  pose proof (paragraphLoop_within (Js.splitBlankLine text) ([], "")
                (Forall_nil _) (or_introl (Nat.le_0_l _))) as [Hl Hcur].
  destruct (fold_left (paragraphStep size) (Js.splitBlankLine text)
              ([], "")) as [textChunks currentChunk].
  cbn [fst snd] in Hl, Hcur.
  destruct (0 <? String.length currentChunk); [|exact Hl].
  apply push_within; [exact Hl | now apply trim_withinReach].
Qed.

End ChunkBound.

(** C1.  The three paragraphs of 599, 599 and 401 code units are cut into
    two chunks, and the second one, which joins two paragraphs of many
    words with a blank line, has 1002 code units: the test that guards the
    accumulation leaves the two separator characters out, so a
    paragraph-accumulated chunk goes beyond [chunkSize].  It never goes
    further than that: for every text and every size, a chunk that is not
    one word has at most two code units more than the size. *)
Theorem accumulated_chunk_exceeds_chunkSize :
  (forall text size, Forall (withinReach size) (chunkText text size))
  /\ textChunksOf threeParagraphs
  = [wordsParagraph 199;
     wordsParagraph 199 ++ Js.blankLine ++ wordsParagraph 133]
  /\ String.length
       (wordsParagraph 199 ++ Js.blankLine ++ wordsParagraph 133) = 1002
  /\ chunkSize = 1000
  /\ List.length
       (Js.splitOn Js.isSpace
          (wordsParagraph 199 ++ Js.blankLine ++ wordsParagraph 133)) = 333.
Proof.
  split; [intros text size; apply chunkText_within|].
  repeat split; vm_compute; reflexivity.
Qed.

(** C5.  The chunker emits the empty string as a chunk: for the empty
    text, for a text of blanks only, and ahead of a first word of
    [chunkSize] letters in a paragraph longer than [chunkSize]. *)
Theorem empty_chunk_emitted :
  textChunksOf "" = [""]
  /\ textChunksOf "   " = [""]
  /\ textChunksOf longFirstWord = [""; Js.repeat "x" 1000; "tail"].
Proof.
  repeat split; vm_compute; reflexivity.
Qed.

(** ** Compliance decision engine: the chapter step *)

Section ChapterStep.

Variable db : Database.
Variable table : Obj.t HsEntry.
Variable hsCode : string.

Hypothesis table_loaded : db_hsCodesData db = Some table.
Hypothesis code_absent : Obj.read table hsCode = Obj.Undefined.
Hypothesis long_enough : 4 <= String.length hsCode.

(** Past the exact key, the table steps are the chapter step. *)
Lemma tableDecision_chapter :
  tableDecision (Code hsCode) db
  = Normal (chapterDecision (Js.substring0 4 hsCode) table
              (matchingCodes hsCode table)).
Proof.
  unfold tableDecision. cbn [codeText atLeastFourLong].
  rewrite table_loaded, code_absent.
  apply Nat.leb_le in long_enough. now rewrite long_enough.
Qed.

(** A code under the four-digit chapter is under the two-digit one, so
    the disjunction of the filter is its second test. *)
Lemma matchingCodes_two_digit :
  matchingCodes hsCode table
  = filter (fun code => Js.startsWith code (Js.substring0 2 hsCode))
      (Obj.keys table).
Proof.
  unfold matchingCodes. apply filter_ext. intros code.
  destruct (Js.startsWith code (Js.substring0 4 hsCode)) eqn:H4; simpl;
    [|reflexivity].
  symmetry.
  apply (startsWith_shorter_prefix 2 4); [repeat constructor | exact H4].
Qed.

Lemma checkHSCodeCompliance_chapter generateContent r :
  chapterDecision (Js.substring0 4 hsCode) table
    (matchingCodes hsCode table) = Some r ->
  checkHSCodeCompliance generateContent (Code hsCode) db = Normal r.
Proof.
  intros H. unfold checkHSCodeCompliance.
  now rewrite tableDecision_chapter, H.
Qed.

Lemma existsb_isFree_policies codes :
  existsb isFree (map (policyOf table) codes) = true
  <-> exists code e, In code codes /\ Obj.get table code = Some e
                     /\ isFree (policy e) = true.
Proof.
  rewrite existsb_exists. split.
  - intros [p [Hin Hfree]]. apply in_map_iff in Hin as [code [Hp Hin]].
    subst p. unfold policyOf in Hfree.
    destruct (Obj.get table code) as [e|] eqn:Hget.
    + now exists code, e.
    + discriminate.
  - intros [code [e [Hin [Hget Hfree]]]]. exists (policy e). split.
    + apply in_map_iff. exists code. split; [|exact Hin].
      unfold policyOf. now rewrite Hget.
    + exact Hfree.
Qed.

End ChapterStep.

Lemma get_of_key {V : Type} (o : Obj.t V) (k : string) :
  In k (Obj.keys o) -> exists v, Obj.get o k = Some v.
Proof.
  induction o as [|[k' v'] o IH]; simpl; [tauto|].
  intros [Heq | Hin].
  - subst k'. rewrite String.eqb_refl. now exists v'.
  - destruct (String.eqb k' k); [now exists v' | now apply IH].
Qed.

(** C2, as amended.  For a code under which the table holds nothing
    ([hsCodesData[hsCode]] is [undefined]) and which has four code units
    or more, the chapter step gathers in one pass the codes
    under the four-digit chapter or the two-digit chapter, which are the
    codes under the two-digit chapter; the decision is taken over all of
    them, and it is the two-tier decision when no code is under the
    four-digit chapter. *)
Theorem chapter_step_gathers_two_digit_chapter
    (db : Database) (table : Obj.t HsEntry) (hsCode : string) :
  db_hsCodesData db = Some table ->
  Obj.read table hsCode = Obj.Undefined ->
  4 <= String.length hsCode ->
  let underTwoDigits :=
    filter (fun code => Js.startsWith code (Js.substring0 2 hsCode))
           (Obj.keys table) in
  matchingCodes hsCode table = underTwoDigits
  /\ tableDecision (Code hsCode) db
     = Normal (chapterDecision (Js.substring0 4 hsCode) table underTwoDigits)
  /\ (filter (fun code => Js.startsWith code (Js.substring0 4 hsCode))
             (Obj.keys table) = [] ->
      tableDecision (Code hsCode) db
      = Normal (chapterDecision (Js.substring0 4 hsCode) table
                  (tieredMatchingCodes hsCode table))).
Proof.
  intros Hdb Habsent Hlen underTwoDigits.
  pose proof (matchingCodes_two_digit table hsCode) as Hcodes.
  pose proof (tableDecision_chapter db table hsCode Hdb Habsent Hlen) as Hdec.
  repeat split.
  - exact Hcodes.
  - now rewrite Hdec, Hcodes.
  - intros Hnone. unfold tieredMatchingCodes. rewrite Hnone.
    now rewrite Hdec, Hcodes.
Qed.

Lemma chapter_step_gathers_two_digit_chapter_witness :
  db_hsCodesData (mkDatabase None (Some otherChapterFree) None)
  = Some otherChapterFree
  /\ Obj.read otherChapterFree "12349999" = Obj.Undefined
  /\ 4 <= String.length "12349999"
  /\ matchingCodes "12349999" otherChapterFree = ["12340000"; "12990000"].
Proof.
  split; [reflexivity|]. split; [reflexivity|].
  split; [exact (proj1 (Nat.leb_le 4 8) eq_refl)|].
  exact (proj1 (chapter_step_gathers_two_digit_chapter
                  (mkDatabase None (Some otherChapterFree) None)
                  otherChapterFree "12349999"
                  eq_refl eq_refl (proj1 (Nat.leb_le 4 8) eq_refl))).
Defined.

(** C2, the claim as stated fails: with ["12340000"] restricted and
    ["12990000"] free, the code ["12349999"] is absent, a code is under its
    four-digit chapter, and yet the decision is "allowed" because of the
    code that is under the two-digit chapter only; the two-tier decision
    would be "not allowed". *)
Lemma two_digit_only_code_decides :
  otherChapterFree
  = [("12340000", mkHsEntry "Seeds" "Restricted");
     ("12990000", mkHsEntry "Straw" "Free")]
  /\ Obj.read otherChapterFree "12349999" = Obj.Undefined
  /\ filter (fun code => Js.startsWith code "1234")
            (Obj.keys otherChapterFree) = ["12340000"]
  /\ tableDecision (Code "12349999")
       (mkDatabase None (Some otherChapterFree) None)
     = Normal
         (Some (mkComplianceResult true true (Some "Free")
                  (Some "Falls under chapter 1234 which has some free categories")
                  None))
  /\ chapterDecision "1234" otherChapterFree
       (tieredMatchingCodes "12349999" otherChapterFree)
     = Some (mkComplianceResult true false (Some "Restricted")
               (Some "Falls under chapter 1234 which has no free categories")
               None).
Proof.
  repeat split; reflexivity.
Qed.

(** C6.  For a code under which the table holds nothing
    ([hsCodesData[hsCode]] is [undefined]) and which has four code units or
    more, the engine gathers every stored code that starts with the
    four-digit chapter or with the two-digit chapter; when the policy of a
    gathered code is Free (in any case of the letters) the result is
    "allowed" with the synthesized chapter description, and when codes are
    gathered and none is Free the result is "not allowed" with the policy
    of the first gathered code.  With ["12345678"] restricted and
    ["12340000"] free, the code ["12349999"] is allowed. *)
Theorem chapter_step_decision :
  (forall (generateContent : string -> option string) (db : Database)
          (table : Obj.t HsEntry) (hsCode : string),
      db_hsCodesData db = Some table ->
      Obj.read table hsCode = Obj.Undefined ->
      4 <= String.length hsCode ->
      let chapter4 := Js.substring0 4 hsCode in
      let chapter2 := Js.substring0 2 hsCode in
      let gathered :=
        filter (fun code => Js.startsWith code chapter4
                            || Js.startsWith code chapter2)
               (Obj.keys table) in
      ((exists code e, In code gathered /\ Obj.get table code = Some e
                       /\ isFree (policy e) = true) ->
       checkHSCodeCompliance generateContent (Code hsCode) db
       = Normal
           (mkComplianceResult true true (Some "Free")
              (Some ("Falls under chapter " ++ chapter4
                     ++ " which has some free categories")) None))
      /\ (forall first rest,
             gathered = first :: rest ->
             (forall code e, In code gathered ->
                             Obj.get table code = Some e ->
                             isFree (policy e) = false) ->
             exists e,
               Obj.get table first = Some e
               /\ checkHSCodeCompliance generateContent (Code hsCode) db
                  = Normal
                      (mkComplianceResult true false (Some (policy e))
                         (Some ("Falls under chapter " ++ chapter4
                                ++ " which has no free categories")) None)))
  /\ (forall generateContent : string -> option string,
         restrictedAndFree
         = [("12340000", mkHsEntry "Seeds" "Free");
            ("12345678", mkHsEntry "Oil seeds" "Restricted")]
         /\ checkHSCodeCompliance generateContent (Code "12349999")
              (mkDatabase None (Some restrictedAndFree) None)
            = Normal
                (mkComplianceResult true true (Some "Free")
                   (Some "Falls under chapter 1234 which has some free categories")
                   None)).
Proof.
  split.
  - intros generateContent db table hsCode Hdb Habsent Hlen
           chapter4 chapter2 gathered.
    assert (Hg : gathered = matchingCodes hsCode table) by reflexivity.
    split.
    + intros Hfree.
      apply (checkHSCodeCompliance_chapter db table hsCode Hdb Habsent Hlen).
      rewrite <- Hg. unfold chapterDecision.
      apply (existsb_isFree_policies table) in Hfree.
      destruct gathered as [|first rest]; [discriminate|].
      now rewrite Hfree.
    + intros first rest Heq Hnone.
      assert (Hin : In first (Obj.keys table)).
      { assert (H : In first gathered) by (rewrite Heq; now left).
        apply filter_In in H. tauto. }
      destruct (get_of_key table first Hin) as [e He].
      exists e. split; [exact He|].
      apply (checkHSCodeCompliance_chapter db table hsCode Hdb Habsent Hlen).
      rewrite <- Hg. unfold chapterDecision.
      destruct (existsb isFree (map (policyOf table) gathered)) eqn:Hex.
      * apply (existsb_isFree_policies table) in Hex
          as [code [e' [Hc [Hget Hfree]]]].
        rewrite (Hnone code e' Hc Hget) in Hfree. discriminate.
      * rewrite Heq. simpl. unfold policyOf. now rewrite He.
  - intros generateContent. split; reflexivity.
Qed.

Lemma chapter_step_decision_witness :
  db_hsCodesData (mkDatabase None (Some restrictedAndFree) None)
  = Some restrictedAndFree
  /\ Obj.read restrictedAndFree "12349999" = Obj.Undefined
  /\ 4 <= String.length "12349999"
  /\ (exists code e,
         In code ["12340000"; "12345678"]
         /\ Obj.get restrictedAndFree code = Some e
         /\ isFree (policy e) = true)
  /\ checkHSCodeCompliance (fun _ => None) (Code "12349999")
       (mkDatabase None (Some restrictedAndFree) None)
     = Normal
         (mkComplianceResult true true (Some "Free")
            (Some "Falls under chapter 1234 which has some free categories")
            None).
Proof.
  assert (Hfree : exists code e,
             In code ["12340000"; "12345678"]
             /\ Obj.get restrictedAndFree code = Some e
             /\ isFree (policy e) = true).
  { exists "12340000", (mkHsEntry "Seeds" "Free").
    repeat split; [now left | reflexivity..]. }
  split; [reflexivity|]. split; [reflexivity|].
  split; [exact (proj1 (Nat.leb_le 4 8) eq_refl)|].
  split; [exact Hfree|].
  exact (proj1 (proj1 chapter_step_decision (fun _ => None)
                  (mkDatabase None (Some restrictedAndFree) None)
                  restrictedAndFree "12349999"
                  eq_refl eq_refl (proj1 (Nat.leb_le 4 8) eq_refl))
           Hfree).
Defined.

(** ** Code resolver *)

Section Lookup.

Context {V : Type}.

Lemma find_first (f : string -> bool) (before after : list string)
    (k : string) :
  (forall key, In key before -> f key = false) ->
  f k = true ->
  find f (before ++ k :: after)%list = Some k.
Proof.
  intros Hbefore Hk. induction before as [|b before IH]; simpl.
  - now rewrite Hk.
  - rewrite (Hbefore b) by now left.
    apply IH. intros key Hin. apply Hbefore. now right.
Qed.

Lemma find_none (f : string -> bool) (l : list string) :
  (forall key, In key l -> f key = false) -> find f l = None.
Proof.
  intros H. induction l as [|b l IH]; simpl; [reflexivity|].
  rewrite (H b) by now left.
  apply IH. intros key Hin. apply H. now right.
Qed.

Lemma get_first (before after : Obj.t V) (k : string) (v : V) :
  ~ In k (Obj.keys before) ->
  Obj.get (before ++ (k, v) :: after)%list k = Some v.
Proof.
  intros Hnot. induction before as [|[b w] before IH]; simpl.
  - now rewrite String.eqb_refl.
  - destruct (String.eqb b k) eqn:Hb.
    + apply String.eqb_eq in Hb. subst b. exfalso. apply Hnot. now left.
    + apply IH. intros Hin. apply Hnot. now right.
Qed.

Lemma get_none (o : Obj.t V) (k : string) :
  ~ In k (Obj.keys o) -> Obj.get o k = None.
Proof.
  intros Hnot. induction o as [|[b w] o IH]; simpl; [reflexivity|].
  destruct (String.eqb b k) eqn:Hb.
  - apply String.eqb_eq in Hb. subst b. exfalso. apply Hnot. now left.
  - apply IH. intros Hin. apply Hnot. now right.
Qed.

End Lookup.

Lemma startsWith_refl (s : string) : Js.startsWith s s = true.
Proof.
  induction s as [|c s IH]; simpl; [reflexivity|].
  now rewrite Ascii.eqb_refl.
Qed.

Lemma includes_refl (s : string) : Js.includes s s = true.
Proof.
  destruct s; simpl; [reflexivity|].
  now rewrite Ascii.eqb_refl, startsWith_refl.
Qed.

(** C7, as amended.  An item name that normalizes to ["cotton shirts"] is
    resolved to the code of the entry ["shirts"] by the tier of indexed
    phrases longer than 5 code units contained in the name, provided that
    no indexed phrase contains ["cotton shirts"] (then there is no exact
    entry either) and no phrase indexed before ["shirts"] is longer than 5
    code units and contained in ["cotton shirts"]. *)
Theorem cotton_shirts_resolves_by_contained_phrase
    (itemName : string) (before after : Obj.t string) (code : string) :
  Js.trim (Js.toLowerCase itemName) = "cotton shirts" ->
  let index := (before ++ ("shirts", code) :: after)%list in
  (forall key, In key (Obj.keys index) ->
     Js.includes key "cotton shirts" = false) ->
  (forall key, In key (Obj.keys before) ->
     Js.includes "cotton shirts" key && (5 <? String.length key) = false) ->
  Obj.get index "cotton shirts" = None
  /\ String.length "shirts" = 6
  /\ find (fun key => Js.includes "cotton shirts" key
                      && (5 <? String.length key)) (Obj.keys index)
     = Some "shirts"
  /\ findHSCodeByItemName itemName (Some index) = Normal (Some (Code code)).
Proof.
  intros Hname index Hcontains Hbefore.
  assert (Hexact : Obj.get index "cotton shirts" = None).
  { apply get_none. intros Hin. apply Hcontains in Hin.
    rewrite includes_refl in Hin. discriminate. }
  assert (Hkeys : Obj.keys index
                  = (Obj.keys before ++ "shirts" :: Obj.keys after)%list).
  { unfold index, Obj.keys. now rewrite map_app. }
  assert (Htier3 : find (fun key => Js.includes "cotton shirts" key
                                    && (5 <? String.length key))
                        (Obj.keys index) = Some "shirts").
  { rewrite Hkeys. apply find_first; [exact Hbefore | reflexivity]. }
  assert (Hshirts : Obj.get index "shirts" = Some code).
  { apply get_first. intros Hin. apply Hbefore in Hin. discriminate. }
  repeat split; [exact Hexact | exact Htier3 |].
  unfold findHSCodeByItemName. rewrite Hname.
  unfold Obj.read. rewrite Hexact.
  change (Obj.inherited "cotton shirts") with false. cbn [truthyRead].
  rewrite (find_none _ _ Hcontains). cbn [whenTruthy].
  rewrite Htier3. cbn [whenTruthy].
  change (Js.truthy "shirts") with true. cbv iota. now rewrite Hshirts.
Qed.

Lemma cotton_shirts_resolves_by_contained_phrase_witness :
  Js.trim (Js.toLowerCase " Cotton Shirts") = "cotton shirts"
  /\ findHSCodeByItemName " Cotton Shirts"
       (Some [("socks", "61150000"); ("shirts", "62050000");
              ("cotton", "52010000")])
     = Normal (Some (Code "62050000")).
Proof.
  split; [reflexivity|].
  refine (proj2 (proj2 (proj2 (cotton_shirts_resolves_by_contained_phrase
                          " Cotton Shirts" [("socks", "61150000")]
                          [("cotton", "52010000")] "62050000"
                          eq_refl _ _)))).
  - intros key [H | [H | [H | []]]]; subst key; reflexivity.
  - intros key [H | []]; subst key; reflexivity.
Defined.

(** C7, the claim as stated fails: the index below has no entry for
    ["cotton shirts"] and has the entry ["shirts"], and the name is
    resolved to the code of ["cotton"], the first indexed phrase longer
    than 5 code units that the name contains. *)
Lemma earlier_phrase_wins :
  cottonAndShirts = [("cotton", "52010000"); ("shirts", "62050000")]
  /\ Obj.get cottonAndShirts "cotton shirts" = None
  /\ Obj.get cottonAndShirts "shirts" = Some "62050000"
  /\ findHSCodeByItemName "cotton shirts" (Some cottonAndShirts)
     = Normal (Some (Code "52010000")).
Proof.
  repeat split; reflexivity.
Qed.

(** ** The description route and the orchestrator *)

(** C9.  When the description route resolves a description by the exact
    match, its answer holds the field [hsCode] alone, without [status], and
    step 1 of the orchestrator, which wants [status] and [hsCode] truthy,
    rejects the item as "HS Code could not be determined"; when the route
    resolves it by the partial match, the answer has [status: true] and
    step 1 takes the code. *)
Theorem exact_match_is_rejected_by_orchestrator
    (db : Database) (item : Item) (name code : string) :
  truthyOpt (hsCode item) = false ->
  itemName item = Some name ->
  Js.truthy name = true ->
  let table :=
    match db_hsCodesData db with Some o => o | None => Obj.empty end in
  let normalized := Js.trim (Js.toLowerCase name) in
  (whenTruthy (exactDescriptionMatch table normalized) = Some code ->
   findByDescription db (Some name) = (200, [("hsCode", JStr code)])
   /\ Obj.get (snd (findByDescription db (Some name))) "status" = None
   /\ resolveItemCodeWith db item
      = Rejected
          (newItemReport item
           ++ [("status", JBool false); ("exportStatus", JBool false);
               ("reason", JStr "HS Code could not be determined")])%list)
  /\ (whenTruthy (exactDescriptionMatch table normalized) = None ->
      whenTruthy (partialDescriptionMatch table normalized) = Some code ->
      findByDescription db (Some name)
      = (200, [("status", JBool true); ("hsCode", JStr code);
               ("note", JStr "Found via partial match")])
      /\ resolveItemCodeWith db item
         = Resolved (JStr code)
             (newItemReport item
              ++ [("hsCode", JStr code);
                  ("hsCodeNote", JStr "Found via partial match")])%list).
Proof.
  intros Hno Hname Htruthy table normalized.
  assert (Htruthy_code : forall k, whenTruthy k = Some code ->
                                   Js.truthy code = true).
  { intros [k|]; simpl; [|discriminate].
    destruct (Js.truthy k) eqn:Hk; [|discriminate].
    intros H. injection H as H. now subst k. }
  split.
  - intros Hexact.
    assert (Hroute : findByDescription db (Some name)
                     = (200, [("hsCode", JStr code)])).
    { unfold findByDescription. simpl truthyOpt. rewrite Htruthy.
      simpl negb. cbv iota. fold table. simpl valueOr. fold normalized.
      now rewrite Hexact. }
    split; [exact Hroute|]. split; [now rewrite Hroute|].
    unfold resolveItemCodeWith, resolveItemCode.
    rewrite Hno, Hname, Hroute. unfold newItemReport. rewrite Hname.
    reflexivity.
  - intros Hexact Hpartial.
    assert (Hroute : findByDescription db (Some name)
                     = (200, [("status", JBool true); ("hsCode", JStr code);
                              ("note", JStr "Found via partial match")])).
    { unfold findByDescription. simpl truthyOpt. rewrite Htruthy.
      simpl negb. cbv iota. fold table. simpl valueOr. fold normalized.
      now rewrite Hexact, Hpartial. }
    split; [exact Hroute|].
    unfold resolveItemCodeWith, resolveItemCode.
    rewrite Hno, Hname, Hroute. unfold newItemReport. rewrite Hname.
    simpl. rewrite (Htruthy_code _ Hpartial). reflexivity.
Qed.

Lemma exact_match_is_rejected_by_orchestrator_witness :
  findByDescription (mkDatabase None (Some telephoneTable) None)
    (Some "Telephone Sets")
  = (200, [("hsCode", JStr "85171200")])
  /\ resolveItemCodeWith (mkDatabase None (Some telephoneTable) None)
       (mkItem (Some "Telephone Sets") None None None None)
     = Rejected
         [("itemName", JStr "Telephone Sets");
          ("itemManufacturer", JStr "Not specified");
          ("material", JStr "Not specified");
          ("itemWeight", JStr "Not specified");
          ("status", JBool false); ("exportStatus", JBool false);
          ("reason", JStr "HS Code could not be determined")]
  /\ resolveItemCodeWith (mkDatabase None (Some telephoneTable) None)
       (mkItem (Some "cotton shirts") None None None None)
     = Resolved (JStr "62050000")
         [("itemName", JStr "cotton shirts");
          ("itemManufacturer", JStr "Not specified");
          ("material", JStr "Not specified");
          ("itemWeight", JStr "Not specified");
          ("hsCode", JStr "62050000");
          ("hsCodeNote", JStr "Found via partial match")].
Proof.
  pose proof (proj1 (exact_match_is_rejected_by_orchestrator
                       (mkDatabase None (Some telephoneTable) None)
                       (mkItem (Some "Telephone Sets") None None None None)
                       "Telephone Sets" "85171200" eq_refl eq_refl eq_refl)
                eq_refl) as [Hroute [_ Hstep]].
  pose proof (proj2 (exact_match_is_rejected_by_orchestrator
                       (mkDatabase None (Some telephoneTable) None)
                       (mkItem (Some "cotton shirts") None None None None)
                       "cotton shirts" "62050000" eq_refl eq_refl eq_refl)
                eq_refl eq_refl) as [_ Hpartial].
  split; [exact Hroute|]. split; [exact Hstep | exact Hpartial].
Defined.

(** ** The process before its first ingestion *)

Lemma serve_without_ingestion (p : Process) (r : Request) :
  ingests r = false -> fst (serve p r) = p.
Proof.
  destruct r as [generateEmbedding files | generateContent req | d];
    simpl; [|reflexivity..].
  destruct files as [|file files]; [reflexivity|].
  unfold uploadRulesPdf.
  destruct (String.eqb (mimetype file) "application/pdf"); simpl;
    [|reflexivity].
  destruct (pdfText file); [discriminate | reflexivity].
Qed.

Lemma serveAll_without_ingestion (rs : list Request) :
  forall p, forallb (fun r => negb (ingests r)) rs = true ->
            serveAll p rs = p.
Proof.
  induction rs as [|r rs IH]; intros p H; [reflexivity|].
  simpl in H. apply andb_true_iff in H as [Hr Hrs].
  apply negb_true_iff in Hr.
  unfold serveAll in *. simpl.
  rewrite (serve_without_ingestion p r Hr). now apply IH.
Qed.

(** C10.  In a process that has served no request that ingests a
    document, whatever the two files on disk hold, the field [itemToHsMap]
    of the in-memory database is [undefined]: only the combined snapshot is
    read at the start.  A [check-export-compliance] request without
    [hsCode] and with an item name then throws in [findHSCodeByItemName]
    and is answered with status 500, not with the "could not find" answer
    of an unresolved name. *)
Theorem item_name_lookup_before_ingestion
    (fs : FileSystem) (rs : list Request)
    (generateContent : string -> option string)
    (req : ExportRequest) (name : string) :
  forallb (fun r => negb (ingests r)) rs = true ->
  truthyOpt (req_hsCode req) = false ->
  req_itemName req = Some name ->
  Js.truthy name = true ->
  let db := embeddingsDatabase (serveAll (startup fs) rs) in
  db_itemToHsMap db = None
  /\ findHSCodeByItemName name (db_itemToHsMap db) = Thrown typeError
  /\ checkExportCompliance generateContent db req
     = (500, [("status", JBool false);
              ("error",
               JStr "An error occurred while checking export compliance")]).
Proof.
  intros Hrs Hcode Hname Htruthy db.
  assert (Hmap : db_itemToHsMap db = None).
  { unfold db. rewrite (serveAll_without_ingestion rs _ Hrs).
    unfold startup. simpl. now destruct (embeddingsPath fs). }
  split; [exact Hmap|]. split.
  - now rewrite Hmap.
  - unfold checkExportCompliance, checkExportComplianceTry.
    rewrite Hcode, Hname, Hmap. simpl truthyOpt. rewrite Htruthy.
    reflexivity.
Qed.

Lemma item_name_lookup_before_ingestion_witness :
  checkExportCompliance (fun _ => None)
    (embeddingsDatabase
       (serveAll
          (startup
             (mkFileSystem
                (Some (mkEmbeddingsFile (Some []) (Some telephoneTable)))
                (Some [("shirts", "62050000")])))
          [FindByDescription (Some "shirts");
           UploadRulesPdf (fun _ _ => None) [mkUpload "text/plain" (Thrown "not read")]]))
    (mkExportRequest None (Some "shirts") None)
  = (500, [("status", JBool false);
           ("error",
            JStr "An error occurred while checking export compliance")]).
Proof.
  exact (proj2 (proj2 (item_name_lookup_before_ingestion
                         (mkFileSystem
                            (Some (mkEmbeddingsFile (Some [])
                                     (Some telephoneTable)))
                            (Some [("shirts", "62050000")]))
                         [FindByDescription (Some "shirts");
                          UploadRulesPdf (fun _ _ => None)
                            [mkUpload "text/plain" (Thrown "not read")]]
                         (fun _ => None)
                         (mkExportRequest None (Some "shirts") None)
                         "shirts" eq_refl eq_refl eq_refl eq_refl))).
Defined.

(** ** Chunk ids across merges *)

Section ChunkIds.

Variable answers : nat -> string -> option (list Num.t).
Variable offset : nat.

Lemma embedFrom_sound (textChunks : list string) :
  forall index c,
    In c (successful (embedFrom answers offset index textChunks)) ->
    exists i,
      nth_error textChunks i = Some (content c)
      /\ answers (index + i) (content c) = Some (embedding c)
      /\ id c = index + i + offset.
Proof.
  induction textChunks as [|chunk rest IH]; intros index c Hin;
    [destruct Hin|].
  simpl in Hin.
  assert (Hrest : In c (successful (embedFrom answers offset (S index) rest))
                  -> exists i,
                    nth_error (chunk :: rest) i = Some (content c)
                    /\ answers (index + i) (content c) = Some (embedding c)
                    /\ id c = index + i + offset).
  { intros H. destruct (IH (S index) c H) as [i [Hn [Ha Hid]]].
    exists (S i). simpl.
    replace (index + S i) with (S index + i) by lia. auto. }
  destruct (answers index chunk) as [e|] eqn:He; [|now apply Hrest].
  destruct Hin as [Hc | Hin]; [|now apply Hrest].
  subst c. exists 0. simpl. rewrite Nat.add_0_r. auto.
Qed.

Lemma embedFrom_ids_bounded (textChunks : list string) :
  forall index,
    Forall (fun n => index + offset <= n)
      (map id (successful (embedFrom answers offset index textChunks))).
Proof.
  induction textChunks as [|chunk rest IH]; intros index; simpl;
    [constructor|].
  assert (Hrest : Forall (fun n => index + offset <= n)
                    (map id (successful
                               (embedFrom answers offset (S index) rest)))).
  { eapply Forall_impl; [|apply (IH (S index))]. simpl. intros. lia. }
  destruct (answers index chunk); [|exact Hrest].
  simpl. constructor; [lia | exact Hrest].
Qed.

Lemma embedFrom_ids_increasing (textChunks : list string) :
  forall index,
    StronglySorted lt
      (map id (successful (embedFrom answers offset index textChunks))).
Proof.
  induction textChunks as [|chunk rest IH]; intros index; simpl;
    [constructor|].
  destruct (answers index chunk); [|apply IH].
  simpl. constructor; [apply IH|].
  eapply Forall_impl; [|apply (embedFrom_ids_bounded rest (S index))].
  simpl. intros. lia.
Qed.

Lemma embedFrom_ids_complete (textChunks : list string) :
  forall index,
    answersFrom answers index textChunks = true ->
    map id (successful (embedFrom answers offset index textChunks))
    = seq (index + offset) (List.length textChunks).
Proof.
  induction textChunks as [|chunk rest IH]; intros index H; simpl in *;
    [reflexivity|].
  destruct (answers index chunk); [|discriminate].
  simpl. f_equal. now apply (IH (S index)).
Qed.

End ChunkIds.

Lemma ingestAll_snoc (earlier : list Ingestion) (last : Ingestion) :
  ingestAll (earlier ++ [last])%list
  = mergeIngestion (ingestAll earlier) last.
Proof.
  unfold ingestAll. now rewrite fold_left_app.
Qed.

Lemma existingCount_length (stored : option (list Chunk)) :
  existingCount stored = List.length (existingChunks stored).
Proof.
  now destruct stored.
Qed.

(** When no embedding failed, the stored ids are the positions. *)
Lemma ingestAll_ids_positions (earlier : list Ingestion) :
  forallb allEmbedded earlier = true ->
  map id (existingChunks (ingestAll earlier))
  = seq 0 (existingCount (ingestAll earlier)).
Proof.
  induction earlier as [|g earlier IH] using rev_ind; intros H;
    [reflexivity|].
  rewrite forallb_app in H. apply andb_true_iff in H as [Hearlier Hg].
  simpl in Hg. rewrite andb_true_r in Hg.
  rewrite ingestAll_snoc. unfold mergeIngestion, mergedChunks.
  cbn [existingChunks existingCount].
  assert (Hnew : map id (successfulChunks (workerAnswers g)
                           (ingestAll earlier) (documentChunks g))
                 = seq (existingCount (ingestAll earlier))
                       (List.length (documentChunks g))).
  { unfold successfulChunks.
    now rewrite (embedFrom_ids_complete _ _ _ 0 Hg). }
  assert (Hlen : List.length (successfulChunks (workerAnswers g)
                                (ingestAll earlier) (documentChunks g))
                 = List.length (documentChunks g)).
  { now rewrite <- (length_map id), Hnew, length_seq. }
  rewrite map_app, List.length_app, seq_app, (IH Hearlier), Hnew, Hlen.
  now rewrite <- existingCount_length.
Qed.

Lemma StronglySorted_lt_app (l1 l2 : list nat) (bound : nat) :
  StronglySorted lt l1 -> StronglySorted lt l2 ->
  Forall (fun n => n < bound) l1 -> Forall (fun n => bound <= n) l2 ->
  StronglySorted lt (l1 ++ l2)%list.
Proof.
  intros H1 H2 Hlow Hhigh.
  induction H1 as [|a l1 Hsorted IH Ha]; simpl; [exact H2|].
  inversion Hlow as [|? ? Hbound Hlow']; subst.
  constructor; [now apply IH|].
  apply Forall_app. split; [exact Ha|].
  eapply Forall_impl; [|exact Hhigh]. simpl. intros. lia.
Qed.

Lemma seq_sorted (len start : nat) : StronglySorted lt (seq start len).
Proof.
  revert start. induction len as [|len IH]; intros start; simpl;
    constructor; [apply IH|].
  apply Forall_forall. intros n Hin. apply in_seq in Hin. lia.
Qed.

(** C4, as amended.  In every sequence of merges, each new chunk's id is
    its index in that ingestion plus the number of chunks stored before it,
    and the ids of the chunks one merge adds increase strictly; the ids of
    the whole merged list increase strictly when no embedding failed in the
    earlier merges (failures in the last one only leave gaps). *)
Theorem ids_after_merges (earlier : list Ingestion) (last : Ingestion) :
  let stored := ingestAll earlier in
  let new :=
    successfulChunks (workerAnswers last) stored (documentChunks last) in
  ingestAll (earlier ++ [last])%list
  = Some (existingChunks stored ++ new)%list
  /\ (forall c, In c new ->
        exists index,
          nth_error (documentChunks last) index = Some (content c)
          /\ workerAnswers last index (content c) = Some (embedding c)
          /\ id c = index + existingCount stored)
  /\ StronglySorted lt (map id new)
  /\ (forallb allEmbedded earlier = true ->
      StronglySorted lt (map id (existingChunks stored ++ new)%list)).
Proof.
  intros stored new. split; [apply ingestAll_snoc|]. split; [|split].
  - intros c Hin.
    destruct (embedFrom_sound _ _ _ 0 c Hin) as [i [Hn [Ha Hid]]].
    exists i. auto.
  - apply embedFrom_ids_increasing.
  - intros Hclean. rewrite map_app.
    apply (StronglySorted_lt_app _ _ (existingCount stored)).
    + unfold stored. rewrite (ingestAll_ids_positions earlier Hclean).
      apply seq_sorted.
    + apply embedFrom_ids_increasing.
    + unfold stored. rewrite (ingestAll_ids_positions earlier Hclean).
      apply Forall_forall. intros n Hin. apply in_seq in Hin. lia.
    + apply (embedFrom_ids_bounded _ _ _ 0).
Qed.

Lemma ids_after_merges_witness :
  forallb allEmbedded [mkIngestion (failsBelow 0) ["a"; "b"]] = true
  /\ map id
       (existingChunks
          (ingestAll [mkIngestion (failsBelow 0) ["a"; "b"];
                      mkIngestion (failsBelow 1) ["c"; "d"; "e"]]))
     = [0; 1; 3; 4]
  /\ StronglySorted lt [0; 1; 3; 4].
Proof.
  split; [reflexivity|]. split; [reflexivity|].
  exact (proj2 (proj2 (proj2 (ids_after_merges
                                [mkIngestion (failsBelow 0) ["a"; "b"]]
                                (mkIngestion (failsBelow 1) ["c"; "d"; "e"]))))
           eq_refl).
Defined.

(** C4, the claim as stated fails: a first ingestion of three chunks loses
    the embeddings of the first two and stores the third with id 2; a
    second ingestion of one chunk then gives it the id 0 + 1, and the
    merged list has the ids 2, 1. *)
Lemma ids_decrease_after_lossy_merge :
  ingestAll [mkIngestion (failsBelow 2) ["a"; "b"; "c"]]
  = Some [mkChunk 2 "c" [one]]
  /\ ingestAll lossyThenClean
     = Some [mkChunk 2 "c" [one]; mkChunk 1 "d" [one]]
  /\ map id (existingChunks (ingestAll lossyThenClean)) = [2; 1].
Proof.
  repeat split; reflexivity.
Qed.

(** ** Similarity ranker *)

Section NumFacts.

Lemma mul_zeroOrNaN_r (x b : Num.t) :
  zeroOrNaN b -> zeroOrNaN (Num.mul x b).
Proof.
  destruct x, b; simpl; tauto.
Qed.

Lemma mul_zeroOrNaN (a b : Num.t) :
  zeroOrNaN a -> zeroOrNaN b -> zeroOrNaN (Num.mul a b).
Proof.
  intros _. apply mul_zeroOrNaN_r.
Qed.

Lemma add_zeroOrNaN (a b : Num.t) :
  zeroOrNaN a -> zeroOrNaN b -> zeroOrNaN (Num.add a b).
Proof.
  destruct a as [[|]| | |], b as [[|]| | |]; simpl; tauto.
Qed.

Lemma sqrt_zeroOrNaN (a : Num.t) : zeroOrNaN a -> zeroOrNaN (Num.sqrt a).
Proof.
  destruct a; simpl; tauto.
Qed.

Lemma div_zeroOrNaN (a b : Num.t) :
  zeroOrNaN a -> zeroOrNaN b -> Num.isNaN (Num.div a b) = true.
Proof.
  destruct a, b; simpl; tauto.
Qed.

Lemma sub_NaN_l (x y : Num.t) :
  Num.isNaN x = true -> Num.isNaN (Num.sub x y) = true.
Proof.
  destruct x; simpl; try discriminate. reflexivity.
Qed.

Lemma sub_NaN_r (x y : Num.t) :
  Num.isNaN y = true -> Num.isNaN (Num.sub x y) = true.
Proof.
  destruct y; simpl; try discriminate. now destruct x.
Qed.

Lemma sub_diag (x : Num.t) : zeroOrNaN (Num.sub x x).
Proof.
  destruct x as [[|]|[|]| |s m e]; simpl; try tauto.
  unfold Num.sub, SFsub. rewrite Z.sub_diag. simpl. tauto.
Qed.

Lemma zeroOrNaN_of_NaN (x : Num.t) : Num.isNaN x = true -> zeroOrNaN x.
Proof.
  destruct x; simpl; try discriminate. tauto.
Qed.

(** A comparator result that is a zero or NaN reads as "equal". *)
Lemma zeroOrNaN_equivalent {A : Type} (comparefn : A -> A -> Num.t)
    (x y : A) :
  zeroOrNaN (comparefn x y) ->
  Num.negative (SortCompare comparefn x y) = false
  /\ Num.positive (SortCompare comparefn x y) = false.
Proof.
  unfold SortCompare. destruct (comparefn x y) as [[|]| | |]; simpl;
    try tauto; intros _; split; reflexivity.
Qed.

End NumFacts.

Section ZeroVector.

Lemma hd_zeroOrNaN (vecB : list Num.t) :
  Forall isZero vecB -> zeroOrNaN (hd Num.NaN vecB).
Proof.
  intros H. destruct H as [|b vecB Hb _]; simpl; [tauto|].
  destruct b; simpl in *; tauto.
Qed.

Lemma tl_zero (vecB : list Num.t) :
  Forall isZero vecB -> Forall isZero (tl vecB).
Proof.
  intros H. destruct H; simpl; [constructor | assumption].
Qed.

Lemma cosineLoop_zero_vector (vecA : list Num.t) :
  forall vecB dotProduct normA normB,
    Forall isZero vecB -> zeroOrNaN dotProduct -> zeroOrNaN normB ->
    let '(dotProduct', _, normB') :=
      cosineLoop vecA vecB (dotProduct, normA, normB) in
    zeroOrNaN dotProduct' /\ zeroOrNaN normB'.
Proof.
  induction vecA as [|a vecA IH]; intros vecB dotProduct normA normB
                                        Hzero Hdot Hnorm; simpl.
  - tauto.
  - apply IH.
    + now apply tl_zero.
    + apply add_zeroOrNaN; [exact Hdot|].
      apply mul_zeroOrNaN_r. now apply hd_zeroOrNaN.
    + apply add_zeroOrNaN; [exact Hnorm|].
      apply mul_zeroOrNaN_r. now apply hd_zeroOrNaN.
Qed.

(** Against a stored vector of zeros (or an empty one) the similarity is
    NaN, whatever the query vector. *)
Lemma cosineSimilarity_zero_vector (vecA vecB : list Num.t) :
  Forall isZero vecB -> Num.isNaN (cosineSimilarity vecA vecB) = true.
Proof.
  intros Hzero. unfold cosineSimilarity.
  pose proof (cosineLoop_zero_vector vecA vecB Num.zero Num.zero Num.zero
                Hzero I I) as H.
  destruct (cosineLoop vecA vecB (Num.zero, Num.zero, Num.zero))
    as [[dotProduct normA] normB].
  destruct H as [Hdot Hnorm].
  apply div_zeroOrNaN; [exact Hdot|].
  apply mul_zeroOrNaN_r. now apply sqrt_zeroOrNaN.
Qed.

End ZeroVector.

Section InsertionSort.

Context {A : Type}.
Variable comparefn : A -> A -> Num.t.

Lemma insertSorted_permutation (x : A) (l : list A) :
  Permutation (x :: l) (insertSorted comparefn x l).
Proof.
  induction l as [|y l IH]; simpl; [apply Permutation_refl|].
  destruct (Num.negative (SortCompare comparefn x y)).
  - apply Permutation_refl.
  - apply perm_trans with (y :: x :: l); [apply perm_swap|].
    now apply perm_skip.
Qed.

Lemma insertSorted_last (x : A) (l : list A) :
  (forall y, In y l -> Num.negative (SortCompare comparefn x y) = false) ->
  insertSorted comparefn x l = (l ++ [x])%list.
Proof.
  intros H. induction l as [|y l IH]; simpl; [reflexivity|].
  rewrite (H y) by now left.
  f_equal. apply IH. intros z Hz. apply H. now right.
Qed.

Lemma insertion_permutation (l : list A) :
  forall sorted,
    Permutation (sorted ++ l)
      (fold_left (fun s x => insertSorted comparefn x s) l sorted).
Proof.
  induction l as [|x l IH]; intros sorted; simpl.
  - rewrite app_nil_r. apply Permutation_refl.
  - apply perm_trans with (insertSorted comparefn x sorted ++ l)%list;
      [|apply IH].
    apply perm_trans with ((x :: sorted) ++ l)%list.
    + apply Permutation_sym, Permutation_middle.
    + apply Permutation_app_tail, insertSorted_permutation.
Qed.

Lemma insertion_stable (l : list A) :
  forall sorted,
    allEquivalent comparefn (sorted ++ l) ->
    fold_left (fun s x => insertSorted comparefn x s) l sorted
    = (sorted ++ l)%list.
Proof.
  induction l as [|x l IH]; intros sorted H; simpl.
  - now rewrite app_nil_r.
  - rewrite insertSorted_last.
    + rewrite IH; rewrite <- app_assoc; [reflexivity | exact H].
    + intros y Hy. apply H; apply in_or_app.
      * right. now left.
      * now left.
Qed.

End InsertionSort.

Lemma insertionSort_conforming : Conforming insertionSort.
Proof.
  split; intros A comparefn l; unfold insertionSort.
  - apply (insertion_permutation comparefn l []).
  - intros H. apply (insertion_stable comparefn l []). exact H.
Qed.

(** Two scored chunks of which one has a NaN similarity compare as equal
    in every pairing. *)
Lemma pair_with_NaN_equivalent (x y : Scored) :
  Num.isNaN (similarity x) = true ->
  allEquivalent bySimilarityDesc [x; y]
  /\ allEquivalent bySimilarityDesc [y; x].
Proof.
  intros Hx.
  assert (H : forall a b, (a = x \/ a = y) -> (b = x \/ b = y) ->
                zeroOrNaN (bySimilarityDesc a b)).
  { intros a b Ha Hb. unfold bySimilarityDesc.
    destruct Hb as [Hb | Hb]; subst b.
    - apply zeroOrNaN_of_NaN. now apply sub_NaN_l.
    - destruct Ha as [Ha | Ha]; subst a.
      + apply zeroOrNaN_of_NaN. now apply sub_NaN_r.
      + apply sub_diag. }
  split; intros a b Ha Hb; apply zeroOrNaN_equivalent; apply H;
    simpl in Ha, Hb; intuition.
Qed.

(** C3, as amended.  Under every implementation of [sort] that meets the
    language's promises, a stored chunk whose vector is all zeros (or
    empty), so that its similarity is NaN, is not sent to the end: its
    comparisons read as "equal", and in a store of two chunks it keeps its
    stored place, first when it was stored first.  Ranking returns a result
    for every list of stored chunks: a NaN never makes it throw. *)
Theorem undefined_similarity_keeps_stored_place (sort : Sorter)
    (embedContent : string -> option (list Num.t))
    (query : string) (queryEmbedding : list Num.t) (a b : Chunk) :
  Conforming sort ->
  embedContent query = Some queryEmbedding ->
  Forall isZero (embedding a) ->
  Num.isNaN (cosineSimilarity queryEmbedding (embedding a)) = true
  /\ topResults sort queryEmbedding [a; b]
     = similarityScores queryEmbedding [a; b]
  /\ topResults sort queryEmbedding [b; a]
     = similarityScores queryEmbedding [b; a]
  /\ findRelevantContent sort embedContent query
       (mkDatabase (Some [a; b]) None None)
     = Normal (content a ++ Js.blankLine ++ content b)
  /\ (forall items hs im, exists text,
         findRelevantContent sort embedContent query
           (mkDatabase (Some items) hs im) = Normal text).
Proof.
  intros Hsort Hquery Hzero.
  pose proof (cosineSimilarity_zero_vector queryEmbedding _ Hzero) as Hnan.
  destruct (pair_with_NaN_equivalent
              (a, cosineSimilarity queryEmbedding (embedding a))
              (b, cosineSimilarity queryEmbedding (embedding b)) Hnan)
    as [Hab Hba].
  change (allEquivalent bySimilarityDesc
            (similarityScores queryEmbedding [a; b])) in Hab.
  change (allEquivalent bySimilarityDesc
            (similarityScores queryEmbedding [b; a])) in Hba.
  assert (Htop_ab : topResults sort queryEmbedding [a; b]
                    = similarityScores queryEmbedding [a; b]).
  { unfold topResults. rewrite (sort_stable sort Hsort _ _ _ Hab).
    reflexivity. }
  assert (Htop_ba : topResults sort queryEmbedding [b; a]
                    = similarityScores queryEmbedding [b; a]).
  { unfold topResults. rewrite (sort_stable sort Hsort _ _ _ Hba).
    reflexivity. }
  repeat split; try assumption.
  - unfold findRelevantContent. rewrite Hquery. cbn [chunks].
    now rewrite Htop_ab.
  - intros items hs im. unfold findRelevantContent. rewrite Hquery.
    cbn [chunks]. eexists. reflexivity.
Qed.

Lemma undefined_similarity_keeps_stored_place_witness :
  Forall isZero (embedding zeroChunk)
  /\ findRelevantContent insertionSort (fun _ => Some [one; Num.zero])
       "telephone" (mkDatabase (Some [zeroChunk; unitChunk]) None None)
     = Normal ("zero" ++ Js.blankLine ++ "unit").
Proof.
  assert (Hzero : Forall isZero (embedding zeroChunk)).
  { repeat constructor. }
  split; [exact Hzero|].
  exact (proj1 (proj2 (proj2 (proj2
           (undefined_similarity_keeps_stored_place insertionSort
              (fun _ => Some [one; Num.zero]) "telephone"
              [one; Num.zero] zeroChunk unitChunk
              insertionSort_conforming eq_refl Hzero))))).
Defined.

(** C3, the claim as stated fails: with the zero-vector chunk stored ahead
    of a chunk whose similarity to the query is 1, the ranked list has the
    NaN chunk first, so it does not come after the chunk with a defined
    similarity. *)
Lemma zero_vector_chunk_ranked_first :
  topResults insertionSort [one; Num.zero] [zeroChunk; unitChunk]
  = [(zeroChunk, Num.NaN); (unitChunk, one)]
  /\ findRelevantContent insertionSort (fun _ => Some [one; Num.zero])
       "telephone" (mkDatabase (Some [zeroChunk; unitChunk]) None None)
     = Normal ("zero" ++ Js.blankLine ++ "unit")
  /\ ~ undefinedLast
         (topResults insertionSort [one; Num.zero] [zeroChunk; unitChunk]).
Proof.
  assert (Htop : topResults insertionSort [one; Num.zero]
                   [zeroChunk; unitChunk]
                 = [(zeroChunk, Num.NaN); (unitChunk, one)])
    by (vm_compute; reflexivity).
  split; [exact Htop|]. split; [vm_compute; reflexivity|].
  rewrite Htop. intros H.
  specialize (H 0 1 (zeroChunk, Num.NaN) (unitChunk, one)
                eq_refl eq_refl eq_refl eq_refl).
  lia.
Qed.

(** ** Objects: reading after writing *)

Section ObjFacts.

Context {V : Type}.

Lemma get_in (o : Obj.t V) (k : string) (v : V) :
  Obj.get o k = Some v -> In (k, v) o.
Proof.
  induction o as [|[k' v'] o IH]; simpl; [discriminate|].
  destruct (String.eqb k' k) eqn:Hk.
  - apply String.eqb_eq in Hk. intros H. injection H as H. subst. now left.
  - intros H. right. now apply IH.
Qed.

Lemma get_some_key (o : Obj.t V) (k : string) (v : V) :
  Obj.get o k = Some v -> In k (Obj.keys o).
Proof.
  intros H. apply get_in in H. unfold Obj.keys.
  apply in_map_iff. now exists (k, v).
Qed.

Lemma get_none_key (o : Obj.t V) (k : string) :
  Obj.get o k = None -> ~ In k (Obj.keys o).
Proof.
  intros H Hin. destruct (get_of_key o k Hin) as [v Hv]. congruence.
Qed.

Lemma get_update_same (o : Obj.t V) (k : string) (v w : V) :
  Obj.get o k = Some w -> Obj.get (Obj.update k v o) k = Some v.
Proof.
  induction o as [|[k' v'] o IH]; simpl; [discriminate|].
  destruct (String.eqb k' k) eqn:Hk; simpl.
  - now rewrite String.eqb_refl.
  - rewrite Hk. exact IH.
Qed.

Lemma get_update_other (o : Obj.t V) (k k' : string) (v : V) :
  k' <> k -> Obj.get (Obj.update k v o) k' = Obj.get o k'.
Proof.
  intros Hne. induction o as [|[k0 v0] o IH]; simpl; [reflexivity|].
  destruct (String.eqb k0 k) eqn:Hk; simpl.
  - apply String.eqb_eq in Hk. subst k0.
    apply not_eq_sym in Hne. apply String.eqb_neq in Hne.
    now rewrite Hne.
  - now rewrite IH.
Qed.

Lemma keys_update (o : Obj.t V) (k : string) (v : V) :
  Obj.keys (Obj.update k v o) = Obj.keys o.
Proof.
  unfold Obj.keys.
  induction o as [|[k0 v0] o IH]; simpl; [reflexivity|].
  destruct (String.eqb k0 k) eqn:Hk; simpl.
  - apply String.eqb_eq in Hk. now subst.
  - f_equal. exact IH.
Qed.

Lemma get_insertIndex_same (o : Obj.t V) (n : N) (k : string) (v : V) :
  Obj.get o k = None -> Obj.get (Obj.insertIndex n k v o) k = Some v.
Proof.
  induction o as [|[k0 v0] o IH]; simpl.
  - now rewrite String.eqb_refl.
  - destruct (String.eqb k0 k) eqn:Hk; [discriminate|]. intros Hnone.
    destruct (Obj.arrayIndex k0) as [n0|].
    + destruct (n <? n0)%N; simpl.
      * now rewrite String.eqb_refl.
      * rewrite Hk. now apply IH.
    + simpl. now rewrite String.eqb_refl.
Qed.

Lemma get_insertIndex_other (o : Obj.t V) (n : N) (k k' : string) (v : V) :
  k' <> k -> Obj.get (Obj.insertIndex n k v o) k' = Obj.get o k'.
Proof.
  intros Hne. apply not_eq_sym in Hne. apply String.eqb_neq in Hne.
  induction o as [|[k0 v0] o IH]; simpl.
  - now rewrite Hne.
  - destruct (Obj.arrayIndex k0) as [n0|].
    + destruct (n <? n0)%N; simpl.
      * now rewrite Hne.
      * now rewrite IH.
    + simpl. now rewrite Hne.
Qed.

Lemma keys_insertIndex (o : Obj.t V) (n : N) (k : string) (v : V) :
  Permutation (k :: Obj.keys o) (Obj.keys (Obj.insertIndex n k v o)).
Proof.
  induction o as [|[k0 v0] o IH]; simpl; [apply Permutation_refl|].
  destruct (Obj.arrayIndex k0) as [n0|].
  - destruct (n <? n0)%N; simpl; [apply Permutation_refl|].
    apply perm_trans with (k0 :: k :: Obj.keys o); [apply perm_swap|].
    apply perm_skip. exact IH.
  - apply Permutation_refl.
Qed.

Lemma get_app_new (o : Obj.t V) (k k' : string) (v : V) :
  Obj.get (o ++ [(k, v)])%list k'
  = match Obj.get o k' with
    | Some w => Some w
    | None => if String.eqb k k' then Some v else None
    end.
Proof.
  induction o as [|[k0 v0] o IH]; simpl; [reflexivity|].
  destruct (String.eqb k0 k'); [reflexivity | exact IH].
Qed.

(** Reading the key just written gives the value written. *)
Lemma get_set_same (o : Obj.t V) (k : string) (v : V) :
  Obj.get (Obj.set k v o) k = Some v.
Proof.
  unfold Obj.set. destruct (Obj.get o k) as [w|] eqn:Hget.
  - now apply (get_update_same o k v w).
  - destruct (Obj.arrayIndex k) as [n|].
    + now apply get_insertIndex_same.
    + rewrite get_app_new, Hget. now rewrite String.eqb_refl.
Qed.

(** Writing a key leaves the other keys as they were. *)
Lemma get_set_other (o : Obj.t V) (k k' : string) (v : V) :
  k' <> k -> Obj.get (Obj.set k v o) k' = Obj.get o k'.
Proof.
  intros Hne. unfold Obj.set. destruct (Obj.get o k) as [w|] eqn:Hget.
  - now apply get_update_other.
  - destruct (Obj.arrayIndex k) as [n|].
    + now apply get_insertIndex_other.
    + rewrite get_app_new. destruct (Obj.get o k'); [reflexivity|].
      apply not_eq_sym in Hne. apply String.eqb_neq in Hne.
      now rewrite Hne.
Qed.

Lemma get_set (o : Obj.t V) (k k' : string) (v : V) :
  Obj.get (Obj.set k v o) k'
  = if String.eqb k k' then Some v else Obj.get o k'.
Proof.
  destruct (String.eqb k k') eqn:Hk.
  - apply String.eqb_eq in Hk. subst. apply get_set_same.
  - apply String.eqb_neq in Hk. apply get_set_other. congruence.
Qed.

(** Writing adds the key when it is new and no other key. *)
Lemma keys_set (o : Obj.t V) (k : string) (v : V) :
  match Obj.get o k with
  | Some _ => Obj.keys (Obj.set k v o) = Obj.keys o
  | None => Permutation (k :: Obj.keys o) (Obj.keys (Obj.set k v o))
  end.
Proof.
  unfold Obj.set. destruct (Obj.get o k) as [w|] eqn:Hget.
  - apply keys_update.
  - destruct (Obj.arrayIndex k) as [n|].
    + apply keys_insertIndex.
    + unfold Obj.keys. rewrite map_app. simpl.
      apply Permutation_cons_append.
Qed.

Lemma set_noDup (o : Obj.t V) (k : string) (v : V) :
  NoDup (Obj.keys o) -> NoDup (Obj.keys (Obj.set k v o)).
Proof.
  intros Hnd. pose proof (keys_set o k v) as H.
  destruct (Obj.get o k) eqn:Hget.
  - now rewrite H.
  - eapply Permutation_NoDup; [exact H|].
    constructor; [now apply get_none_key | exact Hnd].
Qed.

Lemma in_get (o : Obj.t V) (k : string) (v : V) :
  NoDup (Obj.keys o) -> In (k, v) o -> Obj.get o k = Some v.
Proof.
  induction o as [|[k0 v0] o IH]; simpl; [tauto|].
  intros Hnd [Heq | Hin].
  - injection Heq as -> ->. now rewrite String.eqb_refl.
  - inversion Hnd as [|? ? Hnot Hnd']; subst.
    destruct (String.eqb k0 k) eqn:Hk.
    + apply String.eqb_eq in Hk. subst k0. exfalso. apply Hnot.
      unfold Obj.keys. apply in_map_iff. now exists (k, v).
    + now apply IH.
Qed.

(** An assignment writes under its key or nowhere. *)
Lemma get_put_cases (o : Obj.t V) (k k' : string) (v w : V) :
  Obj.get (Obj.put k v o) k' = Some w ->
  Obj.get o k' = Some w \/ (k' = k /\ w = v).
Proof.
  unfold Obj.put.
  destruct (Obj.get o k) as [old|];
    [|destruct (String.eqb k "__proto__"); [now left|]];
    rewrite get_set; destruct (String.eqb k k') eqn:Hk;
    try (now left); apply String.eqb_eq in Hk;
    intros H; injection H as <-; right; now split.
Qed.

Lemma get_put_other (o : Obj.t V) (k k' : string) (v : V) :
  k' <> k -> Obj.get (Obj.put k v o) k' = Obj.get o k'.
Proof.
  intros Hne. unfold Obj.put.
  destruct (Obj.get o k) as [old|];
    [|destruct (String.eqb k "__proto__"); [reflexivity|]];
    now apply get_set_other.
Qed.

Lemma get_put_same (o : Obj.t V) (k : string) (v : V) :
  k <> "__proto__" -> Obj.get (Obj.put k v o) k = Some v.
Proof.
  intros Hne. apply String.eqb_neq in Hne. unfold Obj.put. rewrite Hne.
  destruct (Obj.get o k); apply get_set_same.
Qed.

(** No assignment makes an own property [__proto__]. *)
Lemma get_put_proto (o : Obj.t V) (k : string) (v : V) :
  Obj.get o "__proto__" = None ->
  Obj.get (Obj.put k v o) "__proto__" = None.
Proof.
  intros H. destruct (String.eqb k "__proto__") eqn:Hk.
  - apply String.eqb_eq in Hk. subst k. unfold Obj.put. now rewrite H.
  - apply String.eqb_neq in Hk. rewrite get_put_other; [exact H|].
    congruence.
Qed.

Lemma put_noDup (o : Obj.t V) (k : string) (v : V) :
  NoDup (Obj.keys o) -> NoDup (Obj.keys (Obj.put k v o)).
Proof.
  intros Hnd. unfold Obj.put.
  destruct (Obj.get o k); [|destruct (String.eqb k "__proto__")];
    try exact Hnd; now apply set_noDup.
Qed.

End ObjFacts.

(** ** HS code extractor *)

Section RegexScan.

Import HsCodeRegex.

Lemma digits_none_app (s : string) :
  forall n t,
    s <> "" -> endsWithDigit s = false -> digits n s = None ->
    digits n (s ++ t) = None.
Proof.
  induction s as [|c s IH]; intros n t Hne Hend Hnone; [congruence|].
  destruct n as [|n]; [discriminate|].
  cbn [digits append] in Hnone |- *.
  destruct (Js.isDigit c) eqn:Hc; [|reflexivity].
  destruct s as [|c' s].
  - cbn [endsWithDigit] in Hend. rewrite Hc in Hend. discriminate.
  - rewrite (IH n t); [reflexivity | discriminate | exact Hend |].
    destruct (digits n (String c' s)) as [[d r]|]; [discriminate|].
    reflexivity.
Qed.

Lemma matchHere_without_digits (s : string) :
  digits 8 s = None -> matchHere s = None.
Proof.
  intros H. unfold matchHere. now rewrite H.
Qed.

Lemma hasCodeToken_inv (c : ascii) (s : string) :
  hasCodeToken (String c s) = false ->
  digits 8 (String c s) = None /\ hasCodeToken s = false.
Proof.
  intros H. unfold hasCodeToken in H. fold hasCodeToken in H.
  destruct (digits 8 (String c s)); [discriminate | auto].
Qed.

(** No match starts in a text that holds no run of eight digits. *)
Lemma execAll_without_token (s : string) :
  hasCodeToken s = false -> execAll 0 s = [].
Proof.
  induction s as [|c s IH]; intros H; [reflexivity|].
  apply hasCodeToken_inv in H as [Hd Hs].
  cbn [execAll]. rewrite (matchHere_without_digits _ Hd). now apply IH.
Qed.

(** The code units of a match are passed over before the next search. *)
Lemma execAll_skip (s t : string) :
  execAll (String.length s) (s ++ t) = execAll 0 t.
Proof.
  induction s as [|c s IH]; simpl; [now destruct t | exact IH].
Qed.

(** A text that starts with a match has that match, and then the matches
    of what follows it. *)
Lemma execAll_match (s t : string) (m : RegMatch) :
  matchHere (s ++ t) = Some m ->
  matchLength m = String.length s ->
  s <> "" ->
  execAll 0 (s ++ t) = m :: execAll 0 t.
Proof.
  intros Hmatch Hlength Hne.
  destruct s as [|c s]; [congruence|].
  cbn [append execAll] in *. rewrite Hmatch, Hlength.
  cbn [String.length]. rewrite Nat.sub_1_r. cbn [Nat.pred]. f_equal.
  apply execAll_skip.
Qed.

(** When the scan comes to search at the end of [before], the matches of
    the text are matches that start in [before], then those of the
    rest. *)
Lemma execAll_searchesAt (before rest : string) :
  forall skip,
    searchesAt skip (String.length before) (before ++ rest) = true ->
    exists earlier,
      execAll skip (before ++ rest) = (earlier ++ execAll 0 rest)%list.
Proof.
  induction before as [|c before IH]; intros skip H.
  - cbn [String.length searchesAt] in H. apply Nat.eqb_eq in H. subst skip.
    now exists [].
  - cbn [String.length append searchesAt execAll] in *.
    destruct skip as [|skip]; [|now apply IH].
    destruct (matchHere (String c (before ++ rest))) as [m|];
      [|now apply IH].
    destruct (IH _ H) as [earlier Hearlier].
    exists (m :: earlier). cbn [app]. now rewrite Hearlier.
Qed.

(** No match starts in a text that holds no run of eight digits and does
    not end in a digit, whatever follows: the scan comes to search at its
    end. *)
Lemma searchesAt_plain_prefix (before rest : string) :
  hasCodeToken before = false -> endsWithDigit before = false ->
  searchesAt 0 (String.length before) (before ++ rest) = true.
Proof.
  induction before as [|c before IH]; intros Htoken Hend; [reflexivity|].
  apply hasCodeToken_inv in Htoken as [Hd Hs].
  cbn [String.length append searchesAt].
  rewrite (matchHere_without_digits (String c (before ++ rest))).
  - apply IH; [exact Hs|].
    destruct before; [reflexivity | exact Hend].
  - apply (digits_none_app (String c before) 8 rest);
      [discriminate | exact Hend | exact Hd].
Qed.

(** The match found at the fragment does not depend on what follows. *)
Lemma matchHere_telephone (after : string) :
  matchHere (telephoneFragment ++ after)
  = Some (mkRegMatch "85171200" "Telephone sets" "Free" 30).
Proof.
  cbv. reflexivity.
Qed.

End RegexScan.

Section LaterMatchesOverwrite.

(** What one match leaves under a key of the code table does not depend
    on the table before. *)
Lemma extractStep_table (m : RegMatch) (k : string) :
  exists written : option HsEntry,
    forall acc,
      Obj.get (hsCodesData (extractStep acc m)) k
      = match written with
        | Some e => Some e
        | None => Obj.get (hsCodesData acc) k
        end.
Proof.
  destruct (String.eqb (group1 m) k) eqn:Hk.
  - exists (Some (mkHsEntry (Js.trim (group2 m)) (group3 m))). intros acc.
    unfold extractStep. cbn [hsCodesData]. now rewrite get_set, Hk.
  - exists None. intros acc.
    unfold extractStep. cbn [hsCodesData]. now rewrite get_set, Hk.
Qed.

Lemma items_fold_index (hsCode : string) (items : list string)
    (k : string) :
  k <> "__proto__" ->
  exists written : bool,
    forall o,
      Obj.get
        (fold_left
           (fun o item =>
              if 3 <? String.length item then Obj.put item hsCode o else o)
           items o) k
      = if written then Some hsCode else Obj.get o k.
Proof.
  intros Hk. induction items as [|item items [written IH]].
  - now exists false.
  - destruct written.
    + exists true. intros o. cbn [fold_left]. apply IH.
    + destruct ((3 <? String.length item) && String.eqb item k) eqn:Hitem.
      * exists true. intros o. cbn [fold_left]. rewrite IH.
        apply andb_true_iff in Hitem as [-> Heq].
        apply String.eqb_eq in Heq. subst item. now apply get_put_same.
      * exists false. intros o. cbn [fold_left]. rewrite IH.
        destruct (3 <? String.length item); [|reflexivity].
        cbn [andb] in Hitem. apply String.eqb_neq in Hitem.
        apply get_put_other. congruence.
Qed.

(** Nor does what it leaves under a phrase of the index. *)
Lemma extractStep_index (m : RegMatch) (k : string) :
  k <> "__proto__" ->
  exists written : bool,
    forall acc,
      Obj.get (itemToHsMap (extractStep acc m)) k
      = if written then Some (group1 m) else Obj.get (itemToHsMap acc) k.
Proof.
  intros Hk.
  destruct (items_fold_index (group1 m)
              (map (fun item => Js.toLowerCase (Js.trim item))
                   (Js.splitOn isItemSeparator (Js.trim (group2 m))))
              k Hk) as [written Hitems].
  destruct (String.eqb (Js.toLowerCase (Js.trim (group2 m))) k) eqn:Heq.
  - exists true. intros acc. unfold extractStep. cbn [itemToHsMap].
    apply String.eqb_eq in Heq. rewrite Heq. now apply get_put_same.
  - exists written. intros acc. unfold extractStep. cbn [itemToHsMap].
    apply String.eqb_neq in Heq.
    rewrite get_put_other by congruence. apply Hitems.
Qed.

(** The matches of a text overwrite what earlier matches have left: under
    a key, the tables hold what the later matches alone would give, and
    otherwise what was there. *)
Lemma extract_table_overwrites (ms : list RegMatch) (acc : Extracted)
    (k : string) :
  Obj.get (hsCodesData (fold_left extractStep ms acc)) k
  = match Obj.get (hsCodesData (fold_left extractStep ms noTables)) k with
    | Some e => Some e
    | None => Obj.get (hsCodesData acc) k
    end.
Proof.
  induction ms as [|m ms IH] using rev_ind; [reflexivity|].
  rewrite !fold_left_app. cbn [fold_left].
  destruct (extractStep_table m k) as [[e|] Hstep]; rewrite !Hstep;
    [reflexivity | exact IH].
Qed.

Lemma extract_index_overwrites (ms : list RegMatch) (acc : Extracted)
    (k : string) :
  k <> "__proto__" ->
  Obj.get (itemToHsMap (fold_left extractStep ms acc)) k
  = match Obj.get (itemToHsMap (fold_left extractStep ms noTables)) k with
    | Some code => Some code
    | None => Obj.get (itemToHsMap acc) k
    end.
Proof.
  intros Hk. induction ms as [|m ms IH] using rev_ind; [reflexivity|].
  rewrite !fold_left_app. cbn [fold_left].
  destruct (extractStep_index m k Hk) as [[|] Hstep]; rewrite !Hstep;
    [reflexivity | exact IH].
Qed.

(** What the match of the fragment writes. *)
Lemma extractStep_telephone (acc : Extracted) :
  Obj.get
    (hsCodesData
       (extractStep acc (mkRegMatch "85171200" "Telephone sets" "Free" 30)))
    "85171200" = Some (mkHsEntry "Telephone sets" "Free")
  /\ Obj.get
       (itemToHsMap
          (extractStep acc
             (mkRegMatch "85171200" "Telephone sets" "Free" 30)))
       "telephone sets" = Some "85171200".
Proof.
  unfold extractStep. cbn [hsCodesData itemToHsMap group1 group2 group3].
  split.
  - apply get_set_same.
  - apply (get_put_same _ "telephone sets"). discriminate.
Qed.

End LaterMatchesOverwrite.

(** C8, as amended.  Extraction from a text that contains the fragment
    ["85171200  Telephone sets  Free"] yields a code table with the entry
    of code ["85171200"], description ["Telephone sets"] and policy
    ["Free"], and a phrase index that maps ["telephone sets"] to
    ["85171200"], provided that no match of the pattern that starts before
    the fragment runs into it (the scan comes to search at the first digit
    of the fragment), and that what is extracted from the text after the
    fragment gives the code no other entry and the phrase no other
    code. *)
Theorem telephone_fragment_extracted (before after : string) :
  searchesAt 0 (String.length before) (before ++ telephoneFragment ++ after)
  = true ->
  (forall e,
      Obj.get (hsCodesData (extractHSCodes after)) "85171200" = Some e ->
      e = mkHsEntry "Telephone sets" "Free") ->
  (forall code,
      Obj.get (itemToHsMap (extractHSCodes after)) "telephone sets"
      = Some code ->
      code = "85171200") ->
  let extracted := extractHSCodes (before ++ telephoneFragment ++ after) in
  Obj.get (hsCodesData extracted) "85171200"
  = Some (mkHsEntry "Telephone sets" "Free")
  /\ Obj.get (itemToHsMap extracted) "telephone sets" = Some "85171200".
Proof.
  intros Hscan Hentry Hphrase. cbv zeta.
  destruct (execAll_searchesAt before (telephoneFragment ++ after) 0 Hscan)
    as [earlier Hearlier].
  assert (Hfragment :
            HsCodeRegex.execAll 0 (telephoneFragment ++ after)
            = mkRegMatch "85171200" "Telephone sets" "Free" 30
              :: HsCodeRegex.execAll 0 after).
  { apply execAll_match;
      [apply matchHere_telephone | reflexivity | discriminate]. }
  unfold extractHSCodes in *. fold noTables in *.
  rewrite Hearlier, Hfragment, fold_left_app. cbn [fold_left].
  destruct (extractStep_telephone (fold_left extractStep earlier noTables))
    as [Htable Hindex].
  split.
  - rewrite extract_table_overwrites, Htable.
    destruct (Obj.get
                (hsCodesData
                   (fold_left extractStep (HsCodeRegex.execAll 0 after)
                      noTables)) "85171200") as [e|] eqn:He;
      [|reflexivity].
    now rewrite (Hentry e eq_refl).
  - rewrite extract_index_overwrites by discriminate. rewrite Hindex.
    destruct (Obj.get
                (itemToHsMap
                   (fold_left extractStep (HsCodeRegex.execAll 0 after)
                      noTables)) "telephone sets") as [code|] eqn:Hc;
      [|reflexivity].
    now rewrite (Hphrase code eq_refl).
Qed.

Lemma telephone_fragment_extracted_witness :
  searchesAt 0 (String.length textBeforeFragment)
    (textBeforeFragment ++ telephoneFragment ++ textAfterFragment) = true
  /\ Obj.keys (hsCodesData (extractHSCodes textAfterFragment))
     = ["85171300"]
  /\ Obj.keys (itemToHsMap (extractHSCodes textAfterFragment))
     = ["smartphones"]
  /\ Obj.get
       (hsCodesData
          (extractHSCodes
             (textBeforeFragment ++ telephoneFragment ++ textAfterFragment)))
       "85171200" = Some (mkHsEntry "Telephone sets" "Free")
  /\ Obj.get
       (itemToHsMap
          (extractHSCodes
             (textBeforeFragment ++ telephoneFragment ++ textAfterFragment)))
       "telephone sets" = Some "85171200".
Proof.
  split; [vm_compute; reflexivity|].
  split; [vm_compute; reflexivity|].
  split; [vm_compute; reflexivity|].
  apply (telephone_fragment_extracted textBeforeFragment textAfterFragment).
  - vm_compute. reflexivity.
  - intros e H. vm_compute in H. discriminate H.
  - intros code H. vm_compute in H. discriminate H.
Defined.

(** C8, the claim as stated fails: the first text below contains the
    fragment, but the match that starts at the earlier eight digits takes
    the fragment into its description, and the code table has no entry for
    ["85171200"].  In the second text the fragment is matched, and the row
    that follows it gives the code another entry. *)
Lemma fragment_taken_into_earlier_description :
  Js.includes shadowedFragment telephoneFragment = true
  /\ extractHSCodes shadowedFragment
     = mkExtracted
         [("11111111",
           mkHsEntry "note 85171200  Telephone sets" "Free")]
         [("note 85171200  telephone sets", "11111111")]
  /\ Obj.get (hsCodesData (extractHSCodes shadowedFragment)) "85171200"
     = None
  /\ searchesAt 0 (String.length shadowedPrefix) shadowedFragment = false
  /\ Js.includes overwrittenFragment telephoneFragment = true
  /\ Obj.get (hsCodesData (extractHSCodes overwrittenFragment)) "85171200"
     = Some (mkHsEntry "Handsets" "Restricted").
Proof.
  repeat split; vm_compute; reflexivity.
Qed.

(** * Further properties of the code *)

(** ** Normal forms of strings *)

Section Normalization.

Lemma lowerChar_idempotent (c : ascii) :
  Js.lowerChar (Js.lowerChar c) = Js.lowerChar c.
Proof.
  destruct c as [[] [] [] [] [] [] [] []]; reflexivity.
Qed.

Lemma isWhiteSpace_lowerChar (c : ascii) :
  Js.isWhiteSpace (Js.lowerChar c) = Js.isWhiteSpace c.
Proof.
  destruct c as [[] [] [] [] [] [] [] []]; reflexivity.
Qed.

Lemma toLowerCase_idempotent (s : string) :
  Js.toLowerCase (Js.toLowerCase s) = Js.toLowerCase s.
Proof.
  induction s as [|c s IH]; simpl; [reflexivity|].
  now rewrite lowerChar_idempotent, IH.
Qed.

Lemma trimStart_toLowerCase (s : string) :
  Js.trimStart (Js.toLowerCase s) = Js.toLowerCase (Js.trimStart s).
Proof.
  induction s as [|c s IH]; [reflexivity|].
  cbn [Js.toLowerCase Js.trimStart]. rewrite isWhiteSpace_lowerChar.
  destruct (Js.isWhiteSpace c); [exact IH | reflexivity].
Qed.

Lemma trimEnd_toLowerCase (s : string) :
  Js.trimEnd (Js.toLowerCase s) = Js.toLowerCase (Js.trimEnd s).
Proof.
  induction s as [|c s IH]; [reflexivity|].
  cbn [Js.toLowerCase Js.trimEnd]. rewrite IH, isWhiteSpace_lowerChar.
  destruct (Js.trimEnd s) as [|c' r]; cbn [Js.toLowerCase].
  - now destruct (Js.isWhiteSpace c).
  - reflexivity.
Qed.

(** Lower-casing and trimming commute. *)
Lemma trim_toLowerCase (s : string) :
  Js.trim (Js.toLowerCase s) = Js.toLowerCase (Js.trim s).
Proof.
  unfold Js.trim. now rewrite trimStart_toLowerCase, trimEnd_toLowerCase.
Qed.

Lemma trimEnd_idempotent (s : string) :
  Js.trimEnd (Js.trimEnd s) = Js.trimEnd s.
Proof.
  induction s as [|c s IH]; [reflexivity|].
  cbn [Js.trimEnd]. destruct (Js.trimEnd s) as [|c' r] eqn:Hr.
  - destruct (Js.isWhiteSpace c) eqn:Hc; [reflexivity|].
    cbn [Js.trimEnd]. now rewrite Hc.
  - cbn [Js.trimEnd]. cbn [Js.trimEnd] in IH. now rewrite IH.
Qed.

Lemma trimStart_tight (s : string) : startsTight (Js.trimStart s) = true.
Proof.
  induction s as [|c s IH]; [reflexivity|].
  cbn [Js.trimStart]. destruct (Js.isWhiteSpace c) eqn:Hc; [exact IH|].
  cbn [startsTight]. now rewrite Hc.
Qed.

Lemma trimStart_of_tight (s : string) :
  startsTight s = true -> Js.trimStart s = s.
Proof.
  destruct s as [|c s]; [reflexivity|].
  cbn [startsTight Js.trimStart].
  now destruct (Js.isWhiteSpace c).
Qed.

Lemma trimEnd_tight (s : string) :
  startsTight s = true -> startsTight (Js.trimEnd s) = true.
Proof.
  destruct s as [|c s]; [reflexivity|].
  cbn [startsTight Js.trimEnd]. intros Hc.
  destruct (Js.trimEnd s); [|exact Hc].
  destruct (Js.isWhiteSpace c) eqn:Hw; [discriminate|].
  cbn [startsTight]. now rewrite Hw.
Qed.

Lemma trim_idempotent (s : string) : Js.trim (Js.trim s) = Js.trim s.
Proof.
  unfold Js.trim.
  rewrite (trimStart_of_tight (Js.trimEnd (Js.trimStart s))).
  - apply trimEnd_idempotent.
  - apply trimEnd_tight, trimStart_tight.
Qed.

(** [toLowerCase().trim()] twice is [toLowerCase().trim()] once. *)
Lemma normalize_idempotent (s : string) :
  normalized (Js.trim (Js.toLowerCase s)).
Proof.
  unfold normalized.
  rewrite (trim_toLowerCase (Js.trim (Js.toLowerCase s))), trim_idempotent.
  now rewrite <- trim_toLowerCase, toLowerCase_idempotent.
Qed.

Lemma normalized_lower_trim (s : string) :
  normalized (Js.toLowerCase (Js.trim s)).
Proof.
  rewrite <- trim_toLowerCase. apply normalize_idempotent.
Qed.

End Normalization.

(** ** What the pattern can match *)

Section RegexMatches.

Import HsCodeRegex.

Lemma digits_spec (n : nat) :
  forall s d r,
    digits n s = Some (d, r) ->
    String.length d = n /\ Obj.allDigits d = true.
Proof.
  induction n as [|n IH]; intros s d r H; simpl in H.
  - injection H as <- _. now split.
  - destruct s as [|c s]; [discriminate|].
    destruct (Js.isDigit c) eqn:Hc; [|discriminate].
    destruct (digits n s) as [[d' r']|] eqn:Hd; [|discriminate].
    injection H as <- _. destruct (IH s d' r' Hd) as [Hlen Hall].
    split; simpl; [now rewrite Hlen | now rewrite Hc, Hall].
Qed.

(** A success of a quantifier is a success of its continuation. *)
Lemma spaces_continues {A : Type} (k : nat -> string -> option A)
    (s : string) :
  forall n r, spaces k n s = Some r -> exists n' s', k n' s' = Some r.
Proof.
  induction s as [|c s IH]; intros n r H; simpl in H; [discriminate|].
  destruct (Js.isWhiteSpace c); [|discriminate].
  destruct (spaces k (S n) s) as [r'|] eqn:Hrec.
  - injection H as <-. now apply (IH (S n)).
  - now exists (S n), s.
Qed.

Lemma lazyAny_continues {A : Type} (k : string -> string -> option A)
    (s : string) :
  forall acc r,
    lazyAny k acc s = Some r -> exists acc' s', k acc' s' = Some r.
Proof.
  induction s as [|c s IH]; intros acc r H; simpl in H.
  - destruct (k acc "") as [r'|] eqn:Hk; [|discriminate].
    injection H as <-. now exists acc, "".
  - destruct (k acc (String c s)) as [r'|] eqn:Hk.
    + injection H as <-. now exists acc, (String c s).
    + destruct (Js.isLineTerminator c); [discriminate|].
      now apply (IH (acc ++ String c "")).
Qed.

Lemma sameLetter_lower (p a : ascii) :
  (Js.code (Js.lowerChar p) <? 128) = true ->
  sameLetter p a = true -> Js.lowerChar a = Js.lowerChar p.
Proof.
  unfold sameLetter. intros Hp H.
  destruct (Js.code a <? 128) eqn:Ha.
  - apply Ascii.eqb_eq in H. now symmetry.
  - apply Ascii.eqb_eq in H. rewrite H in Hp. congruence.
Qed.

(** What a literal matches is the literal up to the case of letters. *)
Lemma literal_lower (lit : string) :
  forall s m,
    asciiPattern lit = true -> literal lit s = Some m ->
    Js.toLowerCase m = Js.toLowerCase lit.
Proof.
  induction lit as [|p lit IH]; intros s m Hlit H; simpl in H.
  - now injection H as <-.
  - simpl in Hlit. apply andb_true_iff in Hlit as [Hp Hlit].
    destruct s as [|a s]; [discriminate|].
    destruct (sameLetter p a) eqn:Hsame; [|discriminate].
    destruct (literal lit s) as [m'|] eqn:Hm; [|discriminate].
    injection H as <-. simpl.
    now rewrite (sameLetter_lower p a Hp Hsame), (IH s m' Hlit Hm).
Qed.

Lemma literal_length (lit : string) :
  forall s m, literal lit s = Some m -> String.length m = String.length lit.
Proof.
  induction lit as [|p lit IH]; intros s m H; simpl in H.
  - now injection H as <-.
  - destruct s as [|a s]; [discriminate|].
    destruct (sameLetter p a); [|discriminate].
    destruct (literal lit s) as [m'|] eqn:Hm; [|discriminate].
    injection H as <-. simpl. now rewrite (IH s m' Hm).
Qed.

Lemma alternation_policy (s m : string) :
  alternation policies s = Some m -> validPolicy m /\ 0 < String.length m.
Proof.
  unfold policies, alternation, validPolicy.
  destruct (literal "Free" s) as [m1|] eqn:H1.
  { intros H. injection H as <-.
    rewrite (literal_lower "Free" s m1 eq_refl H1),
      (literal_length _ _ _ H1).
    split; [simpl; tauto | simpl; lia]. }
  destruct (literal "Restricted" s) as [m2|] eqn:H2.
  { intros H. injection H as <-.
    rewrite (literal_lower "Restricted" s m2 eq_refl H2),
      (literal_length _ _ _ H2).
    split; [simpl; tauto | simpl; lia]. }
  destruct (literal "Prohibited" s) as [m3|] eqn:H3.
  { intros H. injection H as <-.
    rewrite (literal_lower "Prohibited" s m3 eq_refl H3),
      (literal_length _ _ _ H3).
    split; [simpl; tauto | simpl; lia]. }
  destruct (literal "Not Permitted" s) as [m4|] eqn:H4; [|discriminate].
  intros H. injection H as <-.
  rewrite (literal_lower "Not Permitted" s m4 eq_refl H4),
    (literal_length _ _ _ H4).
  split; [simpl; tauto | simpl; lia].
Qed.

Lemma matchHere_valid (s : string) (m : RegMatch) :
  matchHere s = Some m -> validMatch m.
Proof.
  unfold matchHere. intros H.
  destruct (digits 8 s) as [[g1 r0]|] eqn:Hd; [|discriminate].
  destruct (digits_spec 8 s g1 r0 Hd) as [Hlen Hall].
  apply spaces_continues in H as [n1 [r1 H]].
  apply lazyAny_continues in H as [g2 [r2 H]].
  apply spaces_continues in H as [n2 [r3 H]].
  destruct (alternation policies r3) as [g3|] eqn:Hg3; [|discriminate].
  injection H as <-. destruct (alternation_policy r3 g3 Hg3) as [Hp Hpos].
  unfold validMatch, isCode. simpl. repeat split; try assumption. lia.
Qed.

Lemma execAll_valid (s : string) :
  forall skip, Forall validMatch (execAll skip s).
Proof.
  induction s as [|c s IH]; intros skip; simpl; [constructor|].
  destruct skip as [|skip]; [|apply IH].
  destruct (matchHere (String c s)) as [m|] eqn:Hm; [|apply IH].
  constructor; [now apply (matchHere_valid (String c s)) | apply IH].
Qed.

End RegexMatches.

(** ** The tables the extractor builds *)

Section ExtractionInvariant.

Lemma isCode_truthy (code : string) : isCode code -> Js.truthy code = true.
Proof.
  intros [Hlen _]. now destruct code.
Qed.

(** The phrases one match adds all point to its code. *)
Lemma items_fold_spec (hsCode : string) (items : list string) :
  forall o phrase code,
    Obj.get
      (fold_left
         (fun o item =>
            if 3 <? String.length item then Obj.put item hsCode o else o)
         items o) phrase = Some code ->
    Obj.get o phrase = Some code \/ (code = hsCode /\ In phrase items).
Proof.
  induction items as [|item items IH]; intros o phrase code H; simpl in H;
    [now left|].
  apply IH in H as [H | [Hc Hin]]; [|right; split; [exact Hc | now right]].
  destruct (3 <? String.length item); [|now left].
  apply get_put_cases in H as [H | [-> ->]]; [now left|].
  right. split; [reflexivity | now left].
Qed.

Lemma items_fold_proto (hsCode : string) (items : list string) :
  forall o,
    Obj.get o "__proto__" = None ->
    Obj.get
      (fold_left
         (fun o item =>
            if 3 <? String.length item then Obj.put item hsCode o else o)
         items o) "__proto__" = None.
Proof.
  induction items as [|item items IH]; intros o H; simpl; [exact H|].
  apply IH. destruct (3 <? String.length item); [|exact H].
  now apply get_put_proto.
Qed.

Lemma items_fold_noDup (hsCode : string) (items : list string) :
  forall o,
    NoDup (Obj.keys o) ->
    NoDup (Obj.keys
             (fold_left
                (fun o item =>
                   if 3 <? String.length item then Obj.put item hsCode o
                   else o)
                items o)).
Proof.
  induction items as [|item items IH]; intros o H; simpl; [exact H|].
  apply IH. destruct (3 <? String.length item); [|exact H].
  now apply put_noDup.
Qed.

Lemma extractStep_wellFormed (acc : Extracted) (m : RegMatch) :
  validMatch m -> wellFormedTables acc ->
  wellFormedTables (extractStep acc m).
Proof.
  intros [Hcode [Hpolicy _]] [Hnd1 [Hnd2 [Hcodes Hphrases]]].
  unfold wellFormedTables, extractStep. cbn [hsCodesData itemToHsMap].
  split; [now apply set_noDup|]. split.
  { apply put_noDup. now apply items_fold_noDup. }
  split.
  - intros code e. rewrite get_set.
    destruct (String.eqb (group1 m) code) eqn:Hk.
    + apply String.eqb_eq in Hk. intros H. injection H as <-. subst code.
      cbn [policy description]. split; [exact Hcode|].
      split; [exact Hpolicy | apply trim_idempotent].
    + apply Hcodes.
  - assert (Hkept : forall code,
               isCode code ->
               (code = group1 m
                \/ exists e, Obj.get (hsCodesData acc) code = Some e) ->
               exists e,
                 Obj.get
                   (Obj.set (group1 m)
                      (mkHsEntry (Js.trim (group2 m)) (group3 m))
                      (hsCodesData acc)) code = Some e).
    { intros code _ Hor. rewrite get_set.
      destruct (String.eqb (group1 m) code) eqn:Hk; [eauto|].
      destruct Hor as [-> | He]; [|exact He].
      rewrite String.eqb_refl in Hk. discriminate. }
    intros phrase code H.
    apply get_put_cases in H as [H | [-> ->]].
    + apply items_fold_spec in H as [H | [-> Hin]].
      * destruct (Hphrases phrase code H) as [Hn [Hc He]].
        split; [exact Hn|]. split; [exact Hc|].
        apply Hkept; [exact Hc | now right].
      * apply in_map_iff in Hin as [piece [<- _]].
        split; [apply normalized_lower_trim|]. split; [exact Hcode|].
        apply Hkept; [exact Hcode | now left].
    + split; [apply normalized_lower_trim|]. split; [exact Hcode|].
      apply Hkept; [exact Hcode | now left].
Qed.

(** The index never has a property [__proto__] of its own. *)
Lemma extract_fold_proto (ms : list RegMatch) :
  forall acc,
    Obj.get (itemToHsMap acc) "__proto__" = None ->
    Obj.get (itemToHsMap (fold_left extractStep ms acc)) "__proto__" = None.
Proof.
  induction ms as [|m ms IH]; intros acc H; simpl; [exact H|].
  apply IH. unfold extractStep. cbn [itemToHsMap].
  apply get_put_proto. now apply items_fold_proto.
Qed.

Lemma extract_fold_wellFormed (ms : list RegMatch) :
  forall acc,
    Forall validMatch ms -> wellFormedTables acc ->
    wellFormedTables (fold_left extractStep ms acc).
Proof.
  induction ms as [|m ms IH]; intros acc Hms Hacc; simpl; [exact Hacc|].
  inversion Hms as [|? ? Hm Hrest]; subst.
  apply IH; [exact Hrest | now apply extractStep_wellFormed].
Qed.

Lemma extractHSCodes_wellFormed (text : string) :
  wellFormedTables (extractHSCodes text).
Proof.
  apply extract_fold_wellFormed; [apply execAll_valid|].
  repeat split; try constructor; simpl; discriminate.
Qed.

End ExtractionInvariant.

(** X1.  Whatever the text, the extractor's tables are well formed: every
    key of the code table is eight digits, its policy is one of the four
    literals up to the case of letters, and its description is trimmed;
    every phrase of the index is lower-cased and trimmed and maps to a code
    that the code table holds; no key occurs twice; and the index has no
    property [__proto__] of its own, a description of that name being
    assigned to the setter of [Object.prototype]. *)
Theorem extracted_tables_are_well_formed (text : string) :
  let ex := extractHSCodes text in
  NoDup (Obj.keys (hsCodesData ex))
  /\ NoDup (Obj.keys (itemToHsMap ex))
  /\ (forall code e,
        Obj.get (hsCodesData ex) code = Some e ->
        String.length code = 8 /\ Obj.allDigits code = true
        /\ In (Js.toLowerCase (policy e))
              ["free"; "restricted"; "prohibited"; "not permitted"]
        /\ Js.trim (description e) = description e)
  /\ (forall phrase code,
        Obj.get (itemToHsMap ex) phrase = Some code ->
        Js.trim (Js.toLowerCase phrase) = phrase
        /\ exists e, Obj.get (hsCodesData ex) code = Some e)
  /\ Obj.get (itemToHsMap ex) "__proto__" = None.
Proof.
  intros ex.
  destruct (extractHSCodes_wellFormed text) as [H1 [H2 [H3 H4]]].
  split; [exact H1|]. split; [exact H2|]. split; [|split].
  - intros code e H. destruct (H3 code e H) as [[Hl Hd] [Hp Ht]]. auto.
  - intros phrase code H. destruct (H4 phrase code H) as [Hn [_ He]]. auto.
  - now apply extract_fold_proto.
Qed.

(** X2.  Every phrase the extractor indexes is resolved, as an item name,
    to the code the index holds for it, by the exact tier: extraction and
    resolution by name compose to a lookup. *)
Theorem indexed_phrase_resolves_to_its_code (text phrase code : string) :
  Obj.get (itemToHsMap (extractHSCodes text)) phrase = Some code ->
  findHSCodeByItemName phrase (Some (itemToHsMap (extractHSCodes text)))
  = Normal (Some (Code code)).
Proof.
  intros H.
  destruct (extractHSCodes_wellFormed text) as [_ [_ [_ Hphrases]]].
  destruct (Hphrases phrase code H) as [Hn [Hc _]].
  unfold findHSCodeByItemName, Obj.read. rewrite Hn, H. cbn [truthyRead].
  now rewrite (isCode_truthy code Hc).
Qed.

Lemma indexed_phrase_resolves_to_its_code_witness :
  Obj.get
    (itemToHsMap
       (extractHSCodes "01012100 Pure-bred breeding animals, Horses  Free"))
    "horses" = Some "01012100"
  /\ findHSCodeByItemName "horses"
       (Some (itemToHsMap
                (extractHSCodes
                   "01012100 Pure-bred breeding animals, Horses  Free")))
     = Normal (Some (Code "01012100")).
Proof.
  split; [reflexivity|].
  exact (indexed_phrase_resolves_to_its_code
           "01012100 Pure-bred breeding animals, Horses  Free"
           "horses" "01012100" eq_refl).
Defined.

(** X3.  A text in which no run of eight digits occurs yields two empty
    tables: extraction finds nothing and does not fail. *)
Theorem text_without_code_extracts_nothing (text : string) :
  hasCodeToken text = false ->
  extractHSCodes text = mkExtracted Obj.empty Obj.empty.
Proof.
  intros H. unfold extractHSCodes.
  now rewrite (execAll_without_token text H).
Qed.

Lemma text_without_code_extracts_nothing_witness :
  hasCodeToken "Chapter 85: electrical machinery (1234567 items)" = false
  /\ extractHSCodes "Chapter 85: electrical machinery (1234567 items)"
     = mkExtracted Obj.empty Obj.empty.
Proof.
  split; [reflexivity|].
  exact (text_without_code_extracts_nothing
           "Chapter 85: electrical machinery (1234567 items)" eq_refl).
Defined.

(** ** Code resolver: what a result means *)

(** A name in the normal form of [toLowerCase().trim()] that
    [Object.prototype] has is one of its two names without a capital. *)
Lemma inherited_normalized (s : string) :
  normalized s -> Obj.inherited s = true ->
  s = "constructor" \/ s = "__proto__".
Proof.
  intros Hn Hi.
  assert (Hlower : Js.toLowerCase s = s).
  { unfold normalized in Hn.
    pose proof (trim_toLowerCase (Js.toLowerCase s)) as H.
    rewrite toLowerCase_idempotent, Hn in H. now symmetry. }
  unfold Obj.inherited in Hi. apply existsb_exists in Hi as [n [Hin Heq]].
  apply String.eqb_eq in Heq. subst n.
  unfold Obj.inheritedNames in Hin. simpl in Hin.
  repeat (destruct Hin as [Hin | Hin];
          [subst s; first [now left | now right
                          | cbv in Hlower; discriminate Hlower]|]).
  contradiction.
Qed.

(** A result that is no code is [Object] or [Object.prototype]. *)
Lemma findHSCodeByItemName_builtin (itemName : string)
    (itemToHsMap : option (Obj.t string)) (name : string) :
  findHSCodeByItemName itemName itemToHsMap = Normal (Some (Builtin name)) ->
  name = "constructor" \/ name = "__proto__".
Proof.
  unfold findHSCodeByItemName.
  destruct itemToHsMap as [index|]; [|discriminate].
  destruct (truthyRead (Obj.read index (Js.trim (Js.toLowerCase itemName))))
    as [hs|] eqn:Hexact.
  - intros H. injection H as ->. unfold Obj.read in Hexact.
    destruct (Obj.get index (Js.trim (Js.toLowerCase itemName))) as [v|].
    + cbn [truthyRead] in Hexact. destruct (Js.truthy v); discriminate.
    + destruct (Obj.inherited (Js.trim (Js.toLowerCase itemName))) eqn:Hi;
        [|discriminate].
      injection Hexact as <-.
      now apply inherited_normalized; [apply normalize_idempotent|].
  - destruct (whenTruthy (find _ (Obj.keys index))) as [key|].
    + destruct (Obj.get index key); discriminate.
    + destruct (whenTruthy (find _ (Obj.keys index))) as [key|];
        [|discriminate].
      destruct (Obj.get index key); discriminate.
Qed.

(** X4.  Resolution by item name against a defined index never throws and
    never invents a code.  A code it returns is the value the index holds
    for a phrase that equals the normalized name, contains it, or is longer
    than 5 code units and contained in it; the exact entry, when it holds
    a code, wins over every other phrase.  What it returns is no code
    exactly when the index has no entry of its own under the normalized
    name and the name is [constructor] or [__proto__]: the result is then
    what [Object.prototype] holds under that name.  It returns [null] only
    when the exact entry is missing or empty, the name is not such a name
    unless the entry is empty, no indexed phrase longer than 5 code units
    is contained in the name and, for a name that is not blank, no indexed
    phrase contains it. *)
Theorem item_name_resolution_is_sound_and_complete
    (itemName : string) (index : Obj.t string) :
  let name := Js.trim (Js.toLowerCase itemName) in
  exists result,
    findHSCodeByItemName itemName (Some index) = Normal result
    /\ (forall code, Obj.get index name = Some code ->
                     Js.truthy code = true -> result = Some (Code code))
    /\ (Obj.get index name = None ->
        name = "constructor" \/ name = "__proto__" ->
        result = Some (Builtin name))
    /\ match result with
       | Some (Code code) =>
           exists phrase,
             Obj.get index phrase = Some code
             /\ (phrase = name
                 \/ Js.includes phrase name = true
                 \/ (Js.includes name phrase = true
                     /\ 5 < String.length phrase))
       | Some (Builtin inheritedName) =>
           inheritedName = name
           /\ Obj.get index name = None
           /\ (name = "constructor" \/ name = "__proto__")
       | None =>
           (Obj.get index name = None \/ Obj.get index name = Some "")
           /\ (Obj.get index name = None -> Obj.inherited name = false)
           /\ (name <> "" ->
               forall phrase, In phrase (Obj.keys index) ->
                              Js.includes phrase name = false)
           /\ (forall phrase, In phrase (Obj.keys index) ->
                              Js.includes name phrase = true ->
                              String.length phrase <= 5)
       end.
Proof.
  intros name. unfold findHSCodeByItemName. fold name.
  assert (Hnames : Obj.inherited name = true ->
                   name = "constructor" \/ name = "__proto__").
  { apply inherited_normalized, normalize_idempotent. }
  assert (Hinh : name = "constructor" \/ name = "__proto__" ->
                 Obj.inherited name = true).
  { intros [H | H]; rewrite H; reflexivity. }
  destruct (truthyRead (Obj.read index name)) as [hs|] eqn:Hexact.
  { exists (Some hs). split; [reflexivity|].
    unfold Obj.read in Hexact.
    destruct (Obj.get index name) as [v|] eqn:Hg.
    - cbn [truthyRead] in Hexact. destruct (Js.truthy v); [|discriminate].
      injection Hexact as <-. split; [intros code H _; congruence|].
      split; [discriminate|].
      exists name. split; [exact Hg | now left].
    - destruct (Obj.inherited name) eqn:Hi; [|discriminate].
      injection Hexact as <-. split; [discriminate|].
      split; [reflexivity|]. split; [reflexivity|].
      split; [reflexivity | now apply Hnames]. }
  assert (Hfalsy : Obj.get index name = None \/ Obj.get index name = Some "").
  { unfold Obj.read in Hexact.
    destruct (Obj.get index name) as [v|]; [|now left]. right.
    cbn [truthyRead] in Hexact. destruct v; [reflexivity | discriminate]. }
  assert (Hplain : Obj.get index name = None -> Obj.inherited name = false).
  { intros Hg. unfold Obj.read in Hexact. rewrite Hg in Hexact.
    destruct (Obj.inherited name); [discriminate | reflexivity]. }
  assert (Hwins : forall (result : option CodeValue) code,
             Obj.get index name = Some code ->
             Js.truthy code = true -> result = Some (Code code)).
  { intros result code H Ht. unfold Obj.read in Hexact.
    rewrite H in Hexact. cbn [truthyRead] in Hexact.
    rewrite Ht in Hexact. discriminate. }
  assert (Hbuilt : forall result : option CodeValue,
             Obj.get index name = None ->
             name = "constructor" \/ name = "__proto__" ->
             result = Some (Builtin name)).
  { intros result Hg Hn. apply Hinh in Hn. rewrite (Hplain Hg) in Hn.
    discriminate. }
  destruct (find (fun key => Js.includes key name) (Obj.keys index))
    as [k2|] eqn:Hfind2.
  - apply find_some in Hfind2 as [Hin2 Hinc2].
    destruct k2 as [|c k2].
    + (* the first phrase that contains the name is the empty one *)
      assert (Hname : name = "").
      { destruct name; [reflexivity | discriminate]. }
      cbn [whenTruthy Js.truthy String.eqb negb].
      destruct (find (fun key => Js.includes name key
                                 && (5 <? String.length key))
                     (Obj.keys index)) as [k3|] eqn:Hfind3.
      * apply find_some in Hfind3 as [Hin3 Hinc3].
        apply andb_true_iff in Hinc3 as [Hinc3 Hlen3].
        rewrite Hname in Hinc3. destruct k3; discriminate.
      * exists None. split; [reflexivity|]. split; [apply Hwins|].
        split; [apply Hbuilt|].
        split; [exact Hfalsy|]. split; [exact Hplain|]. split; [congruence|].
        intros phrase Hin Hinc.
        pose proof (List.find_none _ _ Hfind3 phrase Hin) as Hno. simpl in Hno.
        rewrite Hinc in Hno. simpl in Hno. apply Nat.ltb_ge in Hno. exact Hno.
    + destruct (get_of_key index (String c k2) Hin2) as [v Hv].
      exists (Some (Code v)). cbn [whenTruthy].
      split; [|split; [apply Hwins | split; [apply Hbuilt|]]].
      * change (Js.truthy (String c k2)) with true. cbv iota.
        now rewrite Hv.
      * exists (String c k2). split; [exact Hv | right; now left].
  - cbn [whenTruthy].
    destruct (find (fun key => Js.includes name key
                               && (5 <? String.length key))
                   (Obj.keys index)) as [k3|] eqn:Hfind3.
    + apply find_some in Hfind3 as [Hin3 Hinc3].
      apply andb_true_iff in Hinc3 as [Hinc3 Hlen3].
      apply Nat.ltb_lt in Hlen3.
      destruct (get_of_key index k3 Hin3) as [v Hv].
      exists (Some (Code v)).
      split; [|split; [apply Hwins | split; [apply Hbuilt|]]].
      * cbn [whenTruthy]. destruct k3 as [|c k3]; [simpl in Hlen3; lia|].
        change (Js.truthy (String c k3)) with true. cbv iota.
        now rewrite Hv.
      * exists k3. split; [exact Hv|]. right. right. now split.
    + exists None. split; [reflexivity|]. split; [apply Hwins|].
      split; [apply Hbuilt|].
      split; [exact Hfalsy|]. split; [exact Hplain|]. split.
      * intros _ phrase Hin. apply (List.find_none _ _ Hfind2 phrase Hin).
      * intros phrase Hin Hinc.
        pose proof (List.find_none _ _ Hfind3 phrase Hin) as Hno. simpl in Hno.
        rewrite Hinc in Hno. simpl in Hno. apply Nat.ltb_ge in Hno. exact Hno.
Qed.

Section DescriptionResolver.

Variable table : Obj.t HsEntry.

Lemma descriptionOf_get (code : string) (e : HsEntry) :
  Obj.get table code = Some e -> descriptionOf table code = description e.
Proof.
  intros H. unfold descriptionOf. now rewrite H.
Qed.

End DescriptionResolver.

(** X5.  Resolution by description against a defined table never throws.
    A code it returns is a key of the table whose lower-cased description
    equals the normalized query, contains it or is contained in it.  When
    the empty string is no key of the table, it returns [null] only if no
    stored description matches in any of these ways. *)
Theorem description_resolution_is_sound_and_complete
    (query : string) (table : Obj.t HsEntry) :
  let wanted := Js.trim (Js.toLowerCase query) in
  exists result,
    findHSCodeByDescription query (Some table) = Normal result
    /\ match result with
       | Some code =>
           exists e,
             Obj.get table code = Some e
             /\ (Js.toLowerCase (description e) = wanted
                 \/ Js.includes (Js.toLowerCase (description e)) wanted
                    = true
                 \/ Js.includes wanted (Js.toLowerCase (description e))
                    = true)
       | None =>
           Obj.get table "" = None ->
           forall code e,
             Obj.get table code = Some e ->
             Js.toLowerCase (description e) <> wanted
             /\ Js.includes (Js.toLowerCase (description e)) wanted = false
             /\ Js.includes wanted (Js.toLowerCase (description e)) = false
       end.
Proof.
  intros wanted. unfold findHSCodeByDescription. fold wanted.
  assert (Hkey : forall k code, whenTruthy k = Some code ->
                                k = Some code /\ code <> "").
  { intros [k|] code; simpl; [|discriminate].
    destruct k; simpl; [discriminate|].
    intros H. injection H as <-. split; [reflexivity | discriminate]. }
  assert (Hnokey : forall k, Obj.get table "" = None ->
                             whenTruthy k = None ->
                             (forall code, k = Some code ->
                                           In code (Obj.keys table)) ->
                             k = None).
  { intros [k|] Hempty H Hin; [|reflexivity].
    destruct k; [|discriminate]. exfalso.
    apply (get_none_key table "" Hempty). now apply Hin. }
  destruct (whenTruthy (exactDescriptionMatch table wanted))
    as [code|] eqn:Hexact.
  { exists (Some code). split; [reflexivity|].
    apply Hkey in Hexact as [Hexact _].
    apply find_some in Hexact as [Hin Heq].
    destruct (get_of_key table code Hin) as [e He]. exists e.
    split; [exact He|]. left.
    rewrite (descriptionOf_get table code e He) in Heq.
    now apply String.eqb_eq. }
  destruct (whenTruthy (partialDescriptionMatch table wanted))
    as [code|] eqn:Hpartial.
  { exists (Some code). split; [reflexivity|].
    apply Hkey in Hpartial as [Hpartial _].
    apply find_some in Hpartial as [Hin Hor].
    destruct (get_of_key table code Hin) as [e He]. exists e.
    split; [exact He|]. right.
    rewrite (descriptionOf_get table code e He) in Hor.
    now apply orb_true_iff in Hor. }
  exists None. split; [reflexivity|].
  intros Hempty code e He.
  pose proof (get_some_key table code e He) as Hin.
  assert (H1 : exactDescriptionMatch table wanted = None).
  { apply (Hnokey _ Hempty Hexact). intros c Hc.
    now apply find_some in Hc as [Hc _]. }
  assert (H2 : partialDescriptionMatch table wanted = None).
  { apply (Hnokey _ Hempty Hpartial). intros c Hc.
    now apply find_some in Hc as [Hc _]. }
  pose proof (List.find_none _ _ H1 code Hin) as Hno1.
  pose proof (List.find_none _ _ H2 code Hin) as Hno2. simpl in Hno1, Hno2.
  rewrite (descriptionOf_get table code e He) in Hno1, Hno2.
  apply orb_false_iff in Hno2 as [Ha Hb].
  split; [now apply String.eqb_neq | now split].
Qed.

(** ** The routes and the helpers they share *)

Lemma normalized_query_resolves_alike (query : string)
    (hsCodesData : option (Obj.t HsEntry)) :
  findHSCodeByDescription (Js.trim (Js.toLowerCase query)) hsCodesData
  = findHSCodeByDescription query hsCodesData.
Proof.
  unfold findHSCodeByDescription.
  now rewrite (normalize_idempotent query).
Qed.

(** X6.  The description route repeats the steps of
    [findHSCodeByDescription] and agrees with it: for a usable description
    and a loaded table, the route answers the code the helper returns (in
    the field [hsCode], with status 200), and the "no match" body when the
    helper returns [null].  Normalizing the description before the call,
    as the export route does, does not change the helper's result. *)
Theorem description_route_agrees_with_helper
    (db : Database) (table : Obj.t HsEntry) (query : string) :
  db_hsCodesData db = Some table ->
  Js.truthy query = true ->
  findHSCodeByDescription (Js.trim (Js.toLowerCase query)) (Some table)
  = findHSCodeByDescription query (Some table)
  /\ match findHSCodeByDescription query (Some table) with
     | Normal (Some code) =>
         fst (findByDescription db (Some query)) = 200
         /\ Obj.get (snd (findByDescription db (Some query))) "hsCode"
            = Some (JStr code)
     | Normal None =>
         findByDescription db (Some query)
         = (200, [("status", JBool false);
                  ("error",
                   JStr "No matching HS code found for this description")])
     | Thrown _ => False
     end.
Proof.
  intros Hdb Htruthy. split; [apply normalized_query_resolves_alike|].
  unfold findHSCodeByDescription, findByDescription.
  rewrite Hdb. cbn [truthyOpt valueOr]. rewrite Htruthy. cbn [negb].
  destruct (whenTruthy
              (exactDescriptionMatch table (Js.trim (Js.toLowerCase query))))
    as [code|]; [now split|].
  destruct (whenTruthy
              (partialDescriptionMatch table
                 (Js.trim (Js.toLowerCase query))))
    as [code|]; [now split | reflexivity].
Qed.

Lemma description_route_agrees_with_helper_witness :
  db_hsCodesData (mkDatabase None (Some telephoneTable) None)
  = Some telephoneTable
  /\ Js.truthy " Cotton Shirts" = true
  /\ findHSCodeByDescription " Cotton Shirts" (Some telephoneTable)
     = Normal (Some "62050000")
  /\ Obj.get
       (snd (findByDescription (mkDatabase None (Some telephoneTable) None)
               (Some " Cotton Shirts"))) "hsCode"
     = Some (JStr "62050000").
Proof.
  split; [reflexivity|]. split; [reflexivity|]. split; [reflexivity|].
  exact (proj2 (proj2 (description_route_agrees_with_helper
                         (mkDatabase None (Some telephoneTable) None)
                         telephoneTable " Cotton Shirts"
                         eq_refl eq_refl))).
Defined.

Section ExportRoute.

Variable generateContent : string -> option string.
Variable db : Database.

Lemma startsWith_own_prefix (n : nat) (s : string) :
  Js.startsWith s (Js.substring0 n s) = true.
Proof.
  revert s. induction n as [|n IH]; intros [|c s]; simpl;
    try reflexivity.
  now rewrite Ascii.eqb_refl, IH.
Qed.




(** An "allowed" decision rests on a Free policy of the code itself or of
    a stored code under its two-digit chapter. *)
Lemma allowed_decision_has_free_code (codeToCheck : CodeValue)
    (decision : ComplianceResult) :
  checkHSCodeCompliance generateContent codeToCheck db = Normal decision ->
  cr_allowed decision = true ->
  exists table code e,
    db_hsCodesData db = Some table
    /\ Obj.get table code = Some e
    /\ isFree (policy e) = true
    /\ Js.startsWith code (Js.substring0 2 (codeText codeToCheck)) = true
    /\ (forall name, codeToCheck = Builtin name ->
                     code = codeText codeToCheck).
Proof.
  unfold checkHSCodeCompliance, tableDecision.
  destruct (db_hsCodesData db) as [table|] eqn:Hdb.
  - unfold Obj.read.
    destruct (Obj.get table (codeText codeToCheck)) as [hsData|] eqn:Hget.
    + intros H. injection H as <-. cbn [cr_allowed]. intros Hfree.
      exists table, (codeText codeToCheck), hsData.
      split; [reflexivity|]. split; [exact Hget|]. split; [exact Hfree|].
      split; [apply startsWith_own_prefix | reflexivity].
    + destruct (Obj.inherited (codeText codeToCheck)); [discriminate|].
      destruct codeToCheck as [hsCode|name]; cbn [atLeastFourLong codeText].
      * destruct (4 <=? String.length hsCode).
        -- unfold chapterDecision.
           destruct (matchingCodes hsCode table) as [|first rest] eqn:Hm.
           { destruct (generateContent _); intros H; injection H as <-;
               discriminate. }
           destruct (existsb isFree
                       (map (policyOf table) (first :: rest))) eqn:Hex;
             intros H; injection H as <-; [|discriminate].
           intros _.
           apply (existsb_isFree_policies table) in Hex
             as [code [e [Hin [He Hfree]]]].
           exists table, code, e.
           split; [reflexivity|]. split; [exact He|]. split; [exact Hfree|].
           split; [|discriminate].
           rewrite <- Hm, matchingCodes_two_digit in Hin.
           apply filter_In in Hin. tauto.
        -- destruct (generateContent _); intros H; injection H as <-;
             discriminate.
      * destruct (generateContent _); intros H; injection H as <-;
          discriminate.
  - destruct (atLeastFourLong codeToCheck); simpl;
      destruct (generateContent _); intros H; injection H as <-;
      discriminate.
Qed.

Lemma answerForCode_allowed (itemName : option string)
    (codeToCheck : CodeValue) (r : Response) :
  answerForCode generateContent db itemName codeToCheck = Normal r ->
  Obj.get (snd r) "allowed" = Some (JBool true) ->
  exists decision,
    checkHSCodeCompliance generateContent codeToCheck db = Normal decision
    /\ cr_allowed decision = true
    /\ Obj.get (snd r) "hsCode"
       = Obj.get (codeField "hsCode" codeToCheck) "hsCode".
Proof.
  unfold answerForCode.
  destruct (checkHSCodeCompliance generateContent codeToCheck db)
    as [decision|e]; [|discriminate].
  destruct (cr_exists decision); cbn [negb].
  - destruct (cr_allowed decision) eqn:Hallowed.
    + intros H. injection H as <-. intros _. exists decision.
      split; [reflexivity|]. split; [exact Hallowed|]. cbn [snd].
      destruct codeToCheck as [hsCode|name]; cbn [codeField];
        [reflexivity|].
      destruct (String.eqb name "__proto__"); [reflexivity|].
      destruct (cr_policy decision), (cr_description decision); reflexivity.
    + intros H. injection H as <-. simpl. discriminate.
  - intros H. injection H as <-. simpl. discriminate.
Qed.

(** The answers of the [try] block, by the place that returns them. *)
Lemma checkExportComplianceTry_cases (req : ExportRequest) (r : Response) :
  checkExportComplianceTry generateContent db req = Normal r ->
  (fst r = 400
   /\ truthyOpt (req_hsCode req) = false
   /\ truthyOpt (req_itemName req) = false
   /\ truthyOpt (req_itemDescription req) = false
   /\ Obj.get (snd r) "allowed" = None)
  \/ (fst r = 200
      /\ truthyOpt (req_hsCode req) = false
      /\ Obj.get (snd r) "status" = Some (JBool false)
      /\ Obj.get (snd r) "allowed" = Some (JBool false)
      /\ Obj.get (snd r) "hsCode" = None)
  \/ (exists codeToCheck,
         answerForCode generateContent db (req_itemName req) codeToCheck
         = Normal r
         /\ (forall name,
                codeToCheck = Builtin name ->
                truthyOpt (req_hsCode req) = false
                /\ (name = "constructor" \/ name = "__proto__"))).
Proof.
  unfold checkExportComplianceTry.
  destruct (truthyOpt (req_hsCode req)) eqn:Hcode; cbn [negb andb].
  { intros H. right. right.
    exists (settled (option_map Code (req_hsCode req))).
    split; [exact H|].
    intros name Hn. destruct (req_hsCode req); discriminate. }
  destruct (truthyOpt (req_itemName req)) eqn:Hname; cbn [negb andb].
  - destruct (findHSCodeByItemName (valueOr (req_itemName req))
                (db_itemToHsMap db)) as [byName|e] eqn:Hfind;
      [|discriminate].
    destruct (truthyCode byName) eqn:HbyName.
    + destruct (truthyOpt (req_itemDescription req)).
      * destruct (findHSCodeByDescription _ (db_hsCodesData db))
          as [byDescription|e]; [|discriminate].
        destruct (truthyOpt byDescription).
        -- intros H. right. right.
           exists (settled (option_map Code byDescription)).
           split; [exact H|].
           intros name Hn. destruct byDescription; discriminate.
        -- intros H. injection H as <-. right. left.
           repeat split; reflexivity.
      * intros H. right. right. exists (settled byName).
        split; [exact H|].
        intros name Hn. split; [reflexivity|].
        destruct byName as [[hsCode|inheritedName]|]; try discriminate.
        injection Hn as ->.
        exact (findHSCodeByItemName_builtin _ _ _ Hfind).
    + intros H. injection H as <-. right. left. repeat split; reflexivity.
  - destruct (truthyOpt (req_itemDescription req)) eqn:Hdesc; cbn [negb].
    + destruct (findHSCodeByDescription _ (db_hsCodesData db))
        as [byDescription|e]; [|discriminate].
      destruct (truthyOpt byDescription).
      * intros H. right. right.
        exists (settled (option_map Code byDescription)).
        split; [exact H|].
        intros name Hn. destruct byDescription; discriminate.
      * intros H. injection H as <-. right. left.
        repeat split; reflexivity.
    + intros H. injection H as <-. left. repeat split; reflexivity.
Qed.

End ExportRoute.

(** X7.  The export route answers [allowed: true] only on the strength of
    a Free policy in the loaded table: the answer then holds, in [hsCode],
    the value that was checked, and the table holds a code with a Free
    policy that starts with the first two characters of the checked value
    read as a string (the code itself, or one of its chapter).  The
    checked value is a string unless the request has no usable [hsCode]
    and the lookup by name gave what [Object.prototype] holds under
    [constructor] or [__proto__]; the Free entry is then the one stored
    under the text of that value.  Nothing the explanation oracle says can
    make an answer "allowed". *)
Theorem allowed_answer_rests_on_free_policy
    (generateContent : string -> option string) (db : Database)
    (req : ExportRequest) :
  Obj.get (snd (checkExportCompliance generateContent db req)) "allowed"
  = Some (JBool true) ->
  exists table checked code e,
    db_hsCodesData db = Some table
    /\ Obj.get (snd (checkExportCompliance generateContent db req)) "hsCode"
       = Obj.get (codeField "hsCode" checked) "hsCode"
    /\ Obj.get table code = Some e
    /\ isFree (policy e) = true
    /\ Js.startsWith code (Js.substring0 2 (codeText checked)) = true
    /\ (forall name,
           checked = Builtin name ->
           truthyOpt (req_hsCode req) = false
           /\ (name = "constructor" \/ name = "__proto__")
           /\ code = codeText checked).
Proof.
  unfold checkExportCompliance.
  destruct (checkExportComplianceTry generateContent db req) as [r|err]
    eqn:Htry; [|simpl; discriminate].
  intros Hallowed.
  destruct (checkExportComplianceTry_cases generateContent db req r Htry)
    as [[_ [_ [_ [_ Hnone]]]] | [[_ [_ [_ [Hfalse _]]]]
                                | [checked [Hr Hbuiltin]]]];
    [congruence | congruence |].
  destruct (answerForCode_allowed generateContent db _ checked r Hr Hallowed)
    as [decision [Hdecision [Hok Hcode]]].
  destruct (allowed_decision_has_free_code generateContent db checked
              decision Hdecision Hok)
    as [table [code [e [Hdb [He [Hfree [Hprefix Hexact]]]]]]].
  exists table, checked, code, e.
  split; [exact Hdb|]. split; [exact Hcode|]. split; [exact He|].
  split; [exact Hfree|]. split; [exact Hprefix|].
  intros name Hn. destruct (Hbuiltin name Hn) as [Hno Hname].
  split; [exact Hno|]. split; [exact Hname|]. now apply (Hexact name).
Qed.

Lemma allowed_answer_rests_on_free_policy_witness :
  Obj.get
    (snd (checkExportCompliance (fun _ => Some "no reason")
            (mkDatabase None (Some restrictedAndFree) None)
            (mkExportRequest (Some "12349999") None None)))
    "allowed" = Some (JBool true)
  /\ exists table checked code e,
       Some restrictedAndFree = Some table
       /\ Obj.get
            (snd (checkExportCompliance (fun _ => Some "no reason")
                    (mkDatabase None (Some restrictedAndFree) None)
                    (mkExportRequest (Some "12349999") None None)))
            "hsCode" = Obj.get (codeField "hsCode" checked) "hsCode"
       /\ Obj.get table code = Some e
       /\ isFree (policy e) = true
       /\ Js.startsWith code (Js.substring0 2 (codeText checked)) = true
       /\ (forall name,
              checked = Builtin name ->
              truthyOpt (Some "12349999") = false
              /\ (name = "constructor" \/ name = "__proto__")
              /\ code = codeText checked).
Proof.
  split; [reflexivity|].
  exact (allowed_answer_rests_on_free_policy (fun _ => Some "no reason")
           (mkDatabase None (Some restrictedAndFree) None)
           (mkExportRequest (Some "12349999") None None) eq_refl).
Defined.



Section OracleIndependence.

Variables g1 g2 : string -> option string.
Variable db : Database.

(** Both runs throw, or both answer, alike but for the reason. *)
Lemma answerForCode_oracle (itemName : option string) (code : CodeValue) :
  match answerForCode g1 db itemName code,
        answerForCode g2 db itemName code with
  | Normal r1, Normal r2 =>
      fst r1 = fst r2
      /\ withoutReason (snd r1) = withoutReason (snd r2)
  | Thrown _, Thrown _ => True
  | _, _ => False
  end.
Proof.
  unfold answerForCode, checkHSCodeCompliance.
  destruct (tableDecision code db) as [[r|]|e]; [| |exact I].
  - destruct (cr_exists r); cbn [negb]; [|now split].
    destruct (cr_allowed r); [now split|].
    split; [reflexivity|]. cbn [snd].
    destruct code as [hsCode|name]; cbn [codeField];
      [|destruct (String.eqb name "__proto__")];
      destruct (cr_policy r), (cr_description r); reflexivity.
  - destruct (g1 _), (g2 _); cbn [cr_exists negb cr_reason field];
      split; reflexivity.
Qed.

End OracleIndependence.

(** X9.  The explanation oracle only words the reason.  Two runs of the
    export route on the same request and database, with oracles that
    answer differently or fail, give the same status code and the same
    body apart from the field [reason]: the same [status], [allowed],
    [hsCode], [policy] and [description]. *)
Theorem oracle_only_words_the_reason
    (g1 g2 : string -> option string) (db : Database)
    (req : ExportRequest) :
  fst (checkExportCompliance g1 db req)
  = fst (checkExportCompliance g2 db req)
  /\ withoutReason (snd (checkExportCompliance g1 db req))
     = withoutReason (snd (checkExportCompliance g2 db req)).
Proof.
  assert (Hanswer : forall name code,
             fst (match answerForCode g1 db name code with
                  | Normal response => response
                  | Thrown _ =>
                      (500, [("status", JBool false);
                             ("error", JStr "An error occurred while checking export compliance")])
                  end)
             = fst (match answerForCode g2 db name code with
                    | Normal response => response
                    | Thrown _ =>
                        (500, [("status", JBool false);
                               ("error", JStr "An error occurred while checking export compliance")])
                    end)
             /\ withoutReason
                  (snd (match answerForCode g1 db name code with
                        | Normal response => response
                        | Thrown _ =>
                            (500, [("status", JBool false);
                                   ("error", JStr "An error occurred while checking export compliance")])
                        end))
                = withoutReason
                    (snd (match answerForCode g2 db name code with
                          | Normal response => response
                          | Thrown _ =>
                              (500, [("status", JBool false);
                                     ("error", JStr "An error occurred while checking export compliance")])
                          end))).
  { intros name code.
    pose proof (answerForCode_oracle g1 g2 db name code) as H.
    destruct (answerForCode g1 db name code),
             (answerForCode g2 db name code);
      [exact H | contradiction | contradiction | now split]. }
  unfold checkExportCompliance, checkExportComplianceTry.
  destruct (negb (truthyOpt (req_hsCode req))
            && negb (truthyOpt (req_itemName req))
            && negb (truthyOpt (req_itemDescription req)));
    [now split|].
  destruct (negb (truthyOpt (req_hsCode req))
            && truthyOpt (req_itemName req)).
  - destruct (findHSCodeByItemName (valueOr (req_itemName req))
                (db_itemToHsMap db)) as [byName|e]; [|now split].
    destruct (truthyCode byName); [|now split].
    destruct (negb (truthyOpt (req_hsCode req))
              && truthyOpt (req_itemDescription req)).
    + destruct (findHSCodeByDescription _ (db_hsCodesData db))
        as [byDescription|e]; [|now split].
      destruct (truthyOpt byDescription).
      * apply Hanswer.
      * destruct (g1 _), (g2 _); split; reflexivity.
    + apply Hanswer.
  - destruct (negb (truthyOpt (req_hsCode req))
              && truthyOpt (req_itemDescription req)).
    + destruct (findHSCodeByDescription _ (db_hsCodesData db))
        as [byDescription|e]; [|now split].
      destruct (truthyOpt byDescription).
      * apply Hanswer.
      * destruct (g1 _), (g2 _); split; reflexivity.
    + apply Hanswer.
Qed.

(** ** Cosine similarity and ranking *)

Section Cosine.

Lemma mul_comm (x y : Num.t) : Num.mul x y = Num.mul y x.
Proof.
  unfold Num.mul.
  destruct x as [sx|sx| |sx mx ex], y as [sy|sy| |sy my ey]; simpl;
    try reflexivity; try (now rewrite xorb_comm).
  now rewrite xorb_comm, Pos.mul_comm, Z.add_comm.
Qed.

Lemma add_NaN_l (x : Num.t) : Num.add Num.NaN x = Num.NaN.
Proof.
  reflexivity.
Qed.

Lemma add_NaN_r (x : Num.t) : Num.add x Num.NaN = Num.NaN.
Proof.
  now destruct x.
Qed.

Lemma mul_NaN_r (x : Num.t) : Num.mul x Num.NaN = Num.NaN.
Proof.
  now destruct x.
Qed.

(** Swapping the vectors swaps the two norms and keeps the dot product. *)
Lemma cosineLoop_swap (vecA : list Num.t) :
  forall vecB dotProduct normA normB,
    List.length vecA = List.length vecB ->
    let '(d, na, nb) := cosineLoop vecA vecB (dotProduct, normA, normB) in
    cosineLoop vecB vecA (dotProduct, normB, normA) = (d, nb, na).
Proof.
  induction vecA as [|a vecA IH]; intros [|b vecB] dotProduct normA normB
                                        Hlen; try discriminate.
  - reflexivity.
  - injection Hlen as Hlen. cbn [cosineLoop hd tl].
    specialize (IH vecB (Num.add dotProduct (Num.mul a b))
                  (Num.add normA (Num.mul a a))
                  (Num.add normB (Num.mul b b)) Hlen).
    now rewrite (mul_comm b a).
Qed.

(** Once NaN, the dot product stays NaN. *)
Lemma cosineLoop_NaN (vecA : list Num.t) :
  forall vecB normA normB,
    fst (fst (cosineLoop vecA vecB (Num.NaN, normA, normB))) = Num.NaN.
Proof.
  induction vecA as [|a vecA IH]; intros vecB normA normB;
    [reflexivity|].
  cbn [cosineLoop]. rewrite add_NaN_l. apply IH.
Qed.

Lemma cosineLoop_short (vecA : list Num.t) :
  forall vecB dotProduct normA normB,
    List.length vecB < List.length vecA ->
    fst (fst (cosineLoop vecA vecB (dotProduct, normA, normB))) = Num.NaN.
Proof.
  induction vecA as [|a vecA IH]; intros vecB dotProduct normA normB Hlen;
    [simpl in Hlen; lia|].
  cbn [cosineLoop]. destruct vecB as [|b vecB].
  - cbn [hd tl]. rewrite mul_NaN_r, add_NaN_r. apply cosineLoop_NaN.
  - cbn [hd tl]. apply IH. simpl in Hlen. lia.
Qed.

End Cosine.

(** X10.  For two vectors of the same dimension the similarity is symmetric
    bit for bit: [cosineSimilarity(a, b)] and [cosineSimilarity(b, a)] are
    the same number.  (The loop runs over the first vector, so the
    dimensions must agree.) *)
Theorem cosineSimilarity_symmetric (vecA vecB : list Num.t) :
  List.length vecA = List.length vecB ->
  cosineSimilarity vecA vecB = cosineSimilarity vecB vecA.
Proof.
  intros Hlen. unfold cosineSimilarity.
  pose proof (cosineLoop_swap vecA vecB Num.zero Num.zero Num.zero Hlen)
    as H.
  destruct (cosineLoop vecA vecB (Num.zero, Num.zero, Num.zero))
    as [[d na] nb].
  rewrite H. now rewrite mul_comm.
Qed.

Lemma cosineSimilarity_symmetric_witness :
  List.length [one; Num.zero] = List.length [one; one]
  /\ cosineSimilarity [one; Num.zero] [one; one]
     = cosineSimilarity [one; one] [one; Num.zero].
Proof.
  split; [reflexivity|].
  exact (cosineSimilarity_symmetric [one; Num.zero] [one; one] eq_refl).
Defined.

(** X11.  A stored vector that is shorter than the query vector has a NaN
    similarity: the missing components read as [undefined].  So has every
    stored vector against an empty query vector. *)
Theorem cosineSimilarity_of_short_vector_is_NaN :
  (forall vecA vecB,
      List.length vecB < List.length vecA ->
      cosineSimilarity vecA vecB = Num.NaN)
  /\ (forall vecB, cosineSimilarity [] vecB = Num.NaN).
Proof.
  split.
  - intros vecA vecB Hlen. unfold cosineSimilarity.
    pose proof (cosineLoop_short vecA vecB Num.zero Num.zero Num.zero Hlen)
      as H.
    destruct (cosineLoop vecA vecB (Num.zero, Num.zero, Num.zero))
      as [[d na] nb].
    simpl in H. now rewrite H.
  - intros vecB. reflexivity.
Qed.

Lemma cosineSimilarity_of_short_vector_is_NaN_witness :
  List.length [one] < List.length [one; one]
  /\ cosineSimilarity [one; one] [one] = Num.NaN.
Proof.
  split; [repeat constructor|].
  exact (proj1 cosineSimilarity_of_short_vector_is_NaN [one; one] [one]
           (le_n 2)).
Defined.




(** ** Chunker: a text that fits *)

Section ShortText.

Lemma consHead_nonempty (c : ascii) (l : list string) :
  Js.consHead c l <> [].
Proof.
  now destruct l.
Qed.

Lemma splitBlankLine_nonempty (s : string) : Js.splitBlankLine s <> [].
Proof.
  destruct s as [|c [|c' rest]]; cbn [Js.splitBlankLine];
    [discriminate | apply consHead_nonempty |].
  destruct (Ascii.eqb c Js.LF && Ascii.eqb c' Js.LF);
    [discriminate | apply consHead_nonempty].
Qed.

Lemma join_consHead (c : ascii) (l : list string) :
  l <> [] ->
  Js.join Js.blankLine (Js.consHead c l)
  = String c (Js.join Js.blankLine l).
Proof.
  destruct l as [|h [|h' t]]; [congruence | reflexivity | reflexivity].
Qed.

Lemma splitBlankLine_step (c c' : ascii) (rest : string) :
  Js.splitBlankLine (String c (String c' rest))
  = if Ascii.eqb c Js.LF && Ascii.eqb c' Js.LF
    then "" :: Js.splitBlankLine rest
    else Js.consHead c (Js.splitBlankLine (String c' rest)).
Proof.
  reflexivity.
Qed.

(** Splitting on blank lines and joining with blank lines gives the text
    back. *)
Lemma join_splitBlankLine (s : string) :
  Js.join Js.blankLine (Js.splitBlankLine s) = s
  /\ forall c,
       Js.join Js.blankLine (Js.splitBlankLine (String c s)) = String c s.
Proof.
  induction s as [|c' rest [IH1 IH2]].
  - split; [reflexivity | intros c; reflexivity].
  - split; [apply IH2|]. intros c.
    rewrite splitBlankLine_step.
    destruct (Ascii.eqb c Js.LF && Ascii.eqb c' Js.LF) eqn:Hlf.
    + apply andb_true_iff in Hlf as [Hc Hc'].
      apply Ascii.eqb_eq in Hc, Hc'. subst c c'.
      pose proof (splitBlankLine_nonempty rest) as Hne.
      destruct (Js.splitBlankLine rest) as [|p ps] eqn:Hsplit;
        [congruence|].
      change (Js.join Js.blankLine ("" :: p :: ps))
        with (Js.blankLine ++ Js.join Js.blankLine (p :: ps)).
      now rewrite IH1.
    + rewrite join_consHead by apply splitBlankLine_nonempty.
      now rewrite IH2.
Qed.

Lemma append_assoc (s t u : string) : (s ++ t) ++ u = s ++ t ++ u.
Proof.
  induction s as [|c s IH]; simpl; [reflexivity | now rewrite IH].
Qed.

Lemma glue_length (ps : list string) :
  forall cur,
    String.length cur
    <= String.length
         (fold_left (fun c p => c ++ Js.blankLine ++ p) ps cur).
Proof.
  induction ps as [|p ps IH]; intros cur; cbn [fold_left]; [lia|].
  specialize (IH (cur ++ Js.blankLine ++ p)).
  rewrite !length_append in IH. lia.
Qed.

Lemma glue_join (ps : list string) :
  forall cur p,
    fold_left (fun c q => c ++ Js.blankLine ++ q) (p :: ps) cur
    = cur ++ Js.blankLine ++ Js.join Js.blankLine (p :: ps).
Proof.
  induction ps as [|q ps IH]; intros cur p; [reflexivity|].
  change (fold_left (fun c q0 => c ++ Js.blankLine ++ q0) (p :: q :: ps) cur)
    with (fold_left (fun c q0 => c ++ Js.blankLine ++ q0) (q :: ps)
            (cur ++ Js.blankLine ++ p)).
  rewrite IH.
  change (Js.join Js.blankLine (p :: q :: ps))
    with (p ++ Js.blankLine ++ Js.join Js.blankLine (q :: ps)).
  now rewrite !append_assoc.
Qed.

(** While everything fits, the paragraph loop only accumulates. *)
Lemma paragraphs_accumulate (size : nat) (ps : list string) :
  forall textChunks cur,
    String.length (fold_left (fun c p => c ++ Js.blankLine ++ p) ps cur)
    <= size + 2 ->
    fold_left (paragraphStep size) ps (textChunks, cur)
    = (textChunks, fold_left (fun c p => c ++ Js.blankLine ++ p) ps cur).
Proof.
  induction ps as [|p ps IH]; intros textChunks cur Hfit; [reflexivity|].
  cbn [fold_left] in *. unfold paragraphStep at 2.
  pose proof (glue_length ps (cur ++ Js.blankLine ++ p)) as Hmono.
  rewrite !length_append in Hmono.
  change (String.length Js.blankLine) with 2 in Hmono.
  assert (Hno : (size <? String.length (cur ++ p)) = false).
  { apply Nat.ltb_ge. rewrite length_append. lia. }
  rewrite Hno. now apply IH.
Qed.

End ShortText.

(** X13.  A text of at most [chunkSize] code units is one chunk, the
    trimmed text, however many paragraphs it has. *)
Theorem text_that_fits_is_one_chunk (text : string) (size : nat) :
  String.length text <= size ->
  chunkText text size = [Js.trim text].
Proof.
  intros Hfit. unfold chunkText.
  pose proof (splitBlankLine_nonempty text) as Hne.
  pose proof (proj1 (join_splitBlankLine text)) as Hjoin.
  destruct (Js.splitBlankLine text) as [|p ps]; [congruence|].
  assert (Hglue : fold_left (fun c q => c ++ Js.blankLine ++ q) (p :: ps) ""
                  = Js.blankLine ++ text).
  { now rewrite glue_join, Hjoin. }
  rewrite paragraphs_accumulate.
  - rewrite Hglue. reflexivity.
  - rewrite Hglue, length_append.
    change (String.length Js.blankLine) with 2. lia.
Qed.

Lemma text_that_fits_is_one_chunk_witness :
  String.length (" first" ++ Js.blankLine ++ "second ") <= chunkSize
  /\ textChunksOf (" first" ++ Js.blankLine ++ "second ")
     = ["first" ++ Js.blankLine ++ "second"].
Proof.
  assert (Hfit : String.length (" first" ++ Js.blankLine ++ "second ")
                 <= chunkSize).
  { apply Nat.leb_le. reflexivity. }
  split; [exact Hfit|].
  exact (text_that_fits_is_one_chunk
           (" first" ++ Js.blankLine ++ "second ") chunkSize Hfit).
Defined.

(** ** The upload route *)

Section Merge.

Context {V : Type}.

Lemma get_fold_set (b : Obj.t V) :
  forall (acc : Obj.t V) (k : string),
    NoDup (Obj.keys b) ->
    Obj.get (fold_left (fun o kv => Obj.set (fst kv) (snd kv) o) b acc) k
    = match Obj.get b k with
      | Some v => Some v
      | None => Obj.get acc k
      end.
Proof.
  induction b as [|[k0 v0] b IH]; intros acc k Hnd; [reflexivity|].
  inversion Hnd as [|? ? Hnot Hnd']; subst.
  cbn [fold_left fst snd Obj.get]. rewrite (IH _ k Hnd').
  destruct (String.eqb k0 k) eqn:Hk.
  - apply String.eqb_eq in Hk. subst k0.
    rewrite (get_none b k Hnot). apply get_set_same.
  - destruct (Obj.get b k); [reflexivity|].
    apply get_set_other. apply String.eqb_neq in Hk. congruence.
Qed.

Lemma fold_set_noDup (b : Obj.t V) :
  forall acc : Obj.t V,
    NoDup (Obj.keys acc) ->
    NoDup (Obj.keys
             (fold_left (fun o kv => Obj.set (fst kv) (snd kv) o) b acc)).
Proof.
  induction b as [|[k0 v0] b IH]; intros acc Hnd; [exact Hnd|].
  cbn [fold_left]. apply IH. now apply set_noDup.
Qed.

(** [{...a, ...b}] reads as [b] where [b] has the key and as [a]
    elsewhere. *)
Lemma get_spread (a b : Obj.t V) (k : string) :
  NoDup (Obj.keys a) -> NoDup (Obj.keys b) ->
  Obj.get (Obj.spread a b) k
  = match Obj.get b k with
    | Some v => Some v
    | None => Obj.get a k
    end.
Proof.
  intros Ha Hb. unfold Obj.spread.
  rewrite (get_fold_set b _ k Hb), (get_fold_set a _ k Ha).
  destruct (Obj.get b k); [reflexivity|]. now destruct (Obj.get a k).
Qed.

Lemma spread_noDup (a b : Obj.t V) : NoDup (Obj.keys (Obj.spread a b)).
Proof.
  unfold Obj.spread. apply fold_set_noDup, fold_set_noDup. constructor.
Qed.

End Merge.

Section UploadState.

Variable generateEmbedding : nat -> string -> option (list Num.t).
Variable p : Process.
Variable file : Upload.
Variable rest : list Upload.
Variable text : string.

Hypothesis readable : readablePdf file text.

(** The state and the answer of an upload that reaches the merge. *)
Lemma upload_merged :
  let merged :=
    mergedChunks generateEmbedding (storedChunks (disk p))
      (textChunksOf text) in
  let table :=
    Obj.spread (existingTable (disk p)) (hsCodesData (extractHSCodes text)) in
  let index :=
    Obj.spread (existingIndex (disk p)) (itemToHsMap (extractHSCodes text)) in
  fst (uploadRulesPdf generateEmbedding p (file :: rest))
  = mkProcess
      (mkFileSystem (Some (mkEmbeddingsFile (Some merged) (Some table)))
         (Some index))
      (mkDatabase (Some merged) (Some table) (Some index))
  /\ fst (snd (uploadRulesPdf generateEmbedding p (file :: rest))) = 200
  /\ Obj.get (snd (snd (uploadRulesPdf generateEmbedding p (file :: rest))))
       "totalChunks" = Some (JNum (List.length merged))
  /\ Obj.get (snd (snd (uploadRulesPdf generateEmbedding p (file :: rest))))
       "newTextChunksProcessed"
     = Some (JNum (List.length
                     (successfulChunks generateEmbedding
                        (storedChunks (disk p)) (textChunksOf text)))).
Proof.
  destruct readable as [Hmime Htext].
  unfold uploadRulesPdf, existingTable, existingIndex, storedChunks.
  rewrite Hmime, Htext. cbn [String.eqb negb].
  change (String.eqb "application/pdf" "application/pdf") with true.
  cbn [negb].
  destruct (embeddingsPath (disk p)) as [f|];
    destruct (itemToHsPath (disk p)); repeat split; reflexivity.
Qed.

End UploadState.

(** X14.  A readable PDF upload merges the tables by overwrite: afterwards
    the in-memory code table answers a code with the entry of the new
    document when the document has that code, and with the entry that was
    on disk otherwise; the phrase index likewise.  (The existing tables
    are objects: no key occurs twice in them.) *)
Theorem upload_merges_tables_by_overwrite
    (generateEmbedding : nat -> string -> option (list Num.t))
    (p : Process) (file : Upload) (rest : list Upload) (text : string) :
  readablePdf file text ->
  NoDup (Obj.keys (existingTable (disk p))) ->
  NoDup (Obj.keys (existingIndex (disk p))) ->
  let after :=
    embeddingsDatabase
      (fst (uploadRulesPdf generateEmbedding p (file :: rest))) in
  exists table index,
    db_hsCodesData after = Some table
    /\ db_itemToHsMap after = Some index
    /\ (forall code,
          Obj.get table code
          = match Obj.get (hsCodesData (extractHSCodes text)) code with
            | Some e => Some e
            | None => Obj.get (existingTable (disk p)) code
            end)
    /\ (forall phrase,
          Obj.get index phrase
          = match Obj.get (itemToHsMap (extractHSCodes text)) phrase with
            | Some code => Some code
            | None => Obj.get (existingIndex (disk p)) phrase
            end).
Proof.
  intros Hreadable Htable Hindex after.
  destruct (upload_merged generateEmbedding p file rest text Hreadable)
    as [Hstate _].
  destruct (extractHSCodes_wellFormed text) as [Hnd1 [Hnd2 _]].
  unfold after. rewrite Hstate. cbn [embeddingsDatabase].
  eexists. eexists. split; [reflexivity|]. split; [reflexivity|]. split.
  - intros code. now apply get_spread.
  - intros phrase. now apply get_spread.
Qed.

Lemma upload_merges_tables_by_overwrite_witness :
  Obj.get
    (match
       db_hsCodesData
         (embeddingsDatabase
            (fst (uploadRulesPdf (fun _ _ => None)
                    (startup
                       (mkFileSystem
                          (Some (mkEmbeddingsFile None (Some otherChapterFree)))
                          None))
                    [mkUpload "application/pdf"
                       (Normal "12340000 Seeds for sowing  Free")])))
     with
     | Some table => table
     | None => Obj.empty
     end) "12340000"
  = Some (mkHsEntry "Seeds for sowing" "Free").
Proof.
  destruct (upload_merges_tables_by_overwrite (fun _ _ => None)
              (startup
                 (mkFileSystem
                    (Some (mkEmbeddingsFile None (Some otherChapterFree)))
                    None))
              (mkUpload "application/pdf"
                 (Normal "12340000 Seeds for sowing  Free"))
              [] "12340000 Seeds for sowing  Free"
              (conj eq_refl eq_refl))
    as [table [index [Htable [_ [Hget _]]]]].
  - repeat constructor; simpl; intuition discriminate.
  - constructor.
  - rewrite Htable. rewrite Hget. reflexivity.
Defined.

Section NewChunks.

Variable answers : nat -> string -> option (list Num.t).
Variable offset : nat.

Lemma successful_length (textChunks : list string) :
  forall index,
    List.length (successful (embedFrom answers offset index textChunks))
    <= List.length textChunks.
Proof.
  induction textChunks as [|chunk rest IH]; intros index; simpl; [lia|].
  specialize (IH (S index)).
  destruct (answers index chunk); simpl; lia.
Qed.

Lemma successful_contents (textChunks : list string) :
  forall index,
    answersFrom answers index textChunks = true ->
    map content (successful (embedFrom answers offset index textChunks))
    = textChunks.
Proof.
  induction textChunks as [|chunk rest IH]; intros index H; simpl in *;
    [reflexivity|].
  destruct (answers index chunk); [|discriminate].
  simpl. f_equal. now apply IH.
Qed.

End NewChunks.

(** X15.  A readable PDF upload only appends to the chunk list: the chunks
    that were on disk stay in front, unchanged.  Every chunk it adds holds
    a chunk of the text together with the embedding the worker gave for
    it; a failed embedding drops its chunk, so at most as many chunks are
    added as the text has, and when no embedding fails the added contents
    are the chunks of the text in their order.  The answer's [totalChunks]
    is the length of the new list. *)
Theorem upload_appends_chunks
    (generateEmbedding : nat -> string -> option (list Num.t))
    (p : Process) (file : Upload) (rest : list Upload) (text : string) :
  readablePdf file text ->
  let before := existingChunks (storedChunks (disk p)) in
  let answer := uploadRulesPdf generateEmbedding p (file :: rest) in
  exists new,
    chunks (embeddingsDatabase (fst answer)) = Some (before ++ new)%list
    /\ Obj.get (snd (snd answer)) "totalChunks"
       = Some (JNum (List.length before + List.length new))
    /\ List.length new <= List.length (textChunksOf text)
    /\ (forall c, In c new ->
          exists index,
            nth_error (textChunksOf text) index = Some (content c)
            /\ generateEmbedding index (content c) = Some (embedding c))
    /\ (answersFrom generateEmbedding 0 (textChunksOf text) = true ->
        map content new = textChunksOf text).
Proof.
  intros Hreadable before answer.
  destruct (upload_merged generateEmbedding p file rest text Hreadable)
    as [Hstate [_ [Htotal _]]].
  exists (successfulChunks generateEmbedding (storedChunks (disk p))
            (textChunksOf text)).
  unfold answer. rewrite Hstate, Htotal. cbn [embeddingsDatabase chunks].
  split; [reflexivity|]. split.
  { unfold mergedChunks. now rewrite List.length_app. }
  split; [apply successful_length|]. split.
  - intros c Hin.
    destruct (embedFrom_sound _ _ _ 0 c Hin) as [i [Hn [Ha _]]].
    now exists i.
  - apply successful_contents.
Qed.

Lemma upload_appends_chunks_witness :
  exists new,
    chunks
      (embeddingsDatabase
         (fst (uploadRulesPdf (failsBelow 0)
                 (startup
                    (mkFileSystem
                       (Some (mkEmbeddingsFile (Some [unitChunk]) None))
                       None))
                 [mkUpload "application/pdf" (Normal "one paragraph")])))
    = Some ([unitChunk] ++ new)%list
    /\ List.length new <= 1.
Proof.
  destruct (upload_appends_chunks (failsBelow 0)
              (startup
                 (mkFileSystem
                    (Some (mkEmbeddingsFile (Some [unitChunk]) None)) None))
              (mkUpload "application/pdf" (Normal "one paragraph")) []
              "one paragraph" (conj eq_refl eq_refl))
    as [new [Hchunks [_ [Hlength _]]]].
  exists new. split; [exact Hchunks | exact Hlength].
Defined.

(** ** Memory and disk *)

Lemma upload_inStep
    (generateEmbedding : nat -> string -> option (list Num.t))
    (p : Process) (files : list Upload) :
  inStep p -> inStep (fst (uploadRulesPdf generateEmbedding p files)).
Proof.
  intros Hp. destruct files as [|file rest]; [exact Hp|].
  destruct (String.eqb (mimetype file) "application/pdf") eqn:Hmime.
  - destruct (pdfText file) as [text|message] eqn:Htext.
    + apply String.eqb_eq in Hmime.
      destruct (upload_merged generateEmbedding p file rest text
                  (conj Hmime Htext)) as [Hstate _].
      rewrite Hstate. unfold inStep, storedChunks. simpl.
      repeat split; try reflexivity. now right.
    + unfold uploadRulesPdf. rewrite Hmime, Htext. exact Hp.
  - unfold uploadRulesPdf. rewrite Hmime. exact Hp.
Qed.

Lemma serve_inStep (p : Process) (r : Request) :
  inStep p -> inStep (fst (serve p r)).
Proof.
  destruct r; simpl; [apply upload_inStep | tauto | tauto].
Qed.

(** X16.  Memory and disk stay in step.  From the start of the process and
    after any sequence of uploads and queries, the chunk list and the code
    table in memory are the ones in the snapshot file, and the phrase
    index in memory is either still undefined or the one in its file. *)
Theorem memory_and_disk_stay_in_step (fs : FileSystem)
    (requests : list Request) :
  inStep (serveAll (startup fs) requests).
Proof.
  assert (Hstart : inStep (startup fs)).
  { unfold inStep, startup, storedChunks. simpl.
    destruct (embeddingsPath fs); simpl; repeat split; try reflexivity;
      now left. }
  unfold serveAll. revert Hstart. generalize (startup fs).
  induction requests as [|r requests IH]; intros p Hp; [exact Hp|].
  simpl. apply IH. now apply serve_inStep.
Qed.

Section Reingestion.

Lemma keys_of_equal_reads {V : Type} (a b : Obj.t V) :
  NoDup (Obj.keys a) -> NoDup (Obj.keys b) ->
  (forall k, Obj.get a k = Obj.get b k) ->
  List.length (Obj.keys a) = List.length (Obj.keys b).
Proof.
  intros Ha Hb Hsame. apply Permutation_length.
  apply NoDup_Permutation; [exact Ha | exact Hb|].
  intros k. split; intros Hin.
  - destruct (get_of_key a k Hin) as [v Hv]. rewrite Hsame in Hv.
    now apply (get_some_key b k v).
  - destruct (get_of_key b k Hin) as [v Hv]. rewrite <- Hsame in Hv.
    now apply (get_some_key a k v).
Qed.

Lemma get_spread_new {V : Type} (a b : Obj.t V) (k : string) (v : V) :
  NoDup (Obj.keys b) -> Obj.get b k = Some v ->
  Obj.get (Obj.spread a b) k = Some v.
Proof.
  intros Hb Hget. unfold Obj.spread.
  now rewrite (get_fold_set b _ k Hb), Hget.
Qed.

(** Spreading the same object in a second time changes no read. *)
Lemma get_spread_again {V : Type} (a b : Obj.t V) (k : string) :
  NoDup (Obj.keys b) ->
  Obj.get (Obj.spread (Obj.spread a b) b) k = Obj.get (Obj.spread a b) k.
Proof.
  intros Hb. rewrite (get_spread _ b k (spread_noDup a b) Hb).
  destruct (Obj.get b k) as [v|] eqn:Hget; [|reflexivity].
  symmetry. now apply get_spread_new.
Qed.

End Reingestion.

(** X17.  Ingesting the same document twice is not idempotent on chunks
    and is idempotent on codes: when every embedding succeeds, the second
    upload adds as many chunks again as the text has (from an empty store
    the chunk count doubles), while the code table and the phrase index
    answer every key as after the first upload and have as many keys. *)
Theorem second_ingestion_doubles_chunks_only
    (generateEmbedding : nat -> string -> option (list Num.t))
    (p : Process) (text : string) :
  answersFrom generateEmbedding 0 (textChunksOf text) = true ->
  let file := mkUpload "application/pdf" (Normal text) in
  let once := fst (uploadRulesPdf generateEmbedding p [file]) in
  let twice := fst (uploadRulesPdf generateEmbedding once [file]) in
  exists chunks1 chunks2 table1 table2 index1 index2,
    embeddingsDatabase once
    = mkDatabase (Some chunks1) (Some table1) (Some index1)
    /\ embeddingsDatabase twice
       = mkDatabase (Some chunks2) (Some table2) (Some index2)
    /\ List.length chunks1
       = existingCount (storedChunks (disk p))
         + List.length (textChunksOf text)
    /\ List.length chunks2
       = List.length chunks1 + List.length (textChunksOf text)
    /\ (forall code, Obj.get table2 code = Obj.get table1 code)
    /\ List.length (Obj.keys table2) = List.length (Obj.keys table1)
    /\ (forall phrase, Obj.get index2 phrase = Obj.get index1 phrase)
    /\ List.length (Obj.keys index2) = List.length (Obj.keys index1).
Proof.
  intros Hall file once twice.
  assert (Hreadable : readablePdf file text) by (split; reflexivity).
  destruct (upload_merged generateEmbedding p file [] text Hreadable)
    as [Honce _].
  fold once in Honce.
  destruct (upload_merged generateEmbedding once file [] text Hreadable)
    as [Htwice _].
  fold twice in Htwice.
  destruct (extractHSCodes_wellFormed text) as [Hnd1 [Hnd2 _]].
  assert (Hnew : forall stored,
             List.length (successfulChunks generateEmbedding stored
                            (textChunksOf text))
             = List.length (textChunksOf text)).
  { intros stored. unfold successfulChunks.
    rewrite <- (length_map content).
    now rewrite (successful_contents _ _ _ 0 Hall). }
  rewrite Htwice, Honce. cbn [disk embeddingsDatabase].
  unfold existingTable, existingIndex, storedChunks.
  cbn [embeddingsPath itemToHsPath file_chunks file_hsCodesData].
  do 6 eexists. split; [reflexivity|]. split; [reflexivity|].
  split; [|split; [|split; [|split; [|split]]]].
  - unfold mergedChunks. rewrite List.length_app, Hnew.
    now rewrite existingCount_length.
  - unfold mergedChunks at 1. rewrite List.length_app, Hnew. reflexivity.
  - intros code. now apply get_spread_again.
  - apply keys_of_equal_reads; try apply spread_noDup.
    intros code. now apply get_spread_again.
  - intros phrase. now apply get_spread_again.
  - apply keys_of_equal_reads; try apply spread_noDup.
    intros phrase. now apply get_spread_again.
Qed.

Lemma second_ingestion_doubles_chunks_only_witness :
  answersFrom (failsBelow 0) 0
    (textChunksOf "85171200  Telephone sets  Free") = true
  /\ exists chunks1 chunks2 table1 table2 index1 index2,
       embeddingsDatabase
         (fst (uploadRulesPdf (failsBelow 0) (startup (mkFileSystem None None))
                 [mkUpload "application/pdf"
                    (Normal "85171200  Telephone sets  Free")]))
       = mkDatabase (Some chunks1) (Some table1) (Some index1)
       /\ embeddingsDatabase
            (fst (uploadRulesPdf (failsBelow 0)
                    (fst (uploadRulesPdf (failsBelow 0)
                            (startup (mkFileSystem None None))
                            [mkUpload "application/pdf"
                               (Normal "85171200  Telephone sets  Free")]))
                    [mkUpload "application/pdf"
                       (Normal "85171200  Telephone sets  Free")]))
          = mkDatabase (Some chunks2) (Some table2) (Some index2)
       /\ List.length chunks1 = 0 + 1
       /\ List.length chunks2 = List.length chunks1 + 1
       /\ (forall code, Obj.get table2 code = Obj.get table1 code)
       /\ List.length (Obj.keys table2) = List.length (Obj.keys table1)
       /\ (forall phrase, Obj.get index2 phrase = Obj.get index1 phrase)
       /\ List.length (Obj.keys index2) = List.length (Obj.keys index1).
Proof.
  split; [reflexivity|].
  exact (second_ingestion_doubles_chunks_only (failsBelow 0)
           (startup (mkFileSystem None None))
           "85171200  Telephone sets  Free" eq_refl).
Defined.

(** ** The shipment orchestrator *)

Section ItemReports.

Lemma get_assign (o : Body) (k k' : string) (v : option json) :
  Obj.get (assign k v o) k'
  = if String.eqb k k' then v else Obj.get o k'.
Proof.
  unfold assign. destruct v as [j|]; [apply get_set|].
  induction o as [|[k0 v0] o IH]; simpl.
  - now destruct (String.eqb k k').
  - destruct (String.eqb k0 k) eqn:Hk0; simpl.
    + apply String.eqb_eq in Hk0. subst k0. rewrite IH.
      now destruct (String.eqb k k').
    + rewrite IH. destruct (String.eqb k0 k') eqn:Hk'; [|reflexivity].
      apply String.eqb_eq in Hk'. subst k0.
      rewrite String.eqb_sym in Hk0. now rewrite Hk0.
Qed.

Variable E : Endpoints.

(** A report that step 1 rejects says [status: false]. *)
Lemma resolveItemCode_rejected (post : option string -> completion Body)
    (item : Item) (itemReport : Body) :
  resolveItemCode post item = Rejected itemReport ->
  Obj.get itemReport "status" = Some (JBool false).
Proof.
  unfold resolveItemCode.
  destruct (negb (truthyOpt (hsCode item))); [|discriminate].
  destruct (post (itemName item)) as [data|e].
  - destruct (truthyJson (Obj.get data "status")
              && truthyJson (Obj.get data "hsCode")) eqn:Hok.
    + destruct (Obj.get data "hsCode"); [discriminate|].
      rewrite andb_false_r in Hok. discriminate.
    + intros H. injection H as <-. now rewrite !get_set.
  - intros H. injection H as <-. now rewrite !get_set.
Qed.

(** Every report that is pushed carries the outcome in [status]. *)
Lemma checkItem_status (item : Item) :
  Obj.get (fst (checkItem E item)) "status"
  = Some (JBool (snd (checkItem E item))).
Proof.
  unfold checkItem.
  destruct (resolveItemCode (postFindByDescription E) item)
    as [code report | report] eqn:Hstep1.
  - destruct (postCheckExport E code item) as [exportData|e];
      [|cbn [fst snd]; now rewrite !get_set].
    destruct (negb (truthyJson (Obj.get exportData "allowed")));
      [cbn [fst snd]; now rewrite !get_set|].
    destruct (postImportLookup E (itemName item) code) as [importData|e];
      [|cbn [fst snd]; now rewrite !get_set].
    destruct (negb (truthyJson (Obj.get importData "status")));
      cbn [fst snd]; now rewrite !get_set.
  - cbn [fst snd].
    exact (resolveItemCode_rejected (postFindByDescription E) item report
             Hstep1).
Qed.




End ItemReports.



(** X19.  An item passes, that is its report says [status: true], exactly
    when all three steps succeed: a code is at hand (given with the item,
    or found by step 1), the export check answers with a truthy [allowed],
    and the import lookup answers with a truthy [status].  A call that
    throws, or an answer without these fields, rejects the item. *)
Theorem item_passes_iff_all_steps_succeed (E : Endpoints) (item : Item) :
  Obj.get (fst (checkItem E item)) "status" = Some (JBool true)
  <-> exists code report exportData importData,
        resolveItemCode (postFindByDescription E) item = Resolved code report
        /\ postCheckExport E code item = Normal exportData
        /\ truthyJson (Obj.get exportData "allowed") = true
        /\ postImportLookup E (itemName item) code = Normal importData
        /\ truthyJson (Obj.get importData "status") = true.
Proof.
  rewrite checkItem_status. unfold checkItem.
  destruct (resolveItemCode (postFindByDescription E) item)
    as [code report | report] eqn:Hstep1.
  - destruct (postCheckExport E code item) as [exportData|e] eqn:Hexport.
    + destruct (truthyJson (Obj.get exportData "allowed")) eqn:Hallowed;
        cbn [negb].
      * destruct (postImportLookup E (itemName item) code)
          as [importData|e] eqn:Himport.
        -- destruct (truthyJson (Obj.get importData "status")) eqn:Hstatus;
             cbn [negb snd].
           ++ split; [intros _ | reflexivity].
              exists code, report, exportData, importData.
              repeat split; assumption.
           ++ split; [discriminate|].
              intros [c [r [d2 [d3 [H1 [H2 [_ [H4 H5]]]]]]]].
              injection H1 as <- <-. rewrite Himport in H4.
              injection H4 as <-. congruence.
        -- cbn [snd]. split; [discriminate|].
           intros [c [r [d2 [d3 [H1 [_ [_ [H4 _]]]]]]]].
           injection H1 as <- <-. congruence.
      * cbn [snd]. split; [discriminate|].
        intros [c [r [d2 [d3 [H1 [H2 [H3 _]]]]]]].
        injection H1 as <- <-. rewrite Hexport in H2.
        injection H2 as <-. congruence.
    + cbn [snd]. split; [discriminate|].
      intros [c [r [d2 [d3 [H1 [H2 _]]]]]].
      injection H1 as <- <-. congruence.
  - cbn [snd]. split; [discriminate|].
    intros [c [r [d2 [d3 [H1 _]]]]]. discriminate.
Qed.

(** An item that passes had a truthy [status] from the import lookup. *)
Lemma passing_item_import_status (E : Endpoints) (item : Item) :
  snd (checkItem E item) = true ->
  exists code importData,
    postImportLookup E (itemName item) code = Normal importData
    /\ truthyJson (Obj.get importData "status") = true.
Proof.
  unfold checkItem.
  destruct (resolveItemCode (postFindByDescription E) item)
    as [code report | report]; [|discriminate].
  destruct (postCheckExport E code item) as [exportData|e]; [|discriminate].
  destruct (negb (truthyJson (Obj.get exportData "allowed")));
    [discriminate|].
  destruct (postImportLookup E (itemName item) code) as [importData|e]
    eqn:Himport; [|discriminate].
  destruct (truthyJson (Obj.get importData "status")) eqn:Hstatus;
    cbn [negb]; [|discriminate].
  intros _. now exists code, importData.
Qed.

(** X20.  With the import-side lookup served by the description route, an
    item whose name is, up to case and surrounding blanks, exactly the
    description of a stored code never passes: the route's exact-match
    answer has no [status] field, and step 3 wants one.  This holds
    whatever the other two endpoints answer and whether or not the item
    brings its own code. *)
Theorem exactly_described_item_never_passes (usa : Database)
    (table : Obj.t HsEntry) (E : Endpoints) (item : Item)
    (name code : string) :
  db_hsCodesData usa = Some table ->
  itemName item = Some name ->
  Js.truthy name = true ->
  whenTruthy (exactDescriptionMatch table (Js.trim (Js.toLowerCase name)))
  = Some code ->
  Obj.get (fst (checkItem (withImportRoute usa E) item)) "status"
  = Some (JBool false).
Proof.
  intros Hdb Hname Htruthy Hexact.
  rewrite checkItem_status.
  destruct (snd (checkItem (withImportRoute usa E) item)) eqn:Hpass;
    [|reflexivity].
  exfalso.
  apply passing_item_import_status in Hpass as [c [d3 [Himport Hok]]].
  cbn [withImportRoute postImportLookup] in Himport.
  rewrite Hname in Himport. unfold findByDescription in Himport.
  rewrite Hdb in Himport. cbn [truthyOpt valueOr] in Himport.
  rewrite Htruthy, Hexact in Himport. cbn [negb axiosPost] in Himport.
  injection Himport as <-. discriminate.
Qed.

Lemma exactly_described_item_never_passes_witness :
  Obj.get
    (fst (checkItem
            (withImportRoute (mkDatabase None (Some telephoneTable) None)
               (mkEndpoints (fun _ => Thrown "unused")
                  (fun _ _ => Normal [("allowed", JBool true)])
                  (fun _ _ => Thrown "unused")))
            (mkItem (Some "Telephone Sets") None None None
               (Some "85171200")))) "status"
  = Some (JBool false).
Proof.
  exact (exactly_described_item_never_passes
           (mkDatabase None (Some telephoneTable) None) telephoneTable
           (mkEndpoints (fun _ => Thrown "unused")
              (fun _ _ => Normal [("allowed", JBool true)])
              (fun _ _ => Thrown "unused"))
           (mkItem (Some "Telephone Sets") None None None (Some "85171200"))
           "Telephone Sets" "85171200" eq_refl eq_refl eq_refl eq_refl).
Defined.

(** ** From an upload to a decision *)

(** X21.  A code of an uploaded document is decided by the policy the
    document gives it: after a readable PDF upload, whatever was stored
    before, an export check that brings such a code as [hsCode] is
    answered 200 with [allowed] true exactly when that policy is Free in
    any case of its letters, and with the code in [hsCode]. *)
Theorem uploaded_code_is_decided_by_its_policy
    (generateEmbedding : nat -> string -> option (list Num.t))
    (generateContent : string -> option string)
    (p : Process) (file : Upload) (rest : list Upload)
    (text code : string) (e : HsEntry) :
  readablePdf file text ->
  Obj.get (hsCodesData (extractHSCodes text)) code = Some e ->
  let after :=
    embeddingsDatabase
      (fst (uploadRulesPdf generateEmbedding p (file :: rest))) in
  let answer :=
    checkExportCompliance generateContent after
      (mkExportRequest (Some code) None None) in
  fst answer = 200
  /\ Obj.get (snd answer) "allowed" = Some (JBool (isFree (policy e)))
  /\ Obj.get (snd answer) "status" = Some (JBool (isFree (policy e)))
  /\ Obj.get (snd answer) "hsCode" = Some (JStr code).
Proof.
  intros Hreadable Hget after answer.
  destruct (upload_merged generateEmbedding p file rest text Hreadable)
    as [Hstate _].
  destruct (extractHSCodes_wellFormed text) as [Hnd [_ [Hcodes _]]].
  destruct (Hcodes code e Hget) as [Hcode _].
  pose proof (isCode_truthy code Hcode) as Htruthy.
  assert (Hstored :
            Obj.get
              (Obj.spread (existingTable (disk p))
                 (hsCodesData (extractHSCodes text))) code = Some e).
  { now apply get_spread_new. }
  unfold answer, after. rewrite Hstate. cbn [embeddingsDatabase].
  unfold checkExportCompliance, checkExportComplianceTry.
  cbn [req_hsCode req_itemName req_itemDescription truthyOpt valueOr].
  rewrite Htruthy. cbn [negb andb option_map settled].
  unfold answerForCode, checkHSCodeCompliance, tableDecision, Obj.read.
  cbn [db_hsCodesData codeText]. rewrite Hstored.
  cbn [cr_exists cr_allowed cr_policy cr_description negb].
  destruct (isFree (policy e)); [repeat split; reflexivity|].
  destruct (generateContent _); repeat split; reflexivity.
Qed.

Lemma uploaded_code_is_decided_by_its_policy_witness :
  Obj.get
    (snd (checkExportCompliance (fun _ => None)
            (embeddingsDatabase
               (fst (uploadRulesPdf (fun _ _ => None)
                       (startup (mkFileSystem None None))
                       [mkUpload "application/pdf"
                          (Normal "85171200  Telephone sets  free")])))
            (mkExportRequest (Some "85171200") None None))) "allowed"
  = Some (JBool true).
Proof.
  exact (proj1 (proj2 (uploaded_code_is_decided_by_its_policy
                         (fun _ _ => None) (fun _ => None)
                         (startup (mkFileSystem None None))
                         (mkUpload "application/pdf"
                            (Normal "85171200  Telephone sets  free"))
                         [] "85171200  Telephone sets  free" "85171200"
                         (mkHsEntry "Telephone sets" "free")
                         (conj eq_refl eq_refl) eq_refl))).
Defined.
